(** * Supply-chain impact propagation (climada.engine.supplychain)

    A shallow embedding of the [SupplyChain] class: the multi-regional
    input-output table, the direct-impact mapper, the coefficient builder,
    the three propagation rules and the aggregator.

    Python floats and numpy [float64] entries are IEEE binary64 numbers
    ([PrimFloat.float]); a numpy [float32] entry is the binary64 number
    obtained by rounding to binary32 ([Np.astype_f32]).  Arrays are lists
    with their trailing dimensions recorded where numpy keeps them. *)

From Stdlib Require Import ZArith Floats Lia Sorted.
From stdpp Require Import base option list strings gmap.

Local Open Scope nat_scope.

(** ** Exceptions and results *)

Inductive exn : Type :=
  | KeyError
  | IndexError
  | AttributeError
  | ValueError
  | ZeroDivisionError
  | LinAlgError.

Inductive res (A : Type) : Type :=
  | Ok (a : A)
  | Raise (e : exn).
Arguments Ok {A} a.
Arguments Raise {A} e.

#[global] Instance res_ret : MRet res := @Ok.
#[global] Instance res_bind : MBind res := fun A B f m =>
  match m with
  | Ok a => f a
  | Raise e => Raise e
  end.

(** [d[k]] on a dict: a missing key raises [KeyError]. *)
Definition dict_getitem {V : Type} (d : gmap string V) (k : string) : res V :=
  match d !! k with
  | Some v => Ok v
  | None => Raise KeyError
  end.

(** [l[i]] on a sequence: an index past the end raises [IndexError]. *)
Definition getitem {A : Type} (l : list A) (i : nat) : res A :=
  match l !! i with
  | Some x => Ok x
  | None => Raise IndexError
  end.

(** [o.attr] on an attribute that may not have been assigned yet. *)
Definition getattr {A : Type} (o : option A) : res A :=
  match o with
  | Some x => Ok x
  | None => Raise AttributeError
  end.

(** [for i, x in enumerate(l): st = body(i, x, st)], from index [i0]. *)
Fixpoint for_enumerate_from {A St : Type} (i0 : nat) (l : list A)
    (body : nat -> A -> St -> res St) (st : St) : res St :=
  match l with
  | [] => Ok st
  | x :: l' => st' ← body i0 x st; for_enumerate_from (S i0) l' body st'
  end.

Definition for_enumerate {A St : Type} (l : list A)
    (body : nat -> A -> St -> res St) (st : St) : res St :=
  for_enumerate_from 0 l body st.

(** The same loop for a body that cannot raise. *)
Fixpoint loop_enumerate_from {A St : Type} (i0 : nat) (l : list A)
    (body : nat -> A -> St -> St) (st : St) : St :=
  match l with
  | [] => st
  | x :: l' => loop_enumerate_from (S i0) l' body (body i0 x st)
  end.

Definition loop_enumerate {A St : Type} (l : list A)
    (body : nat -> A -> St -> St) (st : St) : St :=
  loop_enumerate_from 0 l body st.

(** Python's [range(start, stop)]. *)
Record range : Type := Range { start : nat; stop : nat }.

Definition range_list (r : range) : list nat := seq (start r) (stop r - start r).

(** [r[0]] on a range: the first element, [IndexError] when it is empty. *)
Definition range_first (r : range) : res nat :=
  if start r <? stop r then Ok (start r) else Raise IndexError.

(** [unique()] of pandas: the distinct values in order of first appearance. *)
Fixpoint unique_from {A : Type} `{EqDecision A} (seen l : list A) : list A :=
  match l with
  | [] => []
  | x :: l' =>
      if decide (x ∈ seen) then unique_from seen l'
      else x :: unique_from (x :: seen) l'
  end.

Definition unique {A : Type} `{EqDecision A} (l : list A) : list A :=
  unique_from [] l.

#[global] Instance float_inhabited : Inhabited float := populate PrimFloat.zero.

(** ** The numpy operations the class uses *)

Module Np.

Abbreviation vec := (list float).

(** The element type of an array. *)
Inductive dtype : Type := float32 | float64.

(** A 2-d array: element type, second dimension (kept apart, as numpy
    keeps it when there are no rows) and rows. *)
Record array2 : Type := Array2 { dtype2 : dtype; ncols : nat; rows : list vec }.

(** A 3-d array [a[i][j][k]] with its second and third dimensions. *)
Record array3 : Type :=
  Array3 { dtype3 : dtype; dim2 : nat; dim3 : nat; planes : list (list vec) }.

Definition nrows (a : array2) : nat := length (rows a).

Definition get2 (a : array2) (i j : nat) : float := (rows a !!! i) !!! j.

Definition get3 (a : array3) (i j k : nat) : float :=
  ((planes a !!! i) !!! j) !!! k.

(** Rounding of a binary64 number to binary32 (round to nearest even,
    overflow to infinity), as [astype(np.float32)] and a store into a
    [float32] array do. *)
Definition round32 (x : spec_float) : spec_float :=
  match x with
  | S754_finite s m e => binary_normalize 24 128 (cond_Zopp s (Zpos m)) e s
  | _ => x
  end.

Definition astype_f32 (x : float) : float := SF2Prim (round32 (Prim2SF x)).

(** The rounding a store into an array of element type [dt] performs. *)
Definition cast (dt : dtype) (x : float) : float :=
  match dt with
  | float32 => astype_f32 x
  | float64 => x
  end.

(** The element type of the result of an operation on two arrays. *)
Definition promote (d1 d2 : dtype) : dtype :=
  match d1, d2 with
  | float32, float32 => float32
  | _, _ => float64
  end.

Definition astype (dt : dtype) (a : array2) : array2 :=
  Array2 dt (ncols a) (fmap (M:=list) (cast dt) <$> rows a).

Definition zeros (n : nat) : vec := replicate n PrimFloat.zero.

Definition zeros2 (dt : dtype) (r c : nat) : array2 :=
  Array2 dt c (replicate r (zeros c)).

Definition zeros_like (dt : dtype) (a : array2) : array2 :=
  zeros2 dt (nrows a) (ncols a).

Definition zeros3 (dt : dtype) (d1 d2 d3 : nat) : array3 :=
  Array3 dt d2 d3 (replicate d1 (replicate d2 (zeros d3))).

Definition identity (n : nat) : array2 :=
  Array2 float64 n
    (fmap (fun i => fmap (fun j => if i =? j then PrimFloat.one else PrimFloat.zero)
                       (seq 0 n)) (seq 0 n)).

(** Column [j] of [a], and the transpose [a.T]. *)
Definition column (a : array2) (j : nat) : vec := fmap (fun r => r !!! j) (rows a).

Definition T (a : array2) : array2 :=
  Array2 (dtype2 a) (nrows a) (fmap (column a) (seq 0 (ncols a))).

(** Broadcasting of one dimension: equal sizes, or one of them is 1. *)
Definition bdim (m n : nat) : res nat :=
  if m =? n then Ok m
  else if m =? 1 then Ok n
  else if n =? 1 then Ok m
  else Raise ValueError.

Definition stretch {A : Type} (n : nat) (l : list A) : list A :=
  if length l =? n then l
  else match l with
       | [x] => replicate n x
       | _ => l
       end.

(** Element-wise binary operation on 1-d arrays (in double precision: one
    operand at least is [float64] wherever the class uses it) and on
    2-d arrays. *)
Definition binop1 (f : float -> float -> float) (x y : vec) : res vec :=
  n ← bdim (length x) (length y);
  Ok (zip_with f (stretch n x) (stretch n y)).

Definition binop2 (f : float -> float -> float) (a b : array2) : res array2 :=
  r ← bdim (nrows a) (nrows b);
  c ← bdim (ncols a) (ncols b);
  let dt := promote (dtype2 a) (dtype2 b) in
  Ok (Array2 dt c
        (zip_with (fun x y => zip_with (fun u v => cast dt (f u v))
                                       (stretch c x) (stretch c y))
                  (stretch r (rows a)) (stretch r (rows b)))).

(** The right-hand side of a slice assignment: it has the length of the
    slice or is broadcast from length 1, and is rounded to the element
    type of the array. *)
Definition assign (dt : dtype) (n : nat) (v : vec) : res vec :=
  if length v =? n then Ok (fmap (cast dt) v)
  else if length v =? 1 then Ok (fmap (cast dt) (stretch n v))
  else Raise ValueError.

(** [a[i, :] = v] and [a[:, j] = v]; the index must be in range. *)
Definition set_row (i : nat) (v : vec) (a : array2) : res array2 :=
  if i <? nrows a then
    v' ← assign (dtype2 a) (ncols a) v;
    Ok (Array2 (dtype2 a) (ncols a) (<[i := v']> (rows a)))
  else Raise IndexError.

Definition set_col (j : nat) (v : vec) (a : array2) : res array2 :=
  if j <? ncols a then
    v' ← assign (dtype2 a) (nrows a) v;
    Ok (Array2 (dtype2 a) (ncols a) (imap (fun i r => <[j := v' !!! i]> r) (rows a)))
  else Raise IndexError.

(** [a[:, j, k] = v] on a 3-d array. *)
Definition set_slice3 (j k : nat) (v : vec) (a : array3) : res array3 :=
  if (j <? dim2 a) && (k <? dim3 a) then
    v' ← assign (dtype3 a) (length (planes a)) v;
    Ok (Array3 (dtype3 a) (dim2 a) (dim3 a)
          (imap (fun i p => alter (<[k := v' !!! i]>) j p) (planes a)))
  else Raise IndexError.

(** [a[:, :, k]] of a 3-d array. *)
Definition slice3 (k : nat) (a : array3) : array2 :=
  Array2 (dtype3 a) (dim2 a) (fmap (M:=list) (fun cell : vec => cell !!! k) <$> planes a).

(** [a[idx]] with a list of row positions. *)
Definition take_rows (a : array2) (idx : list nat) : res array2 :=
  match mapM (fun i => rows a !! i) idx with
  | Some rs => Ok (Array2 (dtype2 a) (ncols a) rs)
  | None => Raise IndexError
  end.

(** [a[:, pos]] with a list of column positions. *)
Definition take_cols (a : array2) (pos : list nat) : res array2 :=
  if forallb (fun p => p <? ncols a) pos then
    Ok (Array2 (dtype2 a) (length pos)
          (fmap (fun r => fmap (fun p => r !!! p) pos) (rows a)))
  else Raise IndexError.

(** [a[:, pos] = s] for [s] of shape [(nrows a, len pos)]: the columns are
    stored one after the other. *)
Definition put_cols (a : array2) (pos : list nat) (s : array2) : array2 :=
  Array2 (dtype2 a) (ncols a)
    (imap (fun y r =>
             loop_enumerate pos
               (fun k p r' => <[p := cast (dtype2 a) ((rows s !!! y) !!! k)]> r') r)
          (rows a)).

(** [a[:, pos] += b]: the selected columns are read, added to [b], and
    written back. *)
Definition iadd_cols (a : array2) (pos : list nat) (b : array2) : res array2 :=
  g ← take_cols a pos;
  s ← binop2 PrimFloat.add g b;
  if (nrows s =? nrows g) && (ncols s =? ncols g) then Ok (put_cols a pos s)
  else Raise ValueError.

(** Sums over arrays of element type [dt].  A sum is the left-to-right
    fold from zero, every partial sum rounded to [dt]; the blocked order
    in which numpy adds long contiguous runs is not modelled. *)
Definition sum (dt : dtype) (x : vec) : float :=
  foldl (fun acc v => cast dt (PrimFloat.add acc v)) PrimFloat.zero x.

Definition nan_to_zero (x : float) : float :=
  if PrimFloat.is_nan x then PrimFloat.zero else x.

(** [np.nansum]: the sum of the array in which every NaN is replaced
    by zero. *)
Definition nansum (dt : dtype) (x : vec) : float := sum dt (fmap nan_to_zero x).

Definition sum_axis1 (a : array2) : vec := fmap (sum (dtype2 a)) (rows a).
Definition nansum_axis1 (a : array2) : vec := fmap (nansum (dtype2 a)) (rows a).
Definition sum_axis0 (a : array2) : vec := fmap (sum (dtype2 a)) (rows (T a)).
Definition nansum_axis0 (a : array2) : vec := fmap (nansum (dtype2 a)) (rows (T a)).

(** [a.mean(axis=0)]: the column sums divided by the number of rows. *)
Definition count (a : array2) : float :=
  PrimFloat.of_uint63 (Uint63.of_Z (Z.of_nat (nrows a))).

Definition mean_axis0 (a : array2) : vec :=
  fmap (fun s => cast (dtype2 a) (PrimFloat.div s (count a))) (sum_axis0 a).

(** [np.maximum] on scalars: the larger operand, NaN when either is.  Of
    two zeros of different sign the first is returned; which of the two
    numpy returns is not modelled. *)
Definition maximum (x y : float) : float :=
  if PrimFloat.is_nan x then x
  else if PrimFloat.is_nan y then y
  else if PrimFloat.ltb x y then y else x.

(** [np.repeat(x, k)] and [reshape(r, c)] of a flat array. *)
Definition repeat (x : vec) (k : nat) : vec := flat_map (replicate k) x.

Definition reshape (r c : nat) (x : vec) : res array2 :=
  if length x =? r * c then
    Ok (Array2 float64 c (fmap (fun i => take c (drop (i * c) x)) (seq 0 r)))
  else Raise ValueError.

(** [np.unique] on integers: the distinct values in ascending order. *)
Fixpoint insert_sorted (x : Z) (l : list Z) : list Z :=
  match l with
  | [] => [x]
  | y :: l' =>
      if (x <? y)%Z then x :: y :: l'
      else if (x =? y)%Z then y :: l'
      else y :: insert_sorted x l'
  end.

Definition unique_sorted (l : list Z) : list Z := foldr insert_sorted [] l.

End Np.

(** ** The data of the class *)

(** The four slices [read_wiod] takes from the WIOD sheet. *)
Record wiot : Type := Wiot {
  wiot_sectors : list string;     (* iloc[start_row:end_row_sectors, col_sectors] *)
  wiot_iso3 : list string;        (* iloc[start_row:end_row, col_iso3] *)
  wiot_data : Np.array2;          (* iloc[start_row:end_row, start_col:end_col] *)
  wiot_total : Np.vec             (* iloc[start_row:end_row, -1] *)
}.

(** An event date of the hazard, a row of the exposure frame. *)
Record date : Type := Date { year : Z; month : Z; day : Z }.

Record exposure_row : Type := ExposureRow { region_id : Z; value : float }.

Record io_data_t : Type := IoData {
  coefficients : Np.array2;
  inverse : Np.array2;
  risk_structure : Np.array3;
  io_approach : string
}.

(** The attributes of a [SupplyChain] object.  Those that [__init__] does
    not assign are absent ([None]) until a method assigns them. *)
Record SupplyChain : Type := mkSupplyChain {
  mriot_data : Np.array2;
  countries_iso3 : list string;
  sectors : list string;
  total_prod : Np.vec;
  mriot_type : string;
  cntry_pos : gmap string range;
  years : option (list Z);
  cntry_dir_imp : option (list string);
  direct_impact : option Np.array2;
  direct_aai_agg : option Np.vec;
  indirect_impact : option Np.array2;
  indirect_aai_agg : option Np.vec;
  io_data : option io_data_t;
  total_impact : option Np.array2;
  total_aai_agg : option Np.vec
}.

Definition init : SupplyChain :=
  mkSupplyChain (Np.Array2 Np.float32 0 []) [] [] [] "None" ∅
                None None None None None None None None None.

(** Assignments to groups of attributes. *)
Definition set_mriot (w : wiot) (countries : list string) (pos : gmap string range)
    (self : SupplyChain) : SupplyChain :=
  mkSupplyChain (wiot_data w) countries (wiot_sectors w) (wiot_total w) "wiod" pos
                (years self) (cntry_dir_imp self) (direct_impact self)
                (direct_aai_agg self) (indirect_impact self) (indirect_aai_agg self)
                (io_data self) (total_impact self) (total_aai_agg self).

Definition set_direct (ys : list Z) (codes : list string) (imp : Np.array2)
    (aai : Np.vec) (self : SupplyChain) : SupplyChain :=
  mkSupplyChain (mriot_data self) (countries_iso3 self) (sectors self)
                (total_prod self) (mriot_type self) (cntry_pos self)
                (Some ys) (Some codes) (Some imp) (Some aai)
                (indirect_impact self) (indirect_aai_agg self)
                (io_data self) (total_impact self) (total_aai_agg self).

Definition set_indirect (imp : Np.array2) (aai : Np.vec) (io : io_data_t)
    (self : SupplyChain) : SupplyChain :=
  mkSupplyChain (mriot_data self) (countries_iso3 self) (sectors self)
                (total_prod self) (mriot_type self) (cntry_pos self)
                (years self) (cntry_dir_imp self) (direct_impact self)
                (direct_aai_agg self) (Some imp) (Some aai)
                (Some io) (total_impact self) (total_aai_agg self).

Definition set_total (imp : Np.array2) (aai : Np.vec) (self : SupplyChain) : SupplyChain :=
  mkSupplyChain (mriot_data self) (countries_iso3 self) (sectors self)
                (total_prod self) (mriot_type self) (cntry_pos self)
                (years self) (cntry_dir_imp self) (direct_impact self)
                (direct_aai_agg self) (indirect_impact self) (indirect_aai_agg self)
                (io_data self) (Some imp) (Some aai).

(** ** read_wiod *)

(** The dict comprehension
    [{iso3: range(len(sectors)*i, len(sectors)*(i+1)) for i, iso3 in enumerate(countries)}]. *)
Definition cntry_pos_of (n_sectors : nat) (countries : list string) : gmap string range :=
  loop_enumerate countries
    (fun i iso3 d => <[iso3 := Range (n_sectors * i) (n_sectors * (i + 1))]> d) ∅.

(** [read_wiod], from the slices of the sheet on. *)
Definition read_wiod (w : wiot) (self : SupplyChain) : SupplyChain :=
  let countries := unique (wiot_iso3 w) in
  set_mriot w countries (cntry_pos_of (length (wiot_sectors w)) countries) self.

(** ** The risk workflow *)

Section Workflow.

(** [countries_by_numeric.get(str(cntry))]: the ISO 3166 entry of a
    numeric code, here its alpha-3 code; [None] when there is none. *)
Variable alpha3_of_numeric : Z -> option string.

(** The impact calculation for one country: [Impact.calc] on the
    normalised exposure of that country, the impact functions and the
    hazard, then [calc_impact_year_set], as the array of its values. *)
Variable impact_year_set : list date -> list exposure_row -> Np.vec.

(** [np.linalg.inv]; [None] when it raises [LinAlgError]. *)
Variable linalg_inv : Np.array2 -> option Np.array2.

(** *** calc_sector_direct_impact *)

Definition built_in_subsec_pos : gmap string range :=
  {[ "service" := Range 26 56;
     "manufacturing" := Range 4 23;
     "agriculture" := Range 0 1;
     "mining" := Range 3 4 ]}.

(** [not selected_subsec]: [None] and the empty list are false. *)
Definition subsec_given (selected_subsec : option (list nat)) : option (list nat) :=
  match selected_subsec with
  | Some (s :: l) => Some (s :: l)
  | _ => None
  end.

(** The sum of a pandas column: NaN entries are skipped. *)
Definition pd_sum (x : Np.vec) : float := Np.nansum Np.float64 x.

(** [gdf['value'] /= total]: every value divided by the total, in floating
    point (a zero total gives NaN or an infinity, and no exception). *)
Definition normalize (rows : list exposure_row) : list exposure_row :=
  let total_ctry_value := pd_sum (fmap value rows) in
  fmap (fun r => ExposureRow (region_id r) (PrimFloat.div (value r) total_ctry_value)) rows.

(** The body of the loop over the countries of the exposure.  The call
    [cntyr_exp.check()], a validation by the exposures class, is left out. *)
Definition direct_step (self : SupplyChain) (hazard : list date)
    (exposure : list exposure_row) (ys : list Z) (selected_subsec : list nat)
    (cntry : Z) (st : Np.array2 * list string) : res (Np.array2 * list string) :=
  let '(direct_impact, cntry_dir_imp) := st in
  let cntyr_exp := filter (fun r => region_id r = cntry) exposure in
  let cntyr_exp := normalize cntyr_exp in
  let imp_year_set := impact_year_set hazard cntyr_exp in
  cntry_iso3 ← getattr (alpha3_of_numeric cntry);
  let cntry_iso3 :=
    if bool_decide (cntry_iso3 ∈ countries_iso3 self) then cntry_iso3 else "ROW" in
  let cntry_dir_imp := cntry_dir_imp ++ [cntry_iso3] in
  r ← dict_getitem (cntry_pos self) cntry_iso3;
  first ← range_first r;
  let subsec_cntry_pos := fmap (fun s => s + first) selected_subsec in
  selected_rows ← Np.take_rows (mriot_data self) subsec_cntry_pos;
  let subsec_cntry_prod := Np.sum_axis1 selected_rows in
  imp_year_set ← Np.reshape (length ys) (length selected_subsec)
                   (Np.repeat imp_year_set (length selected_subsec));
  direct_impact_cntry ← Np.binop2 PrimFloat.mul imp_year_set
                          (Np.Array2 Np.float64 (length subsec_cntry_prod)
                                     [subsec_cntry_prod]);
  direct_impact ← Np.iadd_cols direct_impact subsec_cntry_pos
                    (Np.astype Np.float32 direct_impact_cntry);
  Ok (direct_impact, cntry_dir_imp).

(** The positions of the subsectors: the given ones, or those of the
    named preset. *)
Definition select_subsec (sector_type : string) (selected_subsec : option (list nat))
    : res (list nat) :=
  match subsec_given selected_subsec with
  | Some l => Ok l
  | None => r ← dict_getitem built_in_subsec_pos sector_type; Ok (range_list r)
  end.

Definition calc_sector_direct_impact (hazard : list date)
    (exposure : list exposure_row) (sector_type : string)
    (selected_subsec : option (list nat)) (self : SupplyChain) : res SupplyChain :=
  selected_subsec ← select_subsec sector_type selected_subsec;
  let ys := Np.unique_sorted (fmap year hazard) in
  let unique_regid_same_order := unique (fmap region_id exposure) in
  let direct_impact :=
    Np.zeros2 Np.float64 (length ys)
              (length (countries_iso3 self) * length (sectors self)) in
  '(direct_impact, cntry_dir_imp) ←
    for_enumerate unique_regid_same_order
      (fun _ cntry st => direct_step self hazard exposure ys selected_subsec cntry st)
      (direct_impact, []);
  Ok (set_direct ys cntry_dir_imp direct_impact (Np.mean_axis0 direct_impact) self).

(** *** calc_indirect_impact *)

(** The coefficient matrix for the chosen approach. *)
Definition coefficients_of (io_approach : string) (self : SupplyChain) : res Np.array2 :=
  let coefficients := Np.zeros_like Np.float32 (mriot_data self) in
  if bool_decide (io_approach ∈ ["leontief"; "eeioa"]) then
    for_enumerate (Np.rows (Np.T (mriot_data self)))
      (fun col_i col coefficients =>
         p ← getitem (total_prod self) col_i;
         if PrimFloat.ltb PrimFloat.zero p then
           Np.set_col col_i (fmap (fun x => PrimFloat.div x p) col) coefficients
         else Np.set_col col_i [PrimFloat.zero] coefficients)
      coefficients
  else
    for_enumerate (Np.rows (mriot_data self))
      (fun row_i row coefficients =>
         p ← getitem (total_prod self) row_i;
         if PrimFloat.ltb PrimFloat.zero p then
           Np.set_row row_i (fmap (fun x => PrimFloat.div x p) row) coefficients
         else Np.set_row row_i [PrimFloat.zero] coefficients)
      coefficients.

(** The direct intensity of one year. *)
Definition direct_intensity_of (direct_impact_yearly total_prod : Np.vec) : Np.vec :=
  loop_enumerate (zip direct_impact_yearly total_prod)
    (fun idx '(impact, production) direct_intensity =>
       if PrimFloat.ltb PrimFloat.zero production then
         <[idx := PrimFloat.div impact production]> direct_intensity
       else <[idx := PrimFloat.zero]> direct_intensity)
    (Np.zeros (length direct_impact_yearly)).

Abbreviation calc_t := (Np.vec -> Np.array2 -> Np.array3 -> nat -> res Np.array3).

Definition leontief_demand (self : SupplyChain) : res Np.vec :=
  Np.binop1 PrimFloat.sub (total_prod self) (Np.nansum_axis1 (mriot_data self)).

Definition _leontief_calc (self : SupplyChain) : calc_t :=
  fun direct_intensity inverse risk_structure year_i =>
    demand ← leontief_demand self;
    degr_demand ← Np.binop1 PrimFloat.mul direct_intensity demand;
    for_enumerate (Np.rows inverse)
      (fun idx row risk_structure =>
         v ← Np.binop1 PrimFloat.mul row degr_demand;
         Np.set_slice3 idx year_i v risk_structure)
      risk_structure.

Definition ghosh_value_added (self : SupplyChain) : res Np.vec :=
  Np.binop1 PrimFloat.sub (total_prod self) (Np.nansum_axis0 (mriot_data self)).

Definition ghosh_degr_value_added (self : SupplyChain) (direct_intensity : Np.vec)
    : res Np.vec :=
  value_added ← ghosh_value_added self;
  x ← Np.binop1 PrimFloat.mul direct_intensity value_added;
  Np.binop1 Np.maximum x (Np.zeros (length value_added)).

Definition _ghosh_calc (self : SupplyChain) : calc_t :=
  fun direct_intensity inverse risk_structure year_i =>
    degr_value_added ← ghosh_degr_value_added self direct_intensity;
    for_enumerate (Np.rows (Np.T inverse))
      (fun idx col risk_structure =>
         v ← Np.binop1 PrimFloat.mul degr_value_added col;
         Np.set_slice3 idx year_i v risk_structure)
      risk_structure.

Definition _eeioa_calc (self : SupplyChain) : calc_t :=
  fun direct_intensity inverse risk_structure year_i =>
    for_enumerate (Np.rows (Np.T inverse))
      (fun idx col risk_structure =>
         v ← Np.binop1 PrimFloat.mul direct_intensity col;
         p ← getitem (total_prod self) idx;
         Np.set_slice3 idx year_i (fmap (fun x => PrimFloat.mul x p) v) risk_structure)
      risk_structure.

Definition io_switch (self : SupplyChain) : gmap string calc_t :=
  {[ "leontief" := _leontief_calc self;
     "ghosh" := _ghosh_calc self;
     "eeioa" := _eeioa_calc self ]}.

(** The body of the loop over the years. *)
Definition indirect_step (self : SupplyChain) (io_approach : string)
    (direct_impact inverse : Np.array2) (year_i : nat)
    (st : Np.array2 * Np.array3) : res (Np.array2 * Np.array3) :=
  let '(indirect_impact, risk_structure) := st in
  direct_impact_yearly ← getitem (Np.rows direct_impact) year_i;
  let direct_intensity := direct_intensity_of direct_impact_yearly (total_prod self) in
  calc ← dict_getitem (io_switch self) io_approach;
  risk_structure ← calc direct_intensity inverse risk_structure year_i;
  indirect_impact ← Np.set_row year_i
                      (Np.nansum_axis0 (Np.slice3 year_i risk_structure))
                      indirect_impact;
  Ok (indirect_impact, risk_structure).

Definition calc_indirect_impact (io_approach : string) (self : SupplyChain)
    : res SupplyChain :=
  coefficients ← coefficients_of io_approach self;
  m ← Np.binop2 PrimFloat.sub (Np.identity (Np.nrows (mriot_data self))) coefficients;
  inverse ← match linalg_inv m with
            | Some x => Ok x
            | None => Raise LinAlgError
            end;
  let inverse := Np.astype Np.float32 inverse in
  direct_impact ← getattr (direct_impact self);
  let indirect_impact := Np.zeros_like Np.float32 direct_impact in
  ys ← getattr (years self);
  let risk_structure :=
    Np.zeros3 Np.float32 (Np.nrows (mriot_data self)) (Np.ncols (mriot_data self))
              (length ys) in
  '(indirect_impact, risk_structure) ←
    for_enumerate ys
      (fun year_i _ st => indirect_step self io_approach direct_impact inverse year_i st)
      (indirect_impact, risk_structure);
  Ok (set_indirect indirect_impact (Np.mean_axis0 indirect_impact)
        (IoData coefficients inverse risk_structure io_approach) self).

(** *** calc_total_impact *)

Definition calc_total_impact (self : SupplyChain) : res SupplyChain :=
  indirect_impact ← getattr (indirect_impact self);
  direct_impact ← getattr (direct_impact self);
  total_impact ← Np.binop2 PrimFloat.add indirect_impact direct_impact;
  Ok (set_total total_impact (Np.mean_axis0 total_impact) self).


(** ** Auxiliary definitions for the statements *)

(** The value the intensity loop stores for one row. *)
Definition intensity (impact production : float) : float :=
  if PrimFloat.ltb PrimFloat.zero production then PrimFloat.div impact production
  else PrimFloat.zero.

(** Every row of a 2-d array has the recorded number of columns. *)
Definition well_shaped (a : Np.array2) : Prop :=
  Forall (fun r : Np.vec => length r = Np.ncols a) (Np.rows a).

(** The shape invariant of the table: a square flow matrix and one total
    production per row. *)
Definition valid_mriot (self : SupplyChain) : Prop :=
  well_shaped (mriot_data self) /\
  Np.nrows (mriot_data self) = Np.ncols (mriot_data self) /\
  length (total_prod self) = Np.nrows (mriot_data self).

(** A flow divided by a total production, as stored in the [float32]
    coefficient matrix, with the guard on the total production. *)
Definition coefficient (flow production : float) : float :=
  if PrimFloat.ltb PrimFloat.zero production
  then Np.cast Np.float32 (PrimFloat.div flow production)
  else PrimFloat.zero.

(** The invariant of both coefficient loops: the shape of the matrix. *)
Definition coefficients_shape (m c : Np.array2) : Prop :=
  Np.dtype2 c = Np.float32 /\ Np.ncols c = Np.ncols m /\
  Np.nrows c = Np.nrows m /\ well_shaped c.

(** Every plane and cell of a 3-d array has the recorded dimensions. *)
Definition well_shaped3 (a : Np.array3) : Prop :=
  Forall (fun p : list Np.vec =>
            length p = Np.dim2 a /\
            Forall (fun cell : Np.vec => length cell = Np.dim3 a) p)
         (Np.planes a).

(** [a'] has the element type and the dimensions of [a]. *)
Definition same_shape3 (a a' : Np.array3) : Prop :=
  Np.dtype3 a' = Np.dtype3 a /\ Np.dim2 a' = Np.dim2 a /\ Np.dim3 a' = Np.dim3 a /\
  length (Np.planes a') = length (Np.planes a).

(** The shapes the propagation rules work on: a square table of side [n],
    one intensity per row, an [n] by [n] inverse, and a risk structure of
    shape [(n, n, years)] with [year_i] among its years. *)
Definition valid_propagation (self : SupplyChain) (direct_intensity : Np.vec)
    (inverse : Np.array2) (risk_structure : Np.array3) (year_i : nat) : Prop :=
  let n := Np.nrows (mriot_data self) in
  valid_mriot self /\
  length direct_intensity = n /\
  well_shaped inverse /\ Np.nrows inverse = n /\ Np.ncols inverse = n /\
  well_shaped3 risk_structure /\ length (Np.planes risk_structure) = n /\
  Np.dim2 risk_structure = n /\ year_i < Np.dim3 risk_structure.

(** The claimed forms of the Leontief demand and of the Ghosh value added,
    with plain sums over the rows and the columns of the flow matrix. *)
Definition spec_leontief_demand (self : SupplyChain) : res Np.vec :=
  Np.binop1 PrimFloat.sub (total_prod self) (Np.sum_axis1 (mriot_data self)).

Definition spec_ghosh_value_added (self : SupplyChain) : res Np.vec :=
  Np.binop1 PrimFloat.sub (total_prod self) (Np.sum_axis0 (mriot_data self)).

(** [a'] has the shape of [a] and its slices [[:, :, y]] for the years [y]
    other than [year_i]. *)
Definition frame3 (year_i : nat) (a a' : Np.array3) : Prop :=
  same_shape3 a a' /\ forall y, y <> year_i -> Np.slice3 y a' = Np.slice3 y a.

(** The arithmetic mean of the entries of a vector of element type [dt]:
    their sum divided by their number. *)
Definition arith_mean (dt : Np.dtype) (x : Np.vec) : float :=
  Np.cast dt (PrimFloat.div (Np.sum dt x)
                (PrimFloat.of_uint63 (Uint63.of_Z (Z.of_nat (length x))))).

(** The code under which a country is booked: its own ISO3 code when the
    table has it, 'ROW' otherwise. *)
Definition resolve (self : SupplyChain) (code : string) : string :=
  if bool_decide (code ∈ countries_iso3 self) then code else "ROW".

(** The impact year set of a country, and what the country adds to the
    direct impact of year [y] at row [p] of the table. *)
Definition country_impact (hazard : list date) (exposure : list exposure_row)
    (cntry : Z) : Np.vec :=
  impact_year_set hazard (normalize (filter (fun r => region_id r = cntry) exposure)).

Definition contribution (self : SupplyChain) (hazard : list date)
    (exposure : list exposure_row) (cntry : Z) (y p : nat) : float :=
  Np.astype_f32
    (PrimFloat.mul (country_impact hazard exposure cntry !!! y)
                   (Np.sum (Np.dtype2 (mriot_data self)) (Np.rows (mriot_data self) !!! p))).

(** The shape of the direct-impact matrix during the loop. *)
Definition direct_shape (ys : list Z) (d : Np.array2) : Prop :=
  Np.dtype2 d = Np.float64 /\ Np.nrows d = length ys /\ well_shaped d.

(** The claimed form of the normalisation: a zero total raises. *)
Definition spec_normalize (rows : list exposure_row) : res (list exposure_row) :=
  if PrimFloat.eqb (pd_sum (value <$> rows)) PrimFloat.zero
  then Raise ZeroDivisionError
  else Ok (normalize rows).

(** A float that is a zero of either sign or NaN. *)
Definition zero_or_nan (x : float) : Prop :=
  match Prim2SF x with
  | S754_zero _ | S754_nan => True
  | _ => False
  end.

(** Whether a country is booked at column [q] of the direct impact: [q] is
    a selected subsector position added to the start of the row range of
    the code under which the country is booked. *)
Definition booked_at (self : SupplyChain) (sel : list nat) (cntry : Z) (q : nat) : bool :=
  match alpha3_of_numeric cntry with
  | Some code =>
      match cntry_pos self !! resolve self code with
      | Some rng => bool_decide (q ∈ (fun s => s + start rng) <$> sel)
      | None => false
      end
  | None => false
  end.

(** The contributions of the countries booked at column [q], added from
    zero in the order of the countries. *)
Definition accumulated (self : SupplyChain) (hazard : list date)
    (exposure : list exposure_row) (sel : list nat) (countries : list Z)
    (y q : nat) : float :=
  foldl (fun acc cntry =>
           if booked_at self sel cntry q
           then PrimFloat.add acc (contribution self hazard exposure cntry y q)
           else acc)
        PrimFloat.zero countries.

End Workflow.

(** * Sample data

    A table of two countries with one sector each, an exposure with two
    countries that the table does not list, and stand-ins for the three
    external collaborators. *)

Module Sample.

(** Numeric country codes with their alpha-3 codes. *)
Definition alpha3 (cntry : Z) : option string :=
  if (cntry =? 756)%Z then Some "CHE"
  else if (cntry =? 104)%Z then Some "MMR"
  else if (cntry =? 116)%Z then Some "KHM"
  else None.

(** A stand-in for the impact calculation: every year loses the exposed
    share of the value. *)
Definition year_set (hazard : list date) (rows : list exposure_row) : Np.vec :=
  (fun _ => Np.sum Np.float64 (value <$> rows)) <$> Np.unique_sorted (year <$> hazard).

(** The inverse of a two by two matrix. *)
Definition inv2 (m : Np.array2) : option Np.array2 :=
  match Np.rows m with
  | [[a; b]; [c; d]] =>
      let det := PrimFloat.sub (PrimFloat.mul a d) (PrimFloat.mul b c) in
      if PrimFloat.eqb det PrimFloat.zero then None
      else Some (Np.Array2 Np.float64 2
                   [[PrimFloat.div d det; PrimFloat.div (PrimFloat.opp b) det];
                    [PrimFloat.div (PrimFloat.opp c) det; PrimFloat.div a det]])
  | _ => None
  end.

Definition table : wiot :=
  Wiot ["A"] ["CHE"; "ROW"]
       (Np.Array2 Np.float64 2 [[10%float; 5%float]; [5%float; 10%float]])
       [20%float; 20%float].

(** The same table with a flow that was not recorded. *)
Definition table_nan : wiot :=
  Wiot ["A"] ["CHE"; "ROW"]
       (Np.Array2 Np.float64 2 [[PrimFloat.nan; 5%float]; [5%float; 10%float]])
       [20%float; 20%float].

(** The same table with a second country that produces nothing. *)
Definition table_idle : wiot :=
  Wiot ["A"] ["CHE"; "ROW"]
       (Np.Array2 Np.float64 2 [[10%float; 5%float]; [5%float; 10%float]])
       [20%float; 0%float].

(** A direct-impact matrix of one year and an inverse to propagate it. *)
Definition one_year : Np.array2 := Np.Array2 Np.float64 2 [[100%float; 7%float]].

Definition inverse : Np.array2 :=
  Np.Array2 Np.float32 2 [[2%float; 1%float]; [1%float; 2%float]].

Definition hazard : list date := [Date 2020 1 1; Date 2019 5 5; Date 2020 3 3].

Definition exposure : list exposure_row :=
  [ExposureRow 104 1%float; ExposureRow 116 3%float; ExposureRow 104 3%float].

(** An exposure whose values are all zero. *)
Definition exposure_zero : list exposure_row :=
  [ExposureRow 104 0%float; ExposureRow 104 0%float].

Definition sc0 : SupplyChain := Eval vm_compute in read_wiod table init.
Definition sc0_nan : SupplyChain := Eval vm_compute in read_wiod table_nan init.
Definition sc0_idle : SupplyChain := Eval vm_compute in read_wiod table_idle init.

(** The state after the direct, the indirect and the total step. *)
Definition or_else (r : res SupplyChain) (s : SupplyChain) : SupplyChain :=
  match r with
  | Ok s' => s'
  | Raise _ => s
  end.

Definition sc1 : SupplyChain :=
  Eval vm_compute in
    or_else (calc_sector_direct_impact alpha3 year_set hazard exposure "agriculture" None sc0)
            sc0.

Definition sc2 : SupplyChain :=
  Eval vm_compute in or_else (calc_indirect_impact inv2 "leontief" sc1) sc1.


(** The state after a direct step over a hazard without events. *)
Definition sc1_no_years : SupplyChain :=
  Eval vm_compute in
    or_else (calc_sector_direct_impact alpha3 year_set [] exposure "agriculture" None sc0) sc0.

(** An exposure with a country of the table and two that it does not
    list, and the state after its direct step. *)
Definition exposure_mixed : list exposure_row :=
  [ExposureRow 756 2%float; ExposureRow 104 1%float; ExposureRow 116 3%float;
   ExposureRow 104 3%float].

Definition sc1_mixed : SupplyChain :=
  Eval vm_compute in
    or_else (calc_sector_direct_impact alpha3 year_set hazard exposure_mixed
               "agriculture" None sc0) sc0.

(** The table with a total production for its first row only. *)
Definition table_short : wiot :=
  Wiot ["A"] ["CHE"; "ROW"]
       (Np.Array2 Np.float64 2 [[10%float; 5%float]; [5%float; 10%float]])
       [20%float].

Definition sc0_short : SupplyChain := Eval vm_compute in read_wiod table_short init.

(** A direct impact of two years, the first without a recorded loss, and
    the states with it and after its indirect step. *)
Definition idle_year : Np.array2 :=
  Np.Array2 Np.float64 2 [[0%float; PrimFloat.nan]; [100%float; 7%float]].

Definition sc1_idle : SupplyChain :=
  Eval vm_compute in
    set_direct [2019%Z; 2020%Z] ["CHE"; "ROW"] idle_year (Np.mean_axis0 idle_year) sc0.

Definition sc2_idle : SupplyChain :=
  Eval vm_compute in or_else (calc_indirect_impact inv2 "leontief" sc1_idle) sc1_idle.

End Sample.

(** * Properties *)

Section Properties.

(** The external collaborators, as in the workflow. *)
Variable alpha3_of_numeric : Z -> option string.
Variable impact_year_set : list date -> list exposure_row -> Np.vec.
Variable linalg_inv : Np.array2 -> option Np.array2.

Local Abbreviation direct_step := (direct_step alpha3_of_numeric impact_year_set).
Local Abbreviation calc_sector_direct_impact :=
  (calc_sector_direct_impact alpha3_of_numeric impact_year_set).
Local Abbreviation country_impact := (country_impact impact_year_set).
Local Abbreviation contribution := (contribution impact_year_set).
Local Abbreviation booked_at := (booked_at alpha3_of_numeric).
Local Abbreviation accumulated := (accumulated alpha3_of_numeric impact_year_set).
Local Abbreviation calc_indirect_impact := (calc_indirect_impact linalg_inv).

(** ** Loops *)

Lemma for_enumerate_from_total {A St : Type} (P : nat -> St -> Prop)
    (l : list A) (body : nat -> A -> St -> res St) (i0 : nat) (st : St) :
  P i0 st ->
  (forall i x s, l !! i = Some x -> P (i0 + i) s ->
                 exists s', body (i0 + i) x s = Ok s' /\ P (S (i0 + i)) s') ->
  exists st', for_enumerate_from i0 l body st = Ok st' /\ P (i0 + length l) st'.
Proof.
  revert i0 st. induction l as [|x l IH]; intros i0 st HP Hstep; simpl.
  - exists st. by rewrite Nat.add_0_r.
  - destruct (Hstep 0 x st) as (s' & Hb & HP'); [done | by rewrite Nat.add_0_r |].
    rewrite Nat.add_0_r in Hb, HP'. rewrite Hb. simpl.
    destruct (IH (S i0) s' HP') as (st' & Hl & HQ).
    + intros i y s Hy Hs. specialize (Hstep (S i) y s Hy).
      replace (i0 + S i) with (S i0 + i) in Hstep by lia. by apply Hstep.
    + exists st'. split; [done|]. by replace (i0 + S (length l)) with (S i0 + length l) by lia.
Qed.

Lemma for_enumerate_from_partial {A St : Type} (P : nat -> St -> Prop)
    (l : list A) (body : nat -> A -> St -> res St) (i0 : nat) (st st' : St) :
  for_enumerate_from i0 l body st = Ok st' ->
  P i0 st ->
  (forall i x s s', l !! i = Some x -> body (i0 + i) x s = Ok s' ->
                    P (i0 + i) s -> P (S (i0 + i)) s') ->
  P (i0 + length l) st'.
Proof.
  revert i0 st. induction l as [|x l IH]; intros i0 st Hrun HP Hstep; simpl in *.
  - rewrite Nat.add_0_r. by simplify_eq.
  - destruct (body i0 x st) as [s|e] eqn:Hb; simpl in Hrun; [|done].
    replace (i0 + S (length l)) with (S i0 + length l) by lia.
    apply (IH (S i0) s); [done | |].
    + specialize (Hstep 0 x st s eq_refl). rewrite Nat.add_0_r in Hstep.
      by apply Hstep.
    + intros i y t t' Hy Hb' Ht. specialize (Hstep (S i) y t t' Hy).
      replace (i0 + S i) with (S i0 + i) in Hstep by lia. by apply Hstep.
Qed.

Lemma loop_enumerate_from_inv {A St : Type} (P : nat -> St -> Prop)
    (l : list A) (body : nat -> A -> St -> St) (i0 : nat) (st : St) :
  P i0 st ->
  (forall i x s, l !! i = Some x -> P (i0 + i) s -> P (S (i0 + i)) (body (i0 + i) x s)) ->
  P (i0 + length l) (loop_enumerate_from i0 l body st).
Proof.
  revert i0 st. induction l as [|x l IH]; intros i0 st HP Hstep; simpl.
  - by rewrite Nat.add_0_r.
  - replace (i0 + S (length l)) with (S i0 + length l) by lia.
    apply IH.
    + specialize (Hstep 0 x st eq_refl). rewrite Nat.add_0_r in Hstep.
      by apply Hstep.
    + intros i y s Hy. specialize (Hstep (S i) y s Hy).
      replace (i0 + S i) with (S i0 + i) in Hstep by lia. by apply Hstep.
Qed.

(** ** The country index *)

Lemma unique_from_spec {A : Type} `{EqDecision A} (seen l : list A) :
  NoDup (unique_from seen l) /\
  (forall x, x ∈ unique_from seen l -> (x ∉ seen) /\ (x ∈ l)).
Proof.
  revert seen. induction l as [|x l IH]; intros seen; simpl.
  - split; [constructor | intros x Hx; by apply elem_of_nil in Hx].
  - destruct (decide (x ∈ seen)) as [Hin|Hin].
    + destruct (IH seen) as [Hnd Hel]. split; [done|].
      intros y Hy. destruct (Hel y Hy). split; [done | by right].
    + destruct (IH (x :: seen)) as [Hnd Hel]. split.
      * constructor; [|done]. intros Hx. destruct (Hel x Hx) as [Hns _].
        apply Hns. by left.
      * intros y Hy. apply elem_of_cons in Hy as [->|Hy]; [split; [done | by left]|].
        destruct (Hel y Hy) as [Hns Hyl]. split; [|by right].
        intros Hys. apply Hns. by right.
Qed.

Lemma unique_NoDup {A : Type} `{EqDecision A} (l : list A) : NoDup (unique l).
Proof. apply unique_from_spec. Qed.

Lemma cntry_pos_of_lookup (n : nat) (countries : list string) (i : nat) (iso3 : string) :
  NoDup countries ->
  countries !! i = Some iso3 ->
  cntry_pos_of n countries !! iso3 = Some (Range (n * i) (n * (i + 1))).
Proof.
  intros Hnd Hi. unfold cntry_pos_of, loop_enumerate.
  pose (P := fun (k : nat) (d : gmap string range) =>
               forall j c, j < k -> countries !! j = Some c ->
                           d !! c = Some (Range (n * j) (n * (j + 1)))).
  assert (P (0 + length countries)
            (loop_enumerate_from 0 countries
               (fun i iso3 d => <[iso3 := Range (n * i) (n * (i + 1))]> d) ∅)) as HP.
  { apply loop_enumerate_from_inv.
    - intros j c Hj. lia.
    - intros k x d Hx HPk j c Hj Hc. simpl in *.
      destruct (decide (j = k)) as [->|Hne].
      + rewrite Hx in Hc. simplify_eq. by rewrite lookup_insert_eq.
      + assert (x <> c) as Hxc.
        { intros ->. apply Hne. by eapply NoDup_lookup. }
        rewrite lookup_insert_ne; [|done]. apply HPk; [lia | done]. }
  apply HP; [|done]. simpl. by eapply lookup_lt_Some.
Qed.

Lemma concat_blocks (n k i0 : nat) :
  concat (fmap (fun i => seq (n * i) n) (seq i0 k)) = seq (n * i0) (n * k).
Proof.
  revert i0. induction k as [|k IH]; intros i0; simpl.
  - by rewrite Nat.mul_0_r.
  - rewrite IH. replace (n * S k) with (n + n * k) by lia.
    rewrite seq_app. do 2 f_equal. lia.
Qed.

(** C9 (read_wiod): country [i] of the table is mapped to the range
    [sector_count * i, sector_count * (i + 1)), and for a table with
    [sector_count * len(countries)] rows these ranges, taken in country
    order, enumerate the rows [0, rows) once each, in order: no gap and
    no overlap. *)
Theorem cntry_pos_partition (w : wiot) (self : SupplyChain) :
  Np.nrows (wiot_data w) = length (wiot_sectors w) * length (unique (wiot_iso3 w)) ->
  let sc := read_wiod w self in
  let n := length (sectors sc) in
  (forall i iso3, countries_iso3 sc !! i = Some iso3 ->
     cntry_pos sc !! iso3 = Some (Range (n * i) (n * (i + 1)))) /\
  concat (fmap (fun iso3 => default [] (range_list <$> cntry_pos sc !! iso3))
              (countries_iso3 sc))
    = seq 0 (Np.nrows (mriot_data sc)).
Proof.
  intros Hrows sc n. subst sc n. simpl.
  set (n := length (wiot_sectors w)). set (cs := unique (wiot_iso3 w)).
  assert (NoDup cs) as Hnd by apply unique_NoDup.
  split; [intros i iso3 Hi; by apply cntry_pos_of_lookup|].
  rewrite Hrows. fold n cs.
  transitivity (concat (fmap (fun i => seq (n * i) n) (seq 0 (length cs)))).
  - f_equal. apply list_eq. intros i. rewrite !list_lookup_fmap.
    destruct (cs !! i) as [c|] eqn:Hc; simpl.
    + rewrite lookup_seq_lt; [|by eapply lookup_lt_Some]. simpl.
      rewrite (cntry_pos_of_lookup n cs i c Hnd Hc). simpl.
      unfold range_list. simpl. do 2 f_equal. lia.
    + rewrite lookup_seq_ge; [done|]. by apply lookup_ge_None.
  - rewrite concat_blocks. f_equal. lia.
Qed.

(** ** Floating-point facts *)

Lemma le0_not_pos (x : float) :
  PrimFloat.leb x PrimFloat.zero = true -> PrimFloat.ltb PrimFloat.zero x = false.
Proof.
  rewrite FloatAxioms.leb_spec, FloatAxioms.ltb_spec. change (Prim2SF PrimFloat.zero) with (S754_zero false).
  destruct (Prim2SF x) as [s|s| |s m e]; try destruct s; cbn; congruence.
Qed.

Lemma cast_zero (dt : Np.dtype) : Np.cast dt PrimFloat.zero = PrimFloat.zero.
Proof. destruct dt; reflexivity. Qed.

(** ** The direct intensity *)

Lemma direct_intensity_of_lookup (diy tp : Np.vec) (idx : nat) (impact production : float) :
  diy !! idx = Some impact ->
  tp !! idx = Some production ->
  direct_intensity_of diy tp !! idx = Some (intensity impact production).
Proof.
  intros Hi Hp. unfold direct_intensity_of, loop_enumerate.
  pose (P := fun (k : nat) (di : Np.vec) =>
               length di = length diy /\
               forall j a b, j < k -> zip diy tp !! j = Some (a, b) ->
                             di !! j = Some (intensity a b)).
  match goal with |- ?l !! _ = _ => assert (P (0 + length (zip diy tp)) l) as [_ HP] end.
  { apply loop_enumerate_from_inv.
    - split; [unfold Np.zeros; by rewrite length_replicate | intros; lia].
    - intros k [a b] di Hk [Hlen HP]. simpl in *.
      assert (k < length di) as Hkl.
      { rewrite Hlen. apply lookup_zip_Some in Hk as [Hk _]. by eapply lookup_lt_Some. }
      split.
      + destruct (PrimFloat.ltb PrimFloat.zero b); by rewrite length_insert.
      + intros j a' b' Hj Hz. destruct (decide (j = k)) as [->|Hne].
        * rewrite Hk in Hz. simplify_eq. unfold intensity.
          destruct (PrimFloat.ltb PrimFloat.zero b'); by rewrite list_lookup_insert_eq.
        * destruct (PrimFloat.ltb PrimFloat.zero b);
            (rewrite list_lookup_insert_ne; [|done]); apply HP; (lia || done). }
  apply HP.
  - simpl. apply (lookup_lt_Some _ _ (impact, production)). by apply lookup_zip_Some.
  - by apply lookup_zip_Some.
Qed.

(** C4 (calc_indirect_impact, the intensity loop): for the year's row of
    the direct-impact matrix, the direct intensity of a row is
    [direct_impact[year, row] / total_production[row]] when
    [total_production[row] > 0] and 0 otherwise; in particular it is 0
    wherever the total production is [<= 0], whatever the direct impact. *)
Theorem direct_intensity_per_row (self : SupplyChain) (d : Np.array2)
    (year_i row : nat) (direct_impact_yearly : Np.vec) (impact production : float) :
  Np.rows d !! year_i = Some direct_impact_yearly ->
  direct_impact_yearly !! row = Some impact ->
  total_prod self !! row = Some production ->
  let direct_intensity := direct_intensity_of direct_impact_yearly (total_prod self) in
  direct_intensity !! row
    = Some (if PrimFloat.ltb PrimFloat.zero production
            then PrimFloat.div impact production else PrimFloat.zero) /\
  (PrimFloat.leb production PrimFloat.zero = true ->
   direct_intensity !! row = Some PrimFloat.zero).
Proof.
  intros _ Hi Hp di. subst di.
  rewrite (direct_intensity_of_lookup _ _ _ _ _ Hi Hp). unfold intensity.
  split; [done|]. intros Hle. by rewrite (le0_not_pos _ Hle).
Qed.

(** ** Slice assignments *)

Lemma assign_same (dt : Np.dtype) (n : nat) (v : Np.vec) :
  length v = n -> Np.assign dt n v = Ok (Np.cast dt <$> v).
Proof. intros <-. unfold Np.assign. by rewrite Nat.eqb_refl. Qed.

Lemma assign_scalar (dt : Np.dtype) (n : nat) (x : float) :
  Np.assign dt n [x] = Ok (replicate n (Np.cast dt x)).
Proof.
  unfold Np.assign, Np.stretch. change (length [x]) with 1.
  destruct (1 =? n) eqn:Hn.
  - apply Nat.eqb_eq in Hn as <-. done.
  - simpl. by rewrite fmap_replicate.
Qed.

Lemma set_col_ok (a : Np.array2) (j : nat) (v : Np.vec) :
  j < Np.ncols a -> length v = Np.nrows a ->
  Np.set_col j v a
    = Ok (Np.Array2 (Np.dtype2 a) (Np.ncols a)
            (imap (fun i r => <[j := Np.cast (Np.dtype2 a) (v !!! i)]> r) (Np.rows a))).
Proof.
  intros Hj Hv. unfold Np.set_col.
  apply Nat.ltb_lt in Hj as ->. rewrite (assign_same _ _ _ Hv). simpl.
  do 2 f_equal. apply imap_ext. intros i r Hr. f_equal.
  apply list_lookup_total_fmap. rewrite Hv. by eapply lookup_lt_Some.
Qed.

Lemma set_col_scalar_ok (a : Np.array2) (j : nat) (x : float) :
  j < Np.ncols a ->
  Np.set_col j [x] a
    = Ok (Np.Array2 (Np.dtype2 a) (Np.ncols a)
            (imap (fun i r => <[j := Np.cast (Np.dtype2 a) x]> r) (Np.rows a))).
Proof.
  intros Hj. unfold Np.set_col.
  apply Nat.ltb_lt in Hj as ->. rewrite assign_scalar. simpl.
  do 2 f_equal. apply imap_ext. intros i r Hr. f_equal.
  apply lookup_total_replicate_2. by eapply lookup_lt_Some.
Qed.

Lemma set_row_ok (a : Np.array2) (i : nat) (v : Np.vec) :
  i < Np.nrows a -> length v = Np.ncols a ->
  Np.set_row i v a
    = Ok (Np.Array2 (Np.dtype2 a) (Np.ncols a)
            (<[i := Np.cast (Np.dtype2 a) <$> v]> (Np.rows a))).
Proof.
  intros Hi Hv. unfold Np.set_row.
  apply Nat.ltb_lt in Hi as ->. by rewrite (assign_same _ _ _ Hv).
Qed.

Lemma set_row_scalar_ok (a : Np.array2) (i : nat) (x : float) :
  i < Np.nrows a ->
  Np.set_row i [x] a
    = Ok (Np.Array2 (Np.dtype2 a) (Np.ncols a)
            (<[i := replicate (Np.ncols a) (Np.cast (Np.dtype2 a) x)]> (Np.rows a))).
Proof.
  intros Hi. unfold Np.set_row.
  apply Nat.ltb_lt in Hi as ->. by rewrite assign_scalar.
Qed.

Lemma get2_put_col (dt : Np.dtype) (c : nat) (rs : list Np.vec) (f : nat -> float)
    (j i j' : nat) :
  i < length rs -> j < length (rs !!! i) ->
  Np.get2 (Np.Array2 dt c (imap (fun i r => <[j := f i]> r) rs)) i j'
    = if decide (j' = j) then f i else Np.get2 (Np.Array2 dt c rs) i j'.
Proof.
  intros Hi Hj. unfold Np.get2. simpl.
  rewrite (list_lookup_total_correct _ i (<[j := f i]> (rs !!! i))).
  2:{ by rewrite list_lookup_imap, (list_lookup_lookup_total_lt rs i Hi). }
  destruct (decide (j' = j)) as [->|Hne].
  - by rewrite list_lookup_total_insert_eq.
  - by rewrite list_lookup_total_insert_ne.
Qed.

Lemma well_shaped_put_col (dt : Np.dtype) (c : nat) (rs : list Np.vec)
    (f : nat -> float) (j : nat) :
  well_shaped (Np.Array2 dt c rs) ->
  well_shaped (Np.Array2 dt c (imap (fun i r => <[j := f i]> r) rs)).
Proof.
  unfold well_shaped. simpl. intros H. apply Forall_lookup_2. intros i r Hr.
  apply list_lookup_imap_Some in Hr as (r0 & Hr0 & ->).
  rewrite length_insert. by eapply (Forall_lookup_1 _ _ _ _ H).
Qed.

Lemma well_shaped_lookup (a : Np.array2) (i : nat) :
  well_shaped a -> i < Np.nrows a -> length (Np.rows a !!! i) = Np.ncols a.
Proof.
  intros H Hi. eapply (Forall_lookup_1 _ _ i _ H).
  by apply list_lookup_lookup_total_lt.
Qed.

Lemma well_shaped_zeros2 (dt : Np.dtype) (r c : nat) : well_shaped (Np.zeros2 dt r c).
Proof.
  apply Forall_lookup_2. intros i x Hx. simpl in *.
  apply lookup_replicate in Hx as [-> _]. unfold Np.zeros. by rewrite length_replicate.
Qed.

Lemma T_rows_lookup (a : Np.array2) (j : nat) :
  j < Np.ncols a -> Np.rows (Np.T a) !! j = Some (Np.column a j).
Proof.
  intros Hj. simpl. rewrite list_lookup_fmap, lookup_seq_lt; [done | done].
Qed.

Lemma column_lookup_total (a : Np.array2) (i j : nat) :
  i < Np.nrows a -> Np.column a j !!! i = Np.get2 a i j.
Proof.
  intros Hi. unfold Np.column, Np.get2.
  by apply (list_lookup_total_fmap (fun r : Np.vec => r !!! j)).
Qed.

Lemma length_column (a : Np.array2) (j : nat) : length (Np.column a j) = Np.nrows a.
Proof. unfold Np.column. by rewrite length_fmap. Qed.

Lemma get2_put_row (dt : Np.dtype) (c : nat) (rs : list Np.vec) (v : Np.vec)
    (k i j : nat) :
  k < length rs ->
  Np.get2 (Np.Array2 dt c (<[k := v]> rs)) i j
    = if decide (i = k) then v !!! j else Np.get2 (Np.Array2 dt c rs) i j.
Proof.
  intros Hk. unfold Np.get2. simpl. destruct (decide (i = k)) as [->|Hne].
  - by rewrite list_lookup_total_insert_eq.
  - by rewrite list_lookup_total_insert_ne.
Qed.

Lemma well_shaped_put_row (dt : Np.dtype) (c : nat) (rs : list Np.vec)
    (v : Np.vec) (k : nat) :
  length v = c ->
  well_shaped (Np.Array2 dt c rs) ->
  well_shaped (Np.Array2 dt c (<[k := v]> rs)).
Proof.
  unfold well_shaped. simpl. intros Hv H. apply Forall_insert; done.
Qed.

(** ** The coefficient matrix *)

Lemma coefficient_guard (flow production : float) :
  PrimFloat.leb production PrimFloat.zero = true ->
  coefficient flow production = PrimFloat.zero.
Proof. intros H. unfold coefficient. by rewrite (le0_not_pos _ H). Qed.

Lemma coefficients_shape_zeros (m : Np.array2) :
  coefficients_shape m (Np.zeros_like Np.float32 m).
Proof.
  unfold coefficients_shape, Np.zeros_like, Np.nrows. simpl.
  split; [done|]. split; [done|].
  split; [by rewrite length_replicate | apply well_shaped_zeros2].
Qed.

Lemma coefficients_of_columns (io : string) (self : SupplyChain) :
  valid_mriot self ->
  io ∈ ["leontief"; "eeioa"] ->
  exists c, coefficients_of io self = Ok c /\
    coefficients_shape (mriot_data self) c /\
    forall i j, i < Np.nrows (mriot_data self) -> j < Np.ncols (mriot_data self) ->
      Np.get2 c i j = coefficient (Np.get2 (mriot_data self) i j) (total_prod self !!! j).
Proof.
  intros (Hws & Hsq & Htp) Hio. unfold coefficients_of.
  rewrite bool_decide_true by done.
  set (m := mriot_data self) in *. set (tp := total_prod self) in *.
  pose (P := fun (k : nat) (c : Np.array2) =>
               coefficients_shape m c /\
               forall i j, i < Np.nrows m -> j < k ->
                 Np.get2 c i j = coefficient (Np.get2 m i j) (tp !!! j)).
  destruct (for_enumerate_from_total P (Np.rows (Np.T m))
              (fun col_i col coefficients =>
                 p ← getitem tp col_i;
                 if PrimFloat.ltb PrimFloat.zero p then
                   Np.set_col col_i ((fun x => PrimFloat.div x p) <$> col) coefficients
                 else Np.set_col col_i [PrimFloat.zero] coefficients)
              0 (Np.zeros_like Np.float32 m)) as (c & Hc & Hsh & Hval).
  - split; [apply coefficients_shape_zeros | intros; lia].
  - intros k col c Hcol [(Hdt & Hnc & Hnr & Hwsc) Hval]. simpl in *.
    assert (k < Np.ncols m) as Hk.
    { apply lookup_lt_Some in Hcol. by rewrite length_fmap, length_seq in Hcol. }
    rewrite list_lookup_fmap, lookup_seq_lt in Hcol by done. simpl in Hcol.
    simplify_eq.
    unfold getitem. rewrite (list_lookup_lookup_total_lt tp k) by lia. simpl.
    destruct c as [dt nc rs]. simpl in *. subst dt nc.
    assert (length rs = Np.nrows m) as Hlen by exact Hnr.
    destruct (PrimFloat.ltb PrimFloat.zero (tp !!! k)) eqn:Hpos.
    + rewrite set_col_ok; simpl; [| done | by rewrite length_fmap, length_column].
      eexists. split; [done|]. split.
      * unfold coefficients_shape, Np.nrows in *. simpl in *. rewrite length_imap.
        repeat split; try done. by apply well_shaped_put_col.
      * intros i j Hi Hj. rewrite get2_put_col; [| lia |].
        2:{ rewrite (well_shaped_lookup (Np.Array2 Np.float32 (Np.ncols m) rs));
              simpl; [done | done | lia]. }
        destruct (decide (j = k)) as [->|Hne]; [|apply Hval; lia].
        unfold coefficient. rewrite Hpos.
        rewrite (list_lookup_total_fmap (fun x => PrimFloat.div x (tp !!! k)))
          by (rewrite length_column; lia).
        by rewrite column_lookup_total by lia.
    + rewrite set_col_scalar_ok by done. simpl.
      eexists. split; [done|]. split.
      * unfold coefficients_shape, Np.nrows in *. simpl in *. rewrite length_imap.
        repeat split; try done. by apply well_shaped_put_col.
      * intros i j Hi Hj. rewrite get2_put_col; [| lia |].
        2:{ rewrite (well_shaped_lookup (Np.Array2 Np.float32 (Np.ncols m) rs));
              simpl; [done | done | lia]. }
        destruct (decide (j = k)) as [->|Hne]; [|apply Hval; lia].
        unfold coefficient. by rewrite Hpos.
  - exists c. split; [done|]. split; [done|].
    intros i j Hi Hj. apply Hval; [done|]. simpl. by rewrite length_fmap, length_seq.
Qed.

Lemma coefficients_of_rows (io : string) (self : SupplyChain) :
  valid_mriot self ->
  io ∉ ["leontief"; "eeioa"] ->
  exists c, coefficients_of io self = Ok c /\
    coefficients_shape (mriot_data self) c /\
    forall i j, i < Np.nrows (mriot_data self) -> j < Np.ncols (mriot_data self) ->
      Np.get2 c i j = coefficient (Np.get2 (mriot_data self) i j) (total_prod self !!! i).
Proof.
  intros (Hws & Hsq & Htp) Hio. unfold coefficients_of.
  rewrite bool_decide_false by done.
  set (m := mriot_data self) in *. set (tp := total_prod self) in *.
  pose (P := fun (k : nat) (c : Np.array2) =>
               coefficients_shape m c /\
               forall i j, i < k -> j < Np.ncols m ->
                 Np.get2 c i j = coefficient (Np.get2 m i j) (tp !!! i)).
  destruct (for_enumerate_from_total P (Np.rows m)
              (fun row_i row coefficients =>
                 p ← getitem tp row_i;
                 if PrimFloat.ltb PrimFloat.zero p then
                   Np.set_row row_i ((fun x => PrimFloat.div x p) <$> row) coefficients
                 else Np.set_row row_i [PrimFloat.zero] coefficients)
              0 (Np.zeros_like Np.float32 m)) as (c & Hc & Hsh & Hval).
  - split; [apply coefficients_shape_zeros | intros; lia].
  - intros k row c Hrow [(Hdt & Hnc & Hnr & Hwsc) Hval]. simpl in *.
    assert (k < Np.nrows m) as Hk by (by eapply lookup_lt_Some).
    assert (length row = Np.ncols m) as Hrl by (by eapply (Forall_lookup_1 _ _ _ _ Hws)).
    unfold getitem. rewrite (list_lookup_lookup_total_lt tp k) by lia. simpl.
    destruct c as [dt nc rs]. simpl in *. subst dt nc.
    assert (length rs = Np.nrows m) as Hlen by exact Hnr.
    destruct (PrimFloat.ltb PrimFloat.zero (tp !!! k)) eqn:Hpos.
    + rewrite set_row_ok; simpl; [| exact (eq_ind_r (fun n => k < n) Hk Hnr)
                                  | by rewrite length_fmap].
      eexists. split; [done|]. split.
      * unfold coefficients_shape, Np.nrows in *. simpl in *. rewrite length_insert.
        repeat split; try done.
        apply well_shaped_put_row; [by rewrite !length_fmap | done].
      * intros i j Hi Hj. rewrite get2_put_row by lia.
        destruct (decide (i = k)) as [->|Hne]; [|apply Hval; lia].
        unfold coefficient. rewrite Hpos.
        rewrite (list_lookup_total_fmap (Np.cast Np.float32))
          by (rewrite length_fmap; lia).
        rewrite (list_lookup_total_fmap (fun x => PrimFloat.div x (tp !!! k))) by lia.
        unfold Np.get2. by rewrite (list_lookup_total_correct _ _ _ Hrow).
    + rewrite set_row_scalar_ok; simpl; [| exact (eq_ind_r (fun n => k < n) Hk Hnr)].
      eexists. split; [done|]. split.
      * unfold coefficients_shape, Np.nrows in *. simpl in *. rewrite length_insert.
        repeat split; try done.
        apply well_shaped_put_row; [by rewrite length_replicate | done].
      * intros i j Hi Hj. rewrite get2_put_row by lia.
        destruct (decide (i = k)) as [->|Hne]; [|apply Hval; lia].
        unfold coefficient. rewrite Hpos.
        by rewrite lookup_total_replicate_2 by done.
  - exists c. split; [done|]. split; [done|].
    intros i j Hi Hj. by apply Hval.
Qed.

(** C1 (calc_indirect_impact, the coefficient loops): on a square table
    with one total production per row, the coefficient matrix is built.
    For 'leontief' and 'eeioa' its entry (i, j) is the flow (i, j) divided
    by [total_production[j]] (column-normalised); for 'ghosh' it is the
    flow divided by [total_production[i]] (row-normalised); the quotient
    is stored in the [float32] matrix.  In both orientations the entry is
    exactly zero when that total production is [<= 0]. *)
Theorem coefficients_normalized (io : string) (self : SupplyChain) :
  valid_mriot self ->
  exists c, coefficients_of io self = Ok c /\
    forall i j, i < Np.nrows (mriot_data self) -> j < Np.ncols (mriot_data self) ->
      let flow := Np.get2 (mriot_data self) i j in
      (io ∈ ["leontief"; "eeioa"] ->
         let production := total_prod self !!! j in
         Np.get2 c i j
           = (if PrimFloat.ltb PrimFloat.zero production
              then Np.cast Np.float32 (PrimFloat.div flow production)
              else PrimFloat.zero) /\
         (PrimFloat.leb production PrimFloat.zero = true ->
          Np.get2 c i j = PrimFloat.zero)) /\
      (io = "ghosh" ->
         let production := total_prod self !!! i in
         Np.get2 c i j
           = (if PrimFloat.ltb PrimFloat.zero production
              then Np.cast Np.float32 (PrimFloat.div flow production)
              else PrimFloat.zero) /\
         (PrimFloat.leb production PrimFloat.zero = true ->
          Np.get2 c i j = PrimFloat.zero)).
Proof.
  intros Hv. destruct (decide (io ∈ ["leontief"; "eeioa"])) as [Hio|Hio].
  - destruct (coefficients_of_columns io self Hv Hio) as (c & Hc & _ & Hval).
    exists c. split; [done|]. intros i j Hi Hj flow. subst flow. split.
    + intros _ production. subst production. rewrite (Hval i j Hi Hj).
      split; [done|]. apply coefficient_guard.
    + intros ->. exfalso. revert Hio. rewrite !elem_of_cons, elem_of_nil.
      by intros [?|[?|[]]].
  - destruct (coefficients_of_rows io self Hv Hio) as (c & Hc & _ & Hval).
    exists c. split; [done|]. intros i j Hi Hj flow. subst flow. split; [done|].
    intros _ production. subst production. rewrite (Hval i j Hi Hj).
    split; [done|]. apply coefficient_guard.
Qed.

(** ** Element-wise operations and 3-d slices *)

Lemma bdim_same (n : nat) : Np.bdim n n = Ok n.
Proof. unfold Np.bdim. by rewrite Nat.eqb_refl. Qed.

Lemma stretch_same {A : Type} (n : nat) (l : list A) : length l = n -> Np.stretch n l = l.
Proof. intros <-. unfold Np.stretch. by rewrite Nat.eqb_refl. Qed.

Lemma binop1_same (f : float -> float -> float) (x y : Np.vec) :
  length x = length y -> Np.binop1 f x y = Ok (zip_with f x y).
Proof.
  intros H. unfold Np.binop1. rewrite <- H, bdim_same. simpl.
  by rewrite !stretch_same.
Qed.

Lemma zip_with_lookup_total {A B C : Type} `{Inhabited A, Inhabited B, Inhabited C}
    (f : A -> B -> C) (x : list A) (y : list B) (i : nat) :
  i < length x -> i < length y -> zip_with f x y !!! i = f (x !!! i) (y !!! i).
Proof.
  intros Hx Hy. apply list_lookup_total_correct. rewrite lookup_zip_with.
  rewrite (list_lookup_lookup_total_lt x i Hx). simpl.
  by rewrite (list_lookup_lookup_total_lt y i Hy).
Qed.

Lemma binop2_same (f : float -> float -> float) (a b : Np.array2) :
  Np.nrows a = Np.nrows b -> Np.ncols a = Np.ncols b ->
  well_shaped a -> well_shaped b ->
  exists t, Np.binop2 f a b = Ok t /\
    Np.dtype2 t = Np.promote (Np.dtype2 a) (Np.dtype2 b) /\
    Np.nrows t = Np.nrows a /\ Np.ncols t = Np.ncols a /\
    forall i j, i < Np.nrows a -> j < Np.ncols a ->
      Np.get2 t i j = Np.cast (Np.dtype2 t) (f (Np.get2 a i j) (Np.get2 b i j)).
Proof.
  intros Hr Hc Hwa Hwb. unfold Np.binop2. rewrite <- Hr, <- Hc, !bdim_same. simpl.
  rewrite !stretch_same by done.
  eexists. split; [done|]. simpl. split; [done|].
  split; [unfold Np.nrows in *; simpl; rewrite length_zip_with; lia|].
  split; [done|]. intros i j Hi Hj. unfold Np.get2. simpl.
  unfold Np.nrows in *.
  rewrite zip_with_lookup_total by lia.
  pose proof (well_shaped_lookup a i Hwa Hi) as Hla.
  pose proof (well_shaped_lookup b i Hwb ltac:(unfold Np.nrows; lia)) as Hlb.
  rewrite !stretch_same by lia.
  by rewrite zip_with_lookup_total by lia.
Qed.

Lemma set_slice3_ok (a : Np.array3) (j k : nat) (v : Np.vec) :
  j < Np.dim2 a -> k < Np.dim3 a -> length v = length (Np.planes a) ->
  Np.set_slice3 j k v a
    = Ok (Np.Array3 (Np.dtype3 a) (Np.dim2 a) (Np.dim3 a)
            (imap (fun i p => alter (<[k := Np.cast (Np.dtype3 a) (v !!! i)]>) j p)
                  (Np.planes a))).
Proof.
  intros Hj Hk Hv. unfold Np.set_slice3.
  apply Nat.ltb_lt in Hj as ->. apply Nat.ltb_lt in Hk as ->. simpl.
  rewrite (assign_same _ _ _ Hv). simpl. do 2 f_equal.
  apply imap_ext. intros i p Hp. do 2 f_equal.
  apply list_lookup_total_fmap. rewrite Hv. by eapply lookup_lt_Some.
Qed.

Lemma get3_put_slice (dt : Np.dtype) (d2 d3 : nat) (ps : list (list Np.vec))
    (f : nat -> float) (j k i j' k' : nat) :
  well_shaped3 (Np.Array3 dt d2 d3 ps) ->
  i < length ps -> j < d2 -> k < d3 ->
  Np.get3 (Np.Array3 dt d2 d3 (imap (fun i p => alter (<[k := f i]>) j p) ps)) i j' k'
    = if decide (j' = j /\ k' = k) then f i
      else Np.get3 (Np.Array3 dt d2 d3 ps) i j' k'.
Proof.
  intros Hws Hi Hj Hk. unfold Np.get3. simpl.
  pose proof (list_lookup_lookup_total_lt ps i Hi) as Hp.
  destruct (Forall_lookup_1 _ _ _ _ Hws Hp) as [Hpl Hcells]. simpl in *.
  rewrite (list_lookup_total_correct _ i (alter (<[k := f i]>) j (ps !!! i))).
  2:{ by rewrite list_lookup_imap, Hp. }
  destruct (decide (j' = j)) as [->|Hne].
  - assert (j < length (ps !!! i)) as Hjl by lia.
    pose proof (list_lookup_lookup_total_lt _ j Hjl) as Hc.
    rewrite (list_lookup_total_correct _ j (<[k := f i]> ((ps !!! i) !!! j))).
    2:{ by rewrite list_lookup_alter_eq, Hc. }
    pose proof (Forall_lookup_1 _ _ _ _ Hcells Hc) as Hcl. simpl in Hcl.
    destruct (decide (k' = k)) as [->|Hnk].
    + rewrite decide_True by done. rewrite list_lookup_total_insert_eq; [done | lia].
    + rewrite decide_False by (intros [_ ?]; done).
      by rewrite list_lookup_total_insert_ne.
  - rewrite decide_False by (intros [? _]; done).
    by rewrite list_lookup_total_alter_ne.
Qed.

Lemma well_shaped3_put_slice (dt : Np.dtype) (d2 d3 : nat) (ps : list (list Np.vec))
    (f : nat -> float) (j k : nat) :
  well_shaped3 (Np.Array3 dt d2 d3 ps) ->
  well_shaped3 (Np.Array3 dt d2 d3 (imap (fun i p => alter (<[k := f i]>) j p) ps)).
Proof.
  unfold well_shaped3. simpl. intros H. apply Forall_lookup_2. intros i p Hp.
  apply list_lookup_imap_Some in Hp as (p0 & Hp0 & ->).
  destruct (Forall_lookup_1 _ _ _ _ H Hp0) as [Hl Hc]. split.
  - by rewrite length_alter.
  - apply Forall_alter; [done|]. intros cell _ Hcell. by rewrite length_insert.
Qed.

Lemma same_shape3_refl (a : Np.array3) : same_shape3 a a.
Proof. by repeat split. Qed.

(** A loop that writes slice [[:, idx, year_i]] for every element of a
    list of vectors: on arrays of the right shape it succeeds and the
    slices of year [year_i] hold the (rounded) vectors; all else is kept. *)
Lemma slice_loop_total (L : list Np.vec)
    (body : nat -> Np.vec -> Np.array3 -> res Np.array3)
    (w : nat -> nat -> float) (rs : Np.array3) (year_i : nat) :
  well_shaped3 rs -> length L = Np.dim2 rs -> year_i < Np.dim3 rs ->
  (forall idx x rs0, L !! idx = Some x ->
     exists v, body idx x rs0 = Np.set_slice3 idx year_i v rs0 /\
               length v = length (Np.planes rs) /\
               forall i, i < length (Np.planes rs) -> v !!! i = w i idx) ->
  exists rs', for_enumerate L body rs = Ok rs' /\
    same_shape3 rs rs' /\ well_shaped3 rs' /\
    forall i j y, i < length (Np.planes rs) ->
      Np.get3 rs' i j y
        = if decide (j < length L /\ y = year_i) then Np.cast (Np.dtype3 rs) (w i j)
          else Np.get3 rs i j y.
Proof.
  intros Hws HL Hy Hbody. unfold for_enumerate.
  pose (P := fun (k : nat) (a : Np.array3) =>
               same_shape3 rs a /\ well_shaped3 a /\
               forall i j y, i < length (Np.planes rs) ->
                 Np.get3 a i j y
                   = if decide (j < k /\ y = year_i) then Np.cast (Np.dtype3 rs) (w i j)
                     else Np.get3 rs i j y).
  destruct (for_enumerate_from_total P L body 0 rs) as (rs' & Hrun & HP).
  - split; [apply same_shape3_refl|]. split; [done|].
    intros i j y Hi. rewrite decide_False; [done | intros [? _]; lia].
  - intros k x a Hx ((Hdt & Hd2 & Hd3 & Hlen) & Hwsa & Hval). simpl in *.
    destruct (Hbody k x a Hx) as (v & -> & Hv & Hvw).
    assert (k < length L) as Hk by (by eapply lookup_lt_Some).
    rewrite set_slice3_ok by lia.
    destruct a as [dt d2 d3 ps]. simpl in *. subst dt d2 d3.
    eexists. split; [done|]. split; [by repeat split; simpl; rewrite ?length_imap|].
    split; [by apply well_shaped3_put_slice|].
    intros i j y Hi. rewrite get3_put_slice by (done || lia).
    destruct (decide (j = k /\ y = year_i)) as [[-> ->]|Hne].
    + rewrite decide_True by (split; [lia | done]). by rewrite Hvw.
    + rewrite Hval by done.
      destruct (decide (j < k /\ y = year_i)) as [[Hj ->]|Hn2].
      * by rewrite decide_True by (split; [lia | done]).
      * rewrite decide_False; [done|]. intros [Hj ->]. apply Hn2.
        split; [|done]. destruct (decide (j = k)) as [->|]; [|lia].
        exfalso. by apply Hne.
  - exists rs'. by rewrite Nat.add_0_l in HP.
Qed.

(** ** Sums, NaN and the maximum *)

Lemma nansum_no_nan (dt : Np.dtype) (x : Np.vec) :
  Forall (fun v => PrimFloat.is_nan v = false) x -> Np.nansum dt x = Np.sum dt x.
Proof.
  intros H. unfold Np.nansum. f_equal.
  induction H as [|v x Hv _ IH]; [done|]. rewrite fmap_cons, IH.
  unfold Np.nan_to_zero. by rewrite Hv.
Qed.

Lemma neg_not_nan (x : float) :
  PrimFloat.ltb x PrimFloat.zero = true -> PrimFloat.is_nan x = false.
Proof.
  unfold PrimFloat.is_nan. rewrite FloatAxioms.ltb_spec, FloatAxioms.eqb_spec.
  change (Prim2SF PrimFloat.zero) with (S754_zero false).
  destruct (Prim2SF x) as [s|s| |s m e]; try destruct s; cbn; try congruence.
  intros _. by rewrite Z.compare_refl, Pos.compare_cont_refl.
Qed.

(** The product of a positive and a negative number is negative, or a zero
    when it underflows; it is never NaN. *)
Lemma shr_1_nonneg (mrs : shr_record) :
  (0 <= shr_m mrs)%Z -> (0 <= shr_m (shr_1 mrs))%Z.
Proof.
  destruct mrs as [m r s]. destruct m as [|p|p]; simpl; try lia;
    destruct p; simpl; lia.
Qed.

Lemma iter_pos_shr_1_nonneg (p : positive) (mrs : shr_record) :
  (0 <= shr_m mrs)%Z -> (0 <= shr_m (SpecFloat.iter_pos shr_1 p mrs))%Z.
Proof.
  revert mrs. induction p as [p IH|p IH|]; intros mrs H; simpl.
  - apply IH, IH. by apply shr_1_nonneg.
  - by apply IH, IH.
  - by apply shr_1_nonneg.
Qed.

Lemma shr_fexp_nonneg (prec emax m e : Z) (l : location) :
  (0 <= m)%Z -> (0 <= shr_m (shr_fexp prec emax m e l).1)%Z.
Proof.
  intros H. unfold shr_fexp, shr.
  assert (0 <= shr_m (shr_record_of_loc m l))%Z as H0.
  { destruct l as [|[]]; simpl; lia. }
  destruct (_ - e)%Z; simpl; try done. by apply iter_pos_shr_1_nonneg.
Qed.

Lemma round_nearest_even_nonneg (m : Z) (l : location) :
  (0 <= m)%Z -> (0 <= round_nearest_even m l)%Z.
Proof. intros H. destruct l as [|[]]; simpl; try lia. destruct (Z.even m); lia. Qed.

Lemma binary_round_aux_sign (prec emax : Z) (sx : bool) (mx ex : Z) (lx : location) :
  (0 <= mx)%Z ->
  let r := binary_round_aux prec emax sx mx ex lx in
  r = S754_zero sx \/ r = S754_infinity sx \/ exists m e, r = S754_finite sx m e.
Proof.
  intros H r. subst r. unfold binary_round_aux.
  pose proof (shr_fexp_nonneg prec emax mx ex lx H) as H1.
  destruct (shr_fexp prec emax mx ex lx) as [mrs' e']. simpl in H1.
  pose proof (shr_fexp_nonneg prec emax _ e' loc_Exact
                (round_nearest_even_nonneg _ (loc_of_shr_record mrs') H1)) as H2.
  destruct (shr_fexp prec emax _ e' loc_Exact) as [mrs'' e'']. simpl in H2.
  destruct (shr_m mrs'') as [|m|m]; [by left | | lia].
  destruct (e'' <=? emax - prec)%Z; [right; right; eauto | right; by left].
Qed.

Lemma SFcompare_refl_finite (s : bool) (m : positive) (e : Z) :
  SFcompare (S754_finite s m e) (S754_finite s m e) = Some Eq.
Proof.
  simpl. destruct s; rewrite Z.compare_refl, Pos.compare_cont_refl; done.
Qed.

Lemma mul_pos_neg_clamped (d v : float) :
  PrimFloat.ltb PrimFloat.zero d = true -> PrimFloat.ltb v PrimFloat.zero = true ->
  let x := PrimFloat.mul d v in
  PrimFloat.is_nan x = false /\
  (PrimFloat.ltb x PrimFloat.zero = true \/ PrimFloat.eqb x PrimFloat.zero = true).
Proof.
  intros Hd Hv x. subst x. unfold PrimFloat.is_nan.
  rewrite FloatAxioms.ltb_spec in Hd, Hv.
  rewrite FloatAxioms.ltb_spec, !FloatAxioms.eqb_spec, FloatAxioms.mul_spec.
  change (Prim2SF PrimFloat.zero) with (S754_zero false) in *.
  unfold SF64mul.
  destruct (Prim2SF d) as [sd|sd| |sd md ed]; try destruct sd; try discriminate Hd;
    destruct (Prim2SF v) as [sv|sv| |sv mv ev]; try destruct sv; try discriminate Hv;
    try (split; [reflexivity | left; reflexivity]).
  simpl SFmul.
  destruct (binary_round_aux_sign prec emax true (Z.pos (md * mv)) (ed + ev) loc_Exact)
    as [->|[->|(m & e & ->)]]; [lia | | |].
  - split; [reflexivity | right; reflexivity].
  - split; [reflexivity | left; reflexivity].
  - unfold SFeqb, SFltb. rewrite SFcompare_refl_finite. split; [reflexivity | left; reflexivity].
Qed.

Lemma maximum_clamps_pos_neg (d v : float) :
  PrimFloat.ltb PrimFloat.zero d = true -> PrimFloat.ltb v PrimFloat.zero = true ->
  PrimFloat.eqb (Np.maximum (PrimFloat.mul d v) PrimFloat.zero) PrimFloat.zero = true.
Proof.
  intros Hd Hv. destruct (mul_pos_neg_clamped d v Hd Hv) as [Hn Hx].
  unfold Np.maximum. rewrite Hn. change (PrimFloat.is_nan PrimFloat.zero) with false.
  cbv iota. destruct (PrimFloat.ltb (PrimFloat.mul d v) PrimFloat.zero) eqn:Hlt;
    [reflexivity|]. by destruct Hx.
Qed.

Lemma maximum_zero_of_neg (x : float) :
  PrimFloat.ltb x PrimFloat.zero = true -> Np.maximum x PrimFloat.zero = PrimFloat.zero.
Proof.
  intros H. unfold Np.maximum. rewrite (neg_not_nan _ H), H. reflexivity.
Qed.

Lemma maximum_zero_not_neg (x : float) :
  PrimFloat.ltb (Np.maximum x PrimFloat.zero) PrimFloat.zero = false.
Proof.
  unfold Np.maximum. destruct (PrimFloat.is_nan x) eqn:Hn.
  - destruct (PrimFloat.ltb x PrimFloat.zero) eqn:Hlt; [|done].
    by rewrite (neg_not_nan _ Hlt) in Hn.
  - change (PrimFloat.is_nan PrimFloat.zero) with false. cbv iota.
    by destruct (PrimFloat.ltb x PrimFloat.zero) eqn:Hlt.
Qed.

(** ** The Leontief and Ghosh rules *)

Lemma leontief_demand_ok (self : SupplyChain) :
  valid_mriot self ->
  leontief_demand self
    = Ok (zip_with PrimFloat.sub (total_prod self) (Np.nansum_axis1 (mriot_data self))).
Proof.
  intros (_ & _ & Htp). unfold leontief_demand. apply binop1_same.
  unfold Np.nansum_axis1. by rewrite length_fmap.
Qed.

Lemma length_T_rows (a : Np.array2) : length (Np.rows (Np.T a)) = Np.ncols a.
Proof. simpl. by rewrite length_fmap, length_seq. Qed.

Lemma ghosh_value_added_ok (self : SupplyChain) :
  valid_mriot self ->
  ghosh_value_added self
    = Ok (zip_with PrimFloat.sub (total_prod self) (Np.nansum_axis0 (mriot_data self))).
Proof.
  intros (_ & Hsq & Htp). unfold ghosh_value_added. apply binop1_same.
  unfold Np.nansum_axis0. rewrite length_fmap, length_T_rows. lia.
Qed.

Lemma nansum_axis1_lookup (a : Np.array2) (i : nat) :
  i < Np.nrows a ->
  Np.nansum_axis1 a !!! i = Np.nansum (Np.dtype2 a) (Np.rows a !!! i).
Proof.
  intros Hi. unfold Np.nansum_axis1.
  by apply (list_lookup_total_fmap (Np.nansum (Np.dtype2 a))).
Qed.

Lemma nansum_axis0_lookup (a : Np.array2) (j : nat) :
  j < Np.ncols a ->
  Np.nansum_axis0 a !!! j = Np.nansum (Np.dtype2 a) (Np.column a j).
Proof.
  intros Hj. unfold Np.nansum_axis0. apply list_lookup_total_correct.
  rewrite list_lookup_fmap, T_rows_lookup by done. done.
Qed.

Lemma leontief_calc_total (self : SupplyChain) (di : Np.vec) (inverse : Np.array2)
    (rs : Np.array3) (year_i : nat) :
  valid_propagation self di inverse rs year_i ->
  let m := mriot_data self in
  let demand := zip_with PrimFloat.sub (total_prod self) (Np.nansum_axis1 m) in
  exists rs', _leontief_calc self di inverse rs year_i = Ok rs' /\
    same_shape3 rs rs' /\ well_shaped3 rs' /\
    forall i j y, i < Np.nrows m ->
      Np.get3 rs' i j y
        = if decide (j < Np.nrows m /\ y = year_i)
          then Np.cast (Np.dtype3 rs)
                 (PrimFloat.mul (Np.get2 inverse j i)
                                (PrimFloat.mul (di !!! i) (demand !!! i)))
          else Np.get3 rs i j y.
Proof.
  intros (Hv & Hdi & Hwi & Hnri & Hnci & Hws & Hpl & Hd2 & Hy) m demand.
  pose proof Hv as (Hwm & Hsq & Htp). fold m in Hwm, Hsq, Htp, Hdi, Hnri, Hnci, Hpl, Hd2.
  unfold _leontief_calc. rewrite (leontief_demand_ok self Hv). simpl. fold m demand.
  assert (length demand = Np.nrows m) as Hdl.
  { unfold demand, Np.nansum_axis1. rewrite length_zip_with, length_fmap.
    unfold Np.nrows in *. lia. }
  rewrite binop1_same by lia. simpl.
  destruct (slice_loop_total (Np.rows inverse)
              (fun idx row risk_structure =>
                 v ← Np.binop1 PrimFloat.mul row (zip_with PrimFloat.mul di demand);
                 Np.set_slice3 idx year_i v risk_structure)
              (fun i idx => PrimFloat.mul (Np.get2 inverse idx i)
                              (PrimFloat.mul (di !!! i) (demand !!! i)))
              rs year_i) as (rs' & Hrun & Hsh & Hws' & Hval);
    [done | unfold Np.nrows in *; lia | done | |].
  - intros idx row rs0 Hrow.
    assert (length row = Np.nrows m) as Hrl.
    { rewrite <- Hnci. by eapply (Forall_lookup_1 _ _ _ _ Hwi). }
    exists (zip_with PrimFloat.mul row (zip_with PrimFloat.mul di demand)).
    assert (length (zip_with PrimFloat.mul di demand) = Np.nrows m) as Hzl
      by (rewrite length_zip_with; lia).
    split; [by rewrite binop1_same by lia|].
    split; [rewrite length_zip_with; lia|].
    intros i Hi. rewrite !zip_with_lookup_total by lia. f_equal.
    unfold Np.get2. by rewrite (list_lookup_total_correct _ _ _ Hrow).
  - exists rs'. split; [done|]. split; [done|]. split; [done|].
    intros i j y Hi. rewrite Hval by lia.
    replace (length (Np.rows inverse)) with (Np.nrows m) by done. done.
Qed.

Lemma ghosh_degr_value_added_ok (self : SupplyChain) (di : Np.vec) :
  valid_mriot self -> length di = Np.nrows (mriot_data self) ->
  let value_added :=
    zip_with PrimFloat.sub (total_prod self) (Np.nansum_axis0 (mriot_data self)) in
  ghosh_degr_value_added self di
    = Ok (zip_with Np.maximum (zip_with PrimFloat.mul di value_added)
                   (Np.zeros (length value_added))).
Proof.
  intros Hv Hdi va. pose proof Hv as (_ & Hsq & Htp).
  unfold ghosh_degr_value_added. rewrite (ghosh_value_added_ok self Hv). simpl. fold va.
  assert (length va = Np.nrows (mriot_data self)) as Hval.
  { unfold va, Np.nansum_axis0. rewrite length_zip_with, length_fmap, length_T_rows. lia. }
  rewrite binop1_same by lia. simpl. apply binop1_same.
  unfold Np.zeros. rewrite length_zip_with, length_replicate. lia.
Qed.

Lemma ghosh_calc_total (self : SupplyChain) (di : Np.vec) (inverse : Np.array2)
    (rs : Np.array3) (year_i : nat) :
  valid_propagation self di inverse rs year_i ->
  let m := mriot_data self in
  let value_added := zip_with PrimFloat.sub (total_prod self) (Np.nansum_axis0 m) in
  let degr := zip_with Np.maximum (zip_with PrimFloat.mul di value_added)
                       (Np.zeros (length value_added)) in
  exists rs', _ghosh_calc self di inverse rs year_i = Ok rs' /\
    same_shape3 rs rs' /\ well_shaped3 rs' /\
    forall i j y, i < Np.nrows m ->
      Np.get3 rs' i j y
        = if decide (j < Np.nrows m /\ y = year_i)
          then Np.cast (Np.dtype3 rs)
                 (PrimFloat.mul (degr !!! i) (Np.get2 inverse i j))
          else Np.get3 rs i j y.
Proof.
  intros (Hv & Hdi & Hwi & Hnri & Hnci & Hws & Hpl & Hd2 & Hy) m va degr.
  pose proof Hv as (Hwm & Hsq & Htp). fold m in Hwm, Hsq, Htp, Hdi, Hnri, Hnci, Hpl, Hd2.
  unfold _ghosh_calc. rewrite (ghosh_degr_value_added_ok self di Hv Hdi). simpl.
  fold m va degr.
  assert (length va = Np.nrows m) as Hval.
  { unfold va, Np.nansum_axis0. rewrite length_zip_with, length_fmap, length_T_rows. lia. }
  assert (length degr = Np.nrows m) as Hdl.
  { unfold degr, Np.zeros. rewrite !length_zip_with, length_replicate. lia. }
  destruct (slice_loop_total (Np.rows (Np.T inverse))
              (fun idx col risk_structure =>
                 v ← Np.binop1 PrimFloat.mul degr col;
                 Np.set_slice3 idx year_i v risk_structure)
              (fun i idx => PrimFloat.mul (degr !!! i) (Np.get2 inverse i idx))
              rs year_i) as (rs' & Hrun & Hsh & Hws' & Hvals);
    [done | rewrite length_T_rows; lia | done | |].
  - intros idx col rs0 Hcol.
    assert (idx < Np.ncols inverse) as Hidx.
    { apply lookup_lt_Some in Hcol. by rewrite length_T_rows in Hcol. }
    rewrite T_rows_lookup in Hcol by done. simplify_eq.
    exists (zip_with PrimFloat.mul degr (Np.column inverse idx)).
    split; [by rewrite binop1_same by (rewrite length_column; lia)|].
    split; [rewrite length_zip_with, length_column; lia|].
    intros i Hi. rewrite zip_with_lookup_total by (rewrite ?length_column; lia).
    by rewrite column_lookup_total by lia.
  - exists rs'. split; [done|]. split; [done|]. split; [done|].
    intros i j y Hi. rewrite Hvals by lia.
    by rewrite length_T_rows, Hnci.
Qed.

(** C2 (_leontief_calc), as the code has it: on a square table, for the
    year [year_i], the demand of a row is its total production minus the
    sum of the flows of that row in which a NaN flow counts as zero (the
    plain row sum when no flow of the row is NaN); the degraded demand is
    the direct intensity times the demand; and for every row [r] of the
    inverse, [risk_structure[:, r, year_i]] is that row of the inverse
    times the degraded demand, element by element, as stored in the
    risk structure. *)
Theorem leontief_propagation (self : SupplyChain) (direct_intensity : Np.vec)
    (inverse : Np.array2) (risk_structure : Np.array3) (year_i : nat) :
  valid_propagation self direct_intensity inverse risk_structure year_i ->
  let m := mriot_data self in
  exists demand degr_demand risk_structure',
    leontief_demand self = Ok demand /\
    Np.binop1 PrimFloat.mul direct_intensity demand = Ok degr_demand /\
    _leontief_calc self direct_intensity inverse risk_structure year_i
      = Ok risk_structure' /\
    forall row, row < Np.nrows m ->
      let flow_row := Np.rows m !!! row in
      demand !!! row
        = PrimFloat.sub (total_prod self !!! row) (Np.nansum (Np.dtype2 m) flow_row) /\
      (Forall (fun v => PrimFloat.is_nan v = false) flow_row ->
       demand !!! row
         = PrimFloat.sub (total_prod self !!! row) (Np.sum (Np.dtype2 m) flow_row)) /\
      degr_demand !!! row
        = PrimFloat.mul (direct_intensity !!! row) (demand !!! row) /\
      forall r, r < Np.nrows m ->
        Np.get3 risk_structure' row r year_i
          = Np.cast (Np.dtype3 risk_structure)
              (PrimFloat.mul (Np.get2 inverse r row) (degr_demand !!! row)).
Proof.
  intros Hvp m.
  destruct (leontief_calc_total self direct_intensity inverse risk_structure year_i Hvp)
    as (rs' & Hrun & _ & _ & Hval).
  destruct Hvp as (Hv & Hdi & _). pose proof Hv as (_ & Hsq & Htp).
  fold m in Hval, Hdi, Hsq, Htp.
  set (demand := zip_with PrimFloat.sub (total_prod self) (Np.nansum_axis1 m)) in *.
  assert (length (Np.nansum_axis1 m) = Np.nrows m) as Hnl
    by (unfold Np.nansum_axis1; by rewrite length_fmap).
  assert (length demand = Np.nrows m) as Hdl
    by (unfold demand; rewrite length_zip_with; lia).
  exists demand, (zip_with PrimFloat.mul direct_intensity demand), rs'.
  split; [by apply leontief_demand_ok|].
  split; [apply binop1_same; lia|]. split; [done|].
  intros row Hrow flow_row.
  assert (demand !!! row
          = PrimFloat.sub (total_prod self !!! row) (Np.nansum (Np.dtype2 m) flow_row))
    as Hd.
  { unfold demand. rewrite zip_with_lookup_total by lia.
    by rewrite nansum_axis1_lookup. }
  split; [done|]. split; [intros Hnan; by rewrite Hd, nansum_no_nan|].
  rewrite zip_with_lookup_total by lia. split; [done|].
  intros r Hr. rewrite Hval by done. by rewrite decide_True.
Qed.

(** C3 (_ghosh_calc), as the code has it: on a square table, for the year
    [year_i], the value added of a row is its total production minus the
    sum of the flows of the column of that index in which a NaN flow
    counts as zero (the plain column sum when no flow of the column is
    NaN); the degraded value added is the maximum of the direct intensity
    times the value added and zero, so it is never below zero, it is zero
    when that product is negative, and it is a zero when the value added is
    negative and the direct intensity positive; and for every column [c] of the
    inverse, [risk_structure[:, c, year_i]] is the degraded value added
    times that column, element by element, as stored in the risk
    structure. *)
Theorem ghosh_propagation (self : SupplyChain) (direct_intensity : Np.vec)
    (inverse : Np.array2) (risk_structure : Np.array3) (year_i : nat) :
  valid_propagation self direct_intensity inverse risk_structure year_i ->
  let m := mriot_data self in
  exists value_added degr_value_added risk_structure',
    ghosh_value_added self = Ok value_added /\
    ghosh_degr_value_added self direct_intensity = Ok degr_value_added /\
    _ghosh_calc self direct_intensity inverse risk_structure year_i
      = Ok risk_structure' /\
    forall row, row < Np.nrows m ->
      let flow_col := Np.column m row in
      let x := PrimFloat.mul (direct_intensity !!! row) (value_added !!! row) in
      value_added !!! row
        = PrimFloat.sub (total_prod self !!! row) (Np.nansum (Np.dtype2 m) flow_col) /\
      (Forall (fun v => PrimFloat.is_nan v = false) flow_col ->
       value_added !!! row
         = PrimFloat.sub (total_prod self !!! row) (Np.sum (Np.dtype2 m) flow_col)) /\
      degr_value_added !!! row = Np.maximum x PrimFloat.zero /\
      PrimFloat.ltb (degr_value_added !!! row) PrimFloat.zero = false /\
      (PrimFloat.ltb x PrimFloat.zero = true ->
       degr_value_added !!! row = PrimFloat.zero) /\
      (PrimFloat.ltb (value_added !!! row) PrimFloat.zero = true ->
       PrimFloat.ltb PrimFloat.zero (direct_intensity !!! row) = true ->
       PrimFloat.eqb (degr_value_added !!! row) PrimFloat.zero = true) /\
      forall c, c < Np.nrows m ->
        Np.get3 risk_structure' row c year_i
          = Np.cast (Np.dtype3 risk_structure)
              (PrimFloat.mul (degr_value_added !!! row) (Np.get2 inverse row c)).
Proof.
  intros Hvp m.
  destruct (ghosh_calc_total self direct_intensity inverse risk_structure year_i Hvp)
    as (rs' & Hrun & _ & _ & Hval).
  destruct Hvp as (Hv & Hdi & _). pose proof Hv as (_ & Hsq & Htp).
  fold m in Hval, Hdi, Hsq, Htp.
  set (va := zip_with PrimFloat.sub (total_prod self) (Np.nansum_axis0 m)) in *.
  set (degr := zip_with Np.maximum (zip_with PrimFloat.mul direct_intensity va)
                        (Np.zeros (length va))) in *.
  assert (length (Np.nansum_axis0 m) = Np.nrows m) as Hnl.
  { unfold Np.nansum_axis0. rewrite length_fmap, length_T_rows. lia. }
  assert (length va = Np.nrows m) as Hvl
    by (unfold va; rewrite length_zip_with; lia).
  exists va, degr, rs'.
  split; [by apply ghosh_value_added_ok|].
  split; [by apply ghosh_degr_value_added_ok|]. split; [done|].
  intros row Hrow flow_col x.
  assert (va !!! row
          = PrimFloat.sub (total_prod self !!! row) (Np.nansum (Np.dtype2 m) flow_col))
    as Hd.
  { unfold va. rewrite zip_with_lookup_total by lia.
    rewrite nansum_axis0_lookup by lia. done. }
  assert (degr !!! row = Np.maximum x PrimFloat.zero) as Hdg.
  { unfold degr, Np.zeros.
    rewrite zip_with_lookup_total
      by (rewrite ?length_zip_with, ?length_replicate; lia).
    rewrite zip_with_lookup_total by lia.
    by rewrite lookup_total_replicate_2 by lia. }
  split; [done|]. split; [intros Hnan; by rewrite Hd, nansum_no_nan|].
  split; [done|]. split; [rewrite Hdg; apply maximum_zero_not_neg|].
  split; [intros Hneg; rewrite Hdg; by apply maximum_zero_of_neg|].
  split; [intros Hneg Hpos; rewrite Hdg; by apply maximum_clamps_pos_neg|].
  intros c Hc. rewrite Hval by done. by rewrite decide_True.
Qed.

(** ** The year loop keeps the slices of the other years *)

Lemma set_slice3_frame (a a' : Np.array3) (j k : nat) (v : Np.vec) :
  Np.set_slice3 j k v a = Ok a' -> frame3 k a a'.
Proof.
  unfold Np.set_slice3. destruct ((j <? Np.dim2 a) && (k <? Np.dim3 a)); [|done].
  destruct (Np.assign _ _ v) as [v'|e]; [|done]. simpl. intros [= <-].
  split; [by repeat split; simpl; rewrite ?length_imap|].
  intros y Hy. unfold Np.slice3. simpl. f_equal.
  apply list_eq. intros i. rewrite !list_lookup_fmap, list_lookup_imap.
  destruct (Np.planes a !! i) as [p|]; [|done]. simpl. f_equal.
  apply list_eq. intros j'. rewrite !list_lookup_fmap.
  destruct (decide (j' = j)) as [->|Hne].
  - rewrite list_lookup_alter_eq. destruct (p !! j) as [cell|]; [|done]. simpl.
    by rewrite list_lookup_total_insert_ne.
  - by rewrite list_lookup_alter_ne.
Qed.

Lemma frame3_refl (k : nat) (a : Np.array3) : frame3 k a a.
Proof. split; [apply same_shape3_refl | done]. Qed.

Lemma same_shape3_trans (a b c : Np.array3) :
  same_shape3 a b -> same_shape3 b c -> same_shape3 a c.
Proof.
  unfold same_shape3. intros (H1 & H2 & H3 & H4) (H5 & H6 & H7 & H8).
  rewrite H5, H6, H7, H8. done.
Qed.

Lemma frame3_trans (k : nat) (a b c : Np.array3) :
  frame3 k a b -> frame3 k b c -> frame3 k a c.
Proof.
  intros [Hs1 Hab] [Hs2 Hbc]. split; [by eapply same_shape3_trans|].
  intros y Hy. by rewrite Hbc, Hab.
Qed.

Lemma slice_loop_frame (L : list Np.vec)
    (body : nat -> Np.vec -> Np.array3 -> res Np.array3)
    (rs rs' : Np.array3) (year_i : nat) :
  (forall idx x a a', body idx x a = Ok a' -> frame3 year_i a a') ->
  for_enumerate L body rs = Ok rs' -> frame3 year_i rs rs'.
Proof.
  intros Hbody Hrun. unfold for_enumerate in Hrun.
  apply (for_enumerate_from_partial (fun _ a => frame3 year_i rs a) _ _ _ _ _ Hrun).
  - apply frame3_refl.
  - intros i x s s' _ Hb Hs. eapply frame3_trans; [done|]. by eapply Hbody.
Qed.

Lemma calc_frame (self : SupplyChain) (io : string)
    (calc : Np.vec -> Np.array2 -> Np.array3 -> nat -> res Np.array3)
    (di : Np.vec) (inverse : Np.array2) (rs rs' : Np.array3) (year_i : nat) :
  io_switch self !! io = Some calc ->
  calc di inverse rs year_i = Ok rs' -> frame3 year_i rs rs'.
Proof.
  unfold io_switch. intros Hio Hrun.
  apply lookup_insert_Some in Hio as [[_ <-]|[_ Hio]];
    [|apply lookup_insert_Some in Hio as [[_ <-]|[_ Hio]];
      [|apply lookup_singleton_Some in Hio as [_ <-]]].
  - unfold _leontief_calc in Hrun.
    destruct (leontief_demand self) as [demand|]; [|done]. simpl in Hrun.
    destruct (Np.binop1 PrimFloat.mul di demand) as [dd|]; [|done]. simpl in Hrun.
    eapply slice_loop_frame; [|done]. intros idx x a a' Hb. simpl in Hb.
    destruct (Np.binop1 PrimFloat.mul x dd) as [v|]; [|done].
    by eapply set_slice3_frame.
  - unfold _ghosh_calc in Hrun.
    destruct (ghosh_degr_value_added self di) as [dv|]; [|done]. simpl in Hrun.
    eapply slice_loop_frame; [|done]. intros idx x a a' Hb. simpl in Hb.
    destruct (Np.binop1 PrimFloat.mul dv x) as [v|]; [|done].
    by eapply set_slice3_frame.
  - unfold _eeioa_calc in Hrun.
    eapply slice_loop_frame; [|done]. intros idx x a a' Hb. simpl in Hb.
    destruct (Np.binop1 PrimFloat.mul di x) as [v|]; [|done]. simpl in Hb.
    destruct (getitem (total_prod self) idx) as [p|]; [|done].
    by eapply set_slice3_frame.
Qed.

Lemma indirect_loop_spec (self : SupplyChain) (io : string) (d inverse : Np.array2)
    (ys : list Z) (ind0 ind : Np.array2) (rs0 rs : Np.array3) :
  for_enumerate ys
    (fun year_i _ st => indirect_step self io d inverse year_i st) (ind0, rs0)
    = Ok (ind, rs) ->
  same_shape3 rs0 rs /\
  forall y, y < length ys ->
    exists v, Np.assign (Np.dtype2 ind0) (Np.ncols ind0)
                (Np.nansum_axis0 (Np.slice3 y rs)) = Ok v /\
              Np.rows ind !! y = Some v.
Proof.
  intros Hrun. unfold for_enumerate in Hrun.
  pose (P := fun (k : nat) (st : Np.array2 * Np.array3) =>
               same_shape3 rs0 st.2 /\
               Np.dtype2 st.1 = Np.dtype2 ind0 /\ Np.ncols st.1 = Np.ncols ind0 /\
               forall y, y < k ->
                 exists v, Np.assign (Np.dtype2 ind0) (Np.ncols ind0)
                             (Np.nansum_axis0 (Np.slice3 y st.2)) = Ok v /\
                           Np.rows st.1 !! y = Some v).
  assert (P (0 + length ys) (ind, rs)) as (Hsh & _ & _ & Hval).
  { apply (for_enumerate_from_partial P _ _ _ _ _ Hrun).
    - split; [apply same_shape3_refl|]. split; [done|]. split; [done|]. intros; lia.
    - intros k yr [ind1 rs1] [ind2 rs2] _ Hstep (Hsh1 & Hdt & Hnc & Hval). simpl in *.
      unfold indirect_step in Hstep.
      destruct (getitem (Np.rows d) k) as [diy|]; [|done]. simpl in Hstep.
      unfold dict_getitem in Hstep.
      destruct (io_switch self !! io) as [calc|] eqn:Hio; [|done]. simpl in Hstep.
      destruct (calc _ inverse rs1 k) as [rs2'|] eqn:Hcalc; [|done]. simpl in Hstep.
      destruct (calc_frame _ _ _ _ _ _ _ _ Hio Hcalc) as [Hsh2 Hfr].
      unfold Np.set_row in Hstep.
      destruct (k <? Np.nrows ind1) eqn:Hk; [|done]. apply Nat.ltb_lt in Hk.
      destruct (Np.assign _ _ _) as [v'|] eqn:Hv'; [|done]. simpl in Hstep.
      simplify_eq. simpl.
      split.
      { by eapply same_shape3_trans. }
      split; [done|]. split; [done|].
      intros y Hy. simpl. destruct (decide (y = k)) as [->|Hne].
      + exists v'. rewrite <- Hdt, <- Hnc. split; [done|].
        by rewrite list_lookup_insert_eq.
      + destruct (Hval y) as (v & Hv & Hrow); [lia|].
        exists v. rewrite Hfr by done. split; [done|].
        by rewrite list_lookup_insert_ne. }
  split; [done|]. intros y Hy. by apply Hval.
Qed.

(** ** The year loop returns on arrays of the right shapes *)

Lemma eeioa_calc_total (self : SupplyChain) (di : Np.vec) (inverse : Np.array2)
    (rs : Np.array3) (year_i : nat) :
  valid_propagation self di inverse rs year_i ->
  let m := mriot_data self in
  exists rs', _eeioa_calc self di inverse rs year_i = Ok rs' /\
    same_shape3 rs rs' /\ well_shaped3 rs' /\
    forall i j y, i < Np.nrows m ->
      Np.get3 rs' i j y
        = if decide (j < Np.nrows m /\ y = year_i)
          then Np.cast (Np.dtype3 rs)
                 (PrimFloat.mul (PrimFloat.mul (di !!! i) (Np.get2 inverse i j))
                                (total_prod self !!! j))
          else Np.get3 rs i j y.
Proof.
  intros (Hv & Hdi & Hwi & Hnri & Hnci & Hws & Hpl & Hd2 & Hy) m.
  pose proof Hv as (Hwm & Hsq & Htp). fold m in Hwm, Hsq, Htp, Hdi, Hnri, Hnci, Hpl, Hd2.
  unfold _eeioa_calc.
  destruct (slice_loop_total (Np.rows (Np.T inverse))
              (fun idx col risk_structure =>
                 v ← Np.binop1 PrimFloat.mul di col;
                 p ← getitem (total_prod self) idx;
                 Np.set_slice3 idx year_i ((fun x => PrimFloat.mul x p) <$> v)
                               risk_structure)
              (fun i idx => PrimFloat.mul (PrimFloat.mul (di !!! i) (Np.get2 inverse i idx))
                              (total_prod self !!! idx))
              rs year_i) as (rs' & Hrun & Hsh & Hws' & Hvals);
    [done | rewrite length_T_rows; lia | done | |].
  - intros idx col rs0 Hcol.
    assert (idx < Np.ncols inverse) as Hidx.
    { apply lookup_lt_Some in Hcol. by rewrite length_T_rows in Hcol. }
    rewrite T_rows_lookup in Hcol by done. simplify_eq.
    rewrite binop1_same by (rewrite length_column; lia). simpl.
    unfold getitem. rewrite (list_lookup_lookup_total_lt (total_prod self) idx) by lia.
    simpl. eexists. split; [done|].
    split; [rewrite length_fmap, length_zip_with, length_column; lia|].
    intros i Hi.
    rewrite (list_lookup_total_fmap (fun x => PrimFloat.mul x (total_prod self !!! idx)))
      by (rewrite length_zip_with, length_column; lia).
    rewrite zip_with_lookup_total by (rewrite ?length_column; lia).
    by rewrite column_lookup_total by lia.
  - exists rs'. split; [done|]. split; [done|]. split; [done|].
    intros i j y Hi. rewrite Hvals by lia.
    by rewrite length_T_rows, Hnci.
Qed.

Lemma length_direct_intensity_of (diy tp : Np.vec) :
  length (direct_intensity_of diy tp) = length diy.
Proof.
  unfold direct_intensity_of, loop_enumerate.
  apply (loop_enumerate_from_inv (fun _ (di : Np.vec) => length di = length diy)).
  - unfold Np.zeros. by rewrite length_replicate.
  - intros k [a b] di _ Hl. simpl.
    destruct (PrimFloat.ltb PrimFloat.zero b); by rewrite length_insert.
Qed.

Lemma io_switch_total (self : SupplyChain) (io : string) :
  io ∈ ["leontief"; "ghosh"; "eeioa"] ->
  exists calc, io_switch self !! io = Some calc /\
    forall di inverse rs year_i,
      valid_propagation self di inverse rs year_i ->
      exists rs', calc di inverse rs year_i = Ok rs' /\
                  same_shape3 rs rs' /\ well_shaped3 rs'.
Proof.
  rewrite !elem_of_cons, elem_of_nil. intros [->|[->|[->|[]]]]; eexists;
    (split; [reflexivity|]); intros di inverse rs year_i Hvp.
  - destruct (leontief_calc_total _ _ _ _ _ Hvp) as (rs' & ? & ? & ? & _). eauto.
  - destruct (ghosh_calc_total _ _ _ _ _ Hvp) as (rs' & ? & ? & ? & _). eauto.
  - destruct (eeioa_calc_total _ _ _ _ _ Hvp) as (rs' & ? & ? & ? & _). eauto.
Qed.

Lemma indirect_loop_total (self : SupplyChain) (io : string) (d inverse : Np.array2)
    (ys : list Z) :
  let n := Np.nrows (mriot_data self) in
  valid_mriot self -> io ∈ ["leontief"; "ghosh"; "eeioa"] ->
  well_shaped d -> Np.nrows d = length ys -> Np.ncols d = n ->
  well_shaped inverse -> Np.nrows inverse = n -> Np.ncols inverse = n ->
  exists ind rs,
    for_enumerate ys
      (fun year_i _ st => indirect_step self io d inverse year_i st)
      (Np.zeros_like Np.float32 d, Np.zeros3 Np.float32 n (Np.ncols (mriot_data self)) (length ys))
      = Ok (ind, rs).
Proof.
  intros n Hv Hio Hwd Hnr Hnc Hwi Hinr Hinc. pose proof Hv as (_ & Hsq & _). fold n in Hsq.
  destruct (io_switch_total self io Hio) as (calc & Hcalc & Htot).
  set (rs0 := Np.zeros3 Np.float32 n (Np.ncols (mriot_data self)) (length ys)).
  pose (P := fun (k : nat) (st : Np.array2 * Np.array3) =>
               Np.dtype2 st.1 = Np.float32 /\ Np.nrows st.1 = length ys /\
               Np.ncols st.1 = n /\ same_shape3 rs0 st.2 /\ well_shaped3 st.2).
  destruct (for_enumerate_from_total P ys
              (fun year_i _ st => indirect_step self io d inverse year_i st)
              0 (Np.zeros_like Np.float32 d, rs0)) as ([ind rs] & Hrun & _).
  - unfold P, Np.nrows. simpl. rewrite length_replicate.
    split; [done|]. split; [done|]. split; [done|].
    split; [apply same_shape3_refl|].
    apply Forall_lookup_2. intros i p Hp. simpl in *.
    apply lookup_replicate in Hp as [-> _]. rewrite length_replicate. split; [done|].
    apply Forall_lookup_2. intros j cell Hcell.
    apply lookup_replicate in Hcell as [-> _]. unfold Np.zeros. by rewrite length_replicate.
  - intros k yr [ind rs] Hyr (Hdt & Hinr' & Hinc' & Hsh & Hws). simpl in *.
    assert (k < length ys) as Hk by (by eapply lookup_lt_Some).
    unfold indirect_step. unfold getitem.
    rewrite (list_lookup_lookup_total_lt (Np.rows d) k) by (unfold Np.nrows in Hnr; lia).
    simpl. unfold dict_getitem. rewrite Hcalc. simpl.
    destruct Hsh as (Hs1 & Hs2 & Hs3 & Hs4). simpl in *.
    rewrite length_replicate in Hs4.
    destruct (Htot (direct_intensity_of (Np.rows d !!! k) (total_prod self)) inverse rs k)
      as (rs' & -> & Hsh' & Hws').
    { split; [done|]. rewrite length_direct_intensity_of.
      split; [rewrite well_shaped_lookup by (done || lia); lia|].
      repeat split; try done; lia. }
    simpl. destruct Hsh' as (Ht1 & Ht2 & Ht3 & Ht4).
    rewrite set_row_ok.
    2:{ lia. }
    2:{ unfold Np.nansum_axis0. rewrite length_fmap, length_T_rows. simpl. lia. }
    eexists. split; [done|]. unfold P, Np.nrows in *. simpl. rewrite length_insert.
    split; [done|]. split; [done|]. split; [done|]. split; [|done].
    repeat split; simpl; try rewrite length_replicate; congruence.
  - by exists ind, rs.
Qed.

Lemma well_shaped_astype (dt : Np.dtype) (a : Np.array2) :
  well_shaped a -> well_shaped (Np.astype dt a).
Proof.
  intros H. apply Forall_lookup_2. intros y row Hrow. simpl in *.
  rewrite list_lookup_fmap in Hrow. destruct (Np.rows a !! y) as [r|] eqn:Hr; [|done].
  simpl in Hrow. simplify_eq. rewrite length_fmap.
  by apply (Forall_lookup_1 _ _ _ _ H Hr).
Qed.

Lemma well_shaped_identity (n : nat) : well_shaped (Np.identity n).
Proof.
  apply Forall_lookup_2. intros i row Hrow. simpl in *.
  rewrite list_lookup_fmap in Hrow. destruct (seq 0 n !! i); [|done].
  simpl in Hrow. simplify_eq. by rewrite length_fmap, length_seq.
Qed.

Lemma coefficients_of_total (io : string) (self : SupplyChain) :
  valid_mriot self ->
  exists c, coefficients_of io self = Ok c /\ coefficients_shape (mriot_data self) c.
Proof.
  intros Hv. destruct (decide (io ∈ ["leontief"; "eeioa"])) as [Hio|Hio].
  - destruct (coefficients_of_columns io self Hv Hio) as (c & ? & ? & _). eauto.
  - destruct (coefficients_of_rows io self Hv Hio) as (c & ? & ? & _). eauto.
Qed.

(** C5 (calc_indirect_impact, the year loop): whenever the calculation
    returns, for every year the row of that year in the indirect-impact
    matrix is the sum over the first axis (the source rows) of that year's
    slice of the final risk structure, computed with every NaN entry
    replaced by zero, as stored in the [float32] matrix.  And it does
    return for one of the three approaches on a square table, a
    direct-impact matrix of one row per year, and an inversion that
    succeeds with a matrix of the shape of the table. *)
Theorem indirect_impact_is_nansum (io : string) (self : SupplyChain)
    (d : Np.array2) (ys : list Z) :
  direct_impact self = Some d ->
  years self = Some ys ->
  Np.ncols d = Np.ncols (mriot_data self) ->
  (forall self', calc_indirect_impact io self = Ok self' ->
     exists ind iod,
       indirect_impact self' = Some ind /\ io_data self' = Some iod /\
       forall year_i j, year_i < length ys -> j < Np.ncols (mriot_data self) ->
         let year_slice := Np.slice3 year_i (risk_structure iod) in
         Np.get2 ind year_i j
           = Np.cast Np.float32
               (Np.sum Np.float32 (Np.nan_to_zero <$> Np.column year_slice j))) /\
  (valid_mriot self -> io ∈ ["leontief"; "ghosh"; "eeioa"] ->
   well_shaped d -> Np.nrows d = length ys ->
   (forall c m,
      coefficients_of io self = Ok c ->
      Np.binop2 PrimFloat.sub (Np.identity (Np.nrows (mriot_data self))) c = Ok m ->
      exists inv, linalg_inv m = Some inv /\ well_shaped inv /\
        Np.nrows inv = Np.nrows (mriot_data self) /\
        Np.ncols inv = Np.nrows (mriot_data self)) ->
   exists self', calc_indirect_impact io self = Ok self').
Proof.
  intros Hd Hys Hnc. split.
  - intros self' Hrun. unfold calc_indirect_impact in Hrun.
    destruct (coefficients_of io self) as [c|]; [|done]. simpl in Hrun.
    destruct (Np.binop2 _ _ c) as [m|]; [|done]. simpl in Hrun.
    destruct (linalg_inv m) as [inv|]; [|done]. simpl in Hrun.
    rewrite Hd, Hys in Hrun. simpl in Hrun.
    destruct (for_enumerate ys _ _) as [[ind rs]|] eqn:Hloop; [|done].
    simpl in Hrun. simplify_eq. simpl.
    exists ind. eexists. split; [done|]. split; [done|]. simpl.
    intros year_i j Hy Hj.
    destruct (indirect_loop_spec _ _ _ _ _ _ _ _ _ Hloop) as [Hsh Hval].
    destruct Hsh as (Hdt & Hd2 & _ & _). simpl in *.
    destruct (Hval year_i Hy) as (v & Hv & Hrow).
    rewrite assign_same in Hv.
    2:{ unfold Np.nansum_axis0. rewrite length_fmap, length_T_rows. simpl. lia. }
    simplify_eq. unfold Np.get2. rewrite (list_lookup_total_correct _ _ _ Hrow).
    rewrite (list_lookup_total_fmap (Np.cast Np.float32)).
    2:{ unfold Np.nansum_axis0. rewrite length_fmap, length_T_rows. simpl. lia. }
    rewrite nansum_axis0_lookup by (simpl; lia). simpl. by rewrite Hdt.
  - intros Hv Hio Hwd Hnr Hinv. pose proof Hv as (_ & Hsq & _).
    destruct (coefficients_of_total io self Hv) as (c & Hc & _ & Hcc & Hcr & Hcw).
    destruct (binop2_same PrimFloat.sub (Np.identity (Np.nrows (mriot_data self))) c)
      as (m & Hm & _); [| | apply well_shaped_identity | done |].
    { rewrite Hcr. unfold Np.nrows at 1. simpl. by rewrite length_fmap, length_seq. }
    { simpl. lia. }
    destruct (Hinv c m Hc Hm) as (inv & Hi & Hwi & Hir & Hic).
    destruct (indirect_loop_total self io d (Np.astype Np.float32 inv) ys Hv Hio Hwd Hnr)
      as (ind & rs & Hloop);
      [lia | by apply well_shaped_astype
       | unfold Np.nrows in *; simpl; by rewrite length_fmap | done |].
    unfold calc_indirect_impact. rewrite Hc. simpl. rewrite Hm. simpl. rewrite Hi. simpl.
    rewrite Hd, Hys. simpl. rewrite Hloop. simpl. by eexists.
Qed.

(** ** Totals and averages *)

Lemma mean_axis0_lookup (a : Np.array2) (j : nat) :
  j < Np.ncols a ->
  Np.mean_axis0 a !! j = Some (arith_mean (Np.dtype2 a) (Np.column a j)).
Proof.
  intros Hj. unfold Np.mean_axis0, Np.sum_axis0, arith_mean, Np.count.
  rewrite !list_lookup_fmap, T_rows_lookup by done. simpl.
  by rewrite length_column.
Qed.


(** C6 (calc_total_impact, and the averages of the three methods): for a
    direct-impact and an indirect-impact matrix of the same shape,
    [calc_total_impact] sets [total_impact] to their element-wise sum (in
    the element type of the result) and [total_aai_agg] to its mean over
    the years; [calc_sector_direct_impact] and [calc_indirect_impact],
    when they return, leave [direct_aai_agg] and [indirect_aai_agg] equal
    to the means over the years of the matrices they computed.  The mean
    over the years is, for every row of the table, the arithmetic mean of
    the yearly values of that row. *)
Theorem total_impact_and_averages :
  (forall (self : SupplyChain) (ind dir : Np.array2),
     indirect_impact self = Some ind -> direct_impact self = Some dir ->
     Np.nrows ind = Np.nrows dir -> Np.ncols ind = Np.ncols dir ->
     well_shaped ind -> well_shaped dir ->
     exists self' tot,
       calc_total_impact self = Ok self' /\
       total_impact self' = Some tot /\
       Np.nrows tot = Np.nrows dir /\ Np.ncols tot = Np.ncols dir /\
       (forall y r, y < Np.nrows dir -> r < Np.ncols dir ->
          Np.get2 tot y r
            = Np.cast (Np.dtype2 tot) (PrimFloat.add (Np.get2 ind y r) (Np.get2 dir y r))) /\
       (Np.dtype2 dir = Np.float64 -> Np.dtype2 tot = Np.float64) /\
       total_aai_agg self' = Some (Np.mean_axis0 tot) /\
       direct_impact self' = Some dir /\ indirect_impact self' = Some ind) /\
  (forall hazard exposure sector_type selected_subsec (self self' : SupplyChain),
     calc_sector_direct_impact hazard exposure sector_type selected_subsec self = Ok self' ->
     exists dir, direct_impact self' = Some dir /\
                 direct_aai_agg self' = Some (Np.mean_axis0 dir)) /\
  (forall io (self self' : SupplyChain),
     calc_indirect_impact io self = Ok self' ->
     exists ind, indirect_impact self' = Some ind /\
                 indirect_aai_agg self' = Some (Np.mean_axis0 ind)) /\
  (forall (a : Np.array2) (r : nat), r < Np.ncols a ->
     Np.mean_axis0 a !! r = Some (arith_mean (Np.dtype2 a) (Np.column a r))).
Proof.
  split; [|split; [|split]].
  - intros self ind dir Hi Hd Hr Hc Hwi Hwd.
    destruct (binop2_same PrimFloat.add ind dir Hr Hc Hwi Hwd)
      as (tot & Hrun & Hdt & Hnr & Hnc & Hval).
    unfold calc_total_impact. rewrite Hi, Hd. simpl. rewrite Hrun. simpl.
    eexists. exists tot. split; [done|]. simpl. split; [done|].
    split; [lia|]. split; [lia|].
    split; [intros y r Hy Hx; apply Hval; lia|].
    split; [intros Hf; rewrite Hdt, Hf; by destruct (Np.dtype2 ind)|].
    done.
  - intros hazard exposure sector_type selected_subsec self self' Hrun.
    unfold calc_sector_direct_impact in Hrun.
    destruct (select_subsec sector_type selected_subsec) as [sel|]; [|done].
    simpl in Hrun.
    destruct (for_enumerate _ _ _) as [[d codes]|]; [|done]. simpl in Hrun.
    simplify_eq. by exists d.
  - intros io self self' Hrun. unfold calc_indirect_impact in Hrun.
    destruct (coefficients_of io self) as [c|]; [|done]. simpl in Hrun.
    destruct (Np.binop2 _ _ c) as [m|]; [|done]. simpl in Hrun.
    destruct (linalg_inv m) as [inv|]; [|done]. simpl in Hrun.
    destruct (direct_impact self) as [d|]; [|done]. simpl in Hrun.
    destruct (years self) as [ys|]; [|done]. simpl in Hrun.
    destruct (for_enumerate ys _ _) as [[ind rs]|]; [|done]. simpl in Hrun.
    simplify_eq. by exists ind.
  - intros a r Hr. by apply mean_axis0_lookup.
Qed.

(** ** The direct-impact mapper *)

Lemma length_repeat (x : Np.vec) (k : nat) : length (Np.repeat x k) = length x * k.
Proof.
  unfold Np.repeat. induction x as [|a x IH]; [done|]. simpl.
  rewrite length_app, length_replicate, IH. lia.
Qed.

Lemma repeat_lookup (x : Np.vec) (n y k : nat) (v : float) :
  x !! y = Some v -> k < n -> Np.repeat x n !! (y * n + k) = Some v.
Proof.
  unfold Np.repeat. revert y. induction x as [|a x IH]; intros y Hy Hk; [done|].
  simpl. destruct y as [|y]; simpl in *.
  - simplify_eq. rewrite lookup_app_l by (by rewrite length_replicate).
    by apply lookup_replicate_2.
  - rewrite lookup_app_r by (rewrite length_replicate; lia).
    rewrite length_replicate. replace (n + y * n + k - n) with (y * n + k) by lia.
    by apply IH.
Qed.

Lemma reshape_repeat (imp : Np.vec) (r c : nat) (a : Np.array2) :
  Np.reshape r c (Np.repeat imp c) = Ok a ->
  Np.dtype2 a = Np.float64 /\ Np.nrows a = r /\ Np.ncols a = c /\ well_shaped a /\
  forall y k, y < r -> k < c -> Np.get2 a y k = imp !!! y.
Proof.
  unfold Np.reshape. rewrite length_repeat.
  destruct (length imp * c =? r * c) eqn:Hlen; [|done]. apply Nat.eqb_eq in Hlen.
  intros [= <-]. unfold Np.nrows. simpl. rewrite length_fmap, length_seq.
  split; [done|]. split; [done|]. split; [done|]. split.
  - apply Forall_lookup_2. intros y row Hrow. simpl in *.
    rewrite list_lookup_fmap in Hrow.
    destruct (seq 0 r !! y) as [y'|] eqn:Hy; [|done]. simpl in Hrow. simplify_eq.
    apply lookup_seq in Hy as [-> Hy]. simpl.
    rewrite length_take, length_drop, length_repeat. nia.
  - intros y k Hy Hk. unfold Np.get2. simpl.
    rewrite (list_lookup_total_correct _ y (take c (drop (y * c) (Np.repeat imp c)))).
    2:{ rewrite list_lookup_fmap, lookup_seq_lt by done. done. }
    assert (y < length imp) as Hyi by nia.
    apply list_lookup_total_correct.
    rewrite lookup_take_lt, lookup_drop by done.
    apply repeat_lookup; [|done]. by apply list_lookup_lookup_total_lt.
Qed.

Lemma take_rows_ok (a b : Np.array2) (idx : list nat) :
  Np.take_rows a idx = Ok b ->
  Np.dtype2 b = Np.dtype2 a /\ Np.nrows b = length idx /\
  forall k p, idx !! k = Some p ->
    p < Np.nrows a /\ Np.rows b !!! k = Np.rows a !!! p.
Proof.
  unfold Np.take_rows.
  destruct (mapM _ idx) as [rs|] eqn:Hm; [|done]. intros [= <-]. simpl.
  apply mapM_Some in Hm. split; [done|]. unfold Np.nrows. simpl.
  split; [symmetry; by eapply Forall2_length|].
  intros k p Hk. destruct (Forall2_lookup_l _ _ _ _ _ Hm Hk) as (row & Hrow & Hp).
  split; [by eapply lookup_lt_Some|].
  rewrite (list_lookup_total_correct _ _ _ Hrow).
  by rewrite (list_lookup_total_correct _ _ _ Hp).
Qed.

(** A 2-d array times a row vector of its width. *)
Lemma binop2_row_vector (f : float -> float -> float) (a : Np.array2)
    (dt : Np.dtype) (v : Np.vec) :
  Np.ncols a = length v -> well_shaped a ->
  exists t, Np.binop2 f a (Np.Array2 dt (length v) [v]) = Ok t /\
    Np.nrows t = Np.nrows a /\ Np.ncols t = length v /\ well_shaped t /\
    forall y k, y < Np.nrows a -> k < length v ->
      Np.get2 t y k
        = Np.cast (Np.promote (Np.dtype2 a) dt) (f (Np.get2 a y k) (v !!! k)).
Proof.
  intros Hc Hwa. unfold Np.binop2. simpl. rewrite Hc, bdim_same.
  change (Np.nrows {| Np.dtype2 := dt; Np.ncols := length v; Np.rows := [v] |}) with 1.
  assert (exists r, Np.bdim (Np.nrows a) 1 = Ok r /\ r = Np.nrows a /\
                    Np.stretch r [v] = replicate (Np.nrows a) v) as (r & -> & -> & Hst).
  { unfold Np.bdim, Np.stretch. simpl. destruct (Np.nrows a =? 1) eqn:H1.
    - apply Nat.eqb_eq in H1. rewrite H1. by exists 1.
    - exists (Np.nrows a). split; [done|]. split; [done|].
      destruct (Np.nrows a) as [|[|n]]; done. }
  simpl. rewrite Hst, (stretch_same (Np.nrows a)) by done.
  eexists. split; [done|]. unfold Np.nrows in *. simpl.
  rewrite length_zip_with, length_replicate.
  split; [lia|]. split; [done|]. split.
  - apply Forall_lookup_2. intros y row Hrow. simpl.
    apply lookup_zip_with_Some in Hrow as (x & w & -> & Hx & Hw).
    apply lookup_replicate in Hw as [-> _].
    pose proof (Forall_lookup_1 _ _ _ _ Hwa Hx) as Hxl. simpl in Hxl.
    rewrite !stretch_same by lia. rewrite length_zip_with. lia.
  - intros y k Hy Hk. unfold Np.get2. simpl.
    rewrite zip_with_lookup_total by (rewrite ?length_replicate; lia).
    rewrite lookup_total_replicate_2 by done.
    pose proof (well_shaped_lookup a y Hwa Hy) as Hxl.
    rewrite !stretch_same by lia.
    by rewrite zip_with_lookup_total by lia.
Qed.

Lemma put_row_spec (pos : list nat) (f : nat -> float) (r : Np.vec) :
  NoDup pos -> Forall (fun p => p < length r) pos ->
  let r' := loop_enumerate pos (fun k p r' => <[p := f k]> r') r in
  length r' = length r /\
  (forall k p, pos !! k = Some p -> r' !!! p = f k) /\
  (forall q, q ∉ pos -> r' !!! q = r !!! q).
Proof.
  intros Hnd Hlt r'. subst r'. unfold loop_enumerate.
  pose (P := fun (n : nat) (x : Np.vec) =>
               length x = length r /\
               (forall k p, k < n -> pos !! k = Some p -> x !!! p = f k) /\
               (forall q, (forall k, k < n -> pos !! k <> Some q) -> x !!! q = r !!! q)).
  assert (P (0 + length pos)
            (loop_enumerate_from 0 pos (fun k p r' => <[p := f k]> r') r))
    as (Hl & Hin & Hout).
  { apply loop_enumerate_from_inv.
    - split; [done|]. split; [intros; lia | done].
    - intros n p x Hp (Hl & Hin & Hout). simpl in *.
      pose proof (Forall_lookup_1 _ _ _ _ Hlt Hp) as Hpl. simpl in Hpl.
      split; [by rewrite length_insert|]. split.
      + intros k q Hk Hq. destruct (decide (k = n)) as [->|Hne].
        * rewrite Hp in Hq. simplify_eq. rewrite list_lookup_total_insert_eq; [done | lia].
        * rewrite list_lookup_total_insert_ne.
          { apply Hin; [lia | done]. }
          intros ->. apply Hne. symmetry. by eapply NoDup_lookup.
      + intros q Hq. rewrite list_lookup_total_insert_ne.
        { apply Hout. intros k Hk. apply Hq. lia. }
        intros ->. by apply (Hq n); [lia|]. }
  split; [done|]. split.
  - intros k p Hk. apply Hin; [|done]. simpl. by eapply lookup_lt_Some.
  - intros q Hq. apply Hout. intros k _ Hk. apply Hq.
    apply list_elem_of_lookup. by exists k.
Qed.

Lemma iadd_cols_spec (a a' b : Np.array2) (pos : list nat) :
  Np.iadd_cols a pos b = Ok a' ->
  well_shaped a -> well_shaped b ->
  Np.nrows b = Np.nrows a -> Np.ncols b = length pos -> NoDup pos ->
  Np.dtype2 a' = Np.dtype2 a /\ Np.nrows a' = Np.nrows a /\
  Np.ncols a' = Np.ncols a /\ well_shaped a' /\
  Forall (fun p => p < Np.ncols a) pos /\
  forall y, y < Np.nrows a ->
    (forall k p, pos !! k = Some p ->
       Np.get2 a' y p
         = Np.cast (Np.dtype2 a)
             (Np.cast (Np.promote (Np.dtype2 a) (Np.dtype2 b))
                (PrimFloat.add (Np.get2 a y p) (Np.get2 b y k)))) /\
    (forall q, q ∉ pos -> Np.get2 a' y q = Np.get2 a y q).
Proof.
  intros Hrun Hwa Hwb Hnr Hnc Hnd. unfold Np.iadd_cols, Np.take_cols in Hrun.
  destruct (forallb _ pos) eqn:Hfa; [|done]. simpl in Hrun.
  assert (Forall (fun p => p < Np.ncols a) pos) as Hlt.
  { apply Forall_forall. intros p Hp. apply list_elem_of_In in Hp.
    rewrite forallb_forall in Hfa. apply Nat.ltb_lt. by apply Hfa. }
  set (g := Np.Array2 (Np.dtype2 a) (length pos)
              (fmap (fun r : Np.vec => fmap (fun p => r !!! p) pos) (Np.rows a))) in *.
  assert (well_shaped g) as Hwg.
  { apply Forall_lookup_2. intros y row Hrow. simpl in *.
    rewrite list_lookup_fmap in Hrow. destruct (Np.rows a !! y); [|done].
    simpl in Hrow. simplify_eq. by rewrite length_fmap. }
  destruct (binop2_same PrimFloat.add g b) as (s & Hs & Hsdt & Hsr & Hsc & Hsv);
    [unfold Np.nrows in *; simpl; rewrite length_fmap; lia | done | done | done |].
  rewrite Hs in Hrun. simpl in Hrun. rewrite Hsr, Hsc, !Nat.eqb_refl in Hrun.
  simpl in Hrun. simplify_eq. unfold Np.put_cols, Np.nrows in *. simpl in *.
  rewrite length_fmap in Hsr, Hsv. rewrite length_imap.
  split; [done|]. split; [done|]. split; [done|].
  assert (forall y, y < length (Np.rows a) ->
            Forall (fun p => p < length (Np.rows a !!! y)) pos) as Hlt'.
  { intros y Hy. by rewrite (well_shaped_lookup a y Hwa Hy). }
  split.
  { apply Forall_lookup_2. intros y row Hrow. simpl in *.
    apply list_lookup_imap_Some in Hrow as (r0 & Hr0 & ->).
    pose proof (lookup_lt_Some _ _ _ Hr0) as Hy.
    pose proof (list_lookup_total_correct _ _ _ Hr0) as Hr0'.
    destruct (put_row_spec pos
                (fun k => Np.cast (Np.dtype2 a) ((Np.rows s !!! y) !!! k)) r0 Hnd)
      as (Hl & _); [rewrite <- Hr0'; by apply Hlt'|].
    rewrite Hl. by eapply (Forall_lookup_1 _ _ _ _ Hwa). }
  split; [done|]. intros y Hy.
  pose proof (list_lookup_lookup_total_lt (Np.rows a) y Hy) as Hr0.
  destruct (put_row_spec pos
              (fun k => Np.cast (Np.dtype2 a) ((Np.rows s !!! y) !!! k))
              (Np.rows a !!! y) Hnd (Hlt' y Hy)) as (_ & Hin & Hout).
  unfold Np.get2 in *. simpl.
  match goal with
  | |- context [imap ?F (Np.rows a)] =>
      rewrite (list_lookup_total_correct (imap F (Np.rows a)) y
                 (F y (Np.rows a !!! y)))
        by (by rewrite list_lookup_imap, Hr0)
  end.
  split.
  - intros k p Hk. rewrite (Hin k p Hk).
    pose proof (lookup_lt_Some _ _ _ Hk) as Hkl.
    rewrite (Hsv y k) by lia. rewrite Hsdt. simpl. do 3 f_equal.
    rewrite (list_lookup_total_fmap (fun r : Np.vec => fmap (fun p => r !!! p) pos))
      by done.
    rewrite (list_lookup_total_fmap (fun p => (Np.rows a !!! y) !!! p)) by done.
    by rewrite (list_lookup_total_correct _ _ _ Hk).
  - intros q Hq. by apply Hout.
Qed.

Lemma get2_astype (dt : Np.dtype) (a : Np.array2) (y k : nat) :
  well_shaped a -> y < Np.nrows a -> k < Np.ncols a ->
  Np.get2 (Np.astype dt a) y k = Np.cast dt (Np.get2 a y k).
Proof.
  intros Hw Hy Hk. unfold Np.get2. simpl.
  rewrite (list_lookup_total_fmap (fmap (Np.cast dt))) by done.
  apply (list_lookup_total_fmap (Np.cast dt)).
  by rewrite well_shaped_lookup.
Qed.

Lemma direct_step_spec (self : SupplyChain) (hazard : list date)
    (exposure : list exposure_row) (ys : list Z) (sel : list nat) (cntry : Z)
    (d d' : Np.array2) (codes codes' : list string) (code : string) :
  direct_step self hazard exposure ys sel cntry (d, codes) = Ok (d', codes') ->
  alpha3_of_numeric cntry = Some code ->
  direct_shape ys d -> NoDup sel ->
  codes' = codes ++ [resolve self code] /\
  direct_shape ys d' /\ Np.ncols d' = Np.ncols d /\
  exists r, cntry_pos self !! resolve self code = Some r /\
    start r < stop r /\
    forall y, y < length ys ->
      (forall s, s ∈ sel ->
         Np.get2 d' y (s + start r)
           = PrimFloat.add (Np.get2 d y (s + start r))
               (contribution self hazard exposure cntry y (s + start r))) /\
      (forall q, (forall s, s ∈ sel -> q <> s + start r) ->
         Np.get2 d' y q = Np.get2 d y q).
Proof.
  intros Hrun Ha (Hdt & Hnr & Hwd) Hnd. unfold direct_step in Hrun.
  rewrite Ha in Hrun. simpl in Hrun. fold (resolve self code) in Hrun.
  unfold dict_getitem in Hrun.
  destruct (cntry_pos self !! resolve self code) as [r|] eqn:Hr; [|done].
  simpl in Hrun. unfold range_first in Hrun.
  destruct (start r <? stop r) eqn:Hne; [|done]. apply Nat.ltb_lt in Hne.
  simpl in Hrun.
  set (pos := (fun s => s + start r) <$> sel) in *.
  destruct (Np.take_rows (mriot_data self) pos) as [rowsel|] eqn:Htr; [|done].
  simpl in Hrun. apply take_rows_ok in Htr as (Hrdt & Hrn & Hrows).
  fold (country_impact hazard exposure cntry) in Hrun.
  set (imp := country_impact hazard exposure cntry) in *.
  destruct (Np.reshape _ _ _) as [imp2|] eqn:Hre; [|done]. simpl in Hrun.
  apply reshape_repeat in Hre as (Hidt & Hinr & Hinc & Hiw & Hival).
  assert (length (Np.sum_axis1 rowsel) = length sel) as Hpl.
  { unfold Np.sum_axis1. rewrite length_fmap. unfold pos in Hrn.
    by rewrite length_fmap in Hrn. }
  destruct (binop2_row_vector PrimFloat.mul imp2 Np.float64 (Np.sum_axis1 rowsel))
    as (t & Ht & Htr & Htc & Htw & Htv); [lia | done |].
  rewrite Ht in Hrun. simpl in Hrun.
  destruct (Np.iadd_cols d pos _) as [d2|] eqn:Hadd; [|done]. simpl in Hrun.
  simplify_eq.
  assert (NoDup pos) as Hndp.
  { unfold pos. apply NoDup_fmap_2; [|done]. intros x y ?. lia. }
  apply iadd_cols_spec in Hadd as (Hd2t & Hd2r & Hd2c & Hd2w & Hlt & Hval);
    [| done | by apply well_shaped_astype
     | unfold Np.nrows in *; simpl; rewrite length_fmap; lia
     | simpl; unfold pos; rewrite length_fmap; lia | done].
  split; [done|]. split; [repeat split; congruence|]. split; [done|].
  exists r. split; [done|]. split; [done|].
  intros y Hy. destruct (Hval y ltac:(lia)) as [Hin Hout]. split.
  - intros s Hs. apply list_elem_of_lookup in Hs as [k Hk].
    assert (pos !! k = Some (s + start r)) as Hpk
      by (unfold pos; by rewrite list_lookup_fmap, Hk).
    rewrite (Hin k _ Hpk). rewrite Hdt. simpl. f_equal.
    pose proof (lookup_lt_Some _ _ _ Hk) as Hkl.
    rewrite get2_astype by (done || lia). simpl.
    rewrite Htv by lia. rewrite Hidt. simpl.
    rewrite Hival by lia. unfold contribution. do 2 f_equal.
    unfold Np.sum_axis1.
    rewrite (list_lookup_total_fmap (Np.sum (Np.dtype2 rowsel)))
      by (unfold Np.nrows in Hrn; unfold pos in Hrn; rewrite length_fmap in Hrn; lia).
    destruct (Hrows k _ Hpk) as [_ ->]. by rewrite Hrdt.
  - intros q Hq. apply Hout. unfold pos. intros Hin'.
    apply list_elem_of_fmap in Hin' as (s & -> & Hs). by apply (Hq s).
Qed.

Lemma direct_step_codes (self : SupplyChain) (hazard : list date)
    (exposure : list exposure_row) (ys : list Z) (sel : list nat) (cntry : Z)
    (d d' : Np.array2) (codes codes' : list string) :
  direct_step self hazard exposure ys sel cntry (d, codes) = Ok (d', codes') ->
  exists code, alpha3_of_numeric cntry = Some code /\
    codes' = codes ++ [resolve self code] /\
    is_Some (cntry_pos self !! resolve self code).
Proof.
  intros Hrun. unfold direct_step in Hrun.
  destruct (alpha3_of_numeric cntry) as [code|]; [|done]. simpl in Hrun.
  fold (resolve self code) in Hrun. unfold dict_getitem in Hrun.
  destruct (cntry_pos self !! resolve self code) as [r|] eqn:Hr; [|done].
  simpl in Hrun. destruct (range_first r); [|done]. simpl in Hrun.
  destruct (Np.take_rows _ _); [|done]. simpl in Hrun.
  destruct (Np.reshape _ _ _); [|done]. simpl in Hrun.
  destruct (Np.binop2 _ _ _); [|done]. simpl in Hrun.
  destruct (Np.iadd_cols _ _ _); [|done]. simpl in Hrun. simplify_eq.
  exists code. split; [done|]. split; [done|]. rewrite Hr. by eexists.
Qed.

Lemma resolve_unmapped (self : SupplyChain) (code : string) :
  code ∉ countries_iso3 self -> resolve self code = "ROW".
Proof. intros H. unfold resolve. by rewrite bool_decide_false. Qed.

Lemma get2_zeros2 (dt : Np.dtype) (r c y p : nat) :
  Np.get2 (Np.zeros2 dt r c) y p = PrimFloat.zero.
Proof.
  unfold Np.get2, Np.zeros2, Np.zeros. simpl.
  destruct (decide (y < r)) as [Hy|Hy].
  - rewrite lookup_total_replicate_2 by done.
    destruct (decide (p < c)) as [Hp|Hp].
    + by rewrite lookup_total_replicate_2.
    + rewrite list_lookup_total_alt.
      rewrite (proj1 (lookup_replicate_None _ _ _)); [done | lia].
  - rewrite (list_lookup_total_alt (replicate r _)).
    rewrite (proj1 (lookup_replicate_None _ _ _)); [done | lia].
Qed.

Lemma direct_shape_zeros2 (ys : list Z) (c : nat) :
  direct_shape ys (Np.zeros2 Np.float64 (length ys) c).
Proof.
  split; [done|]. split; [|apply well_shaped_zeros2].
  unfold Np.nrows. simpl. by rewrite length_replicate.
Qed.

Lemma direct_loop_codes (self : SupplyChain) (hazard : list date)
    (exposure : list exposure_row) (ys : list Z) (sel : list nat) (regids : list Z)
    (d0 d : Np.array2) (codes : list string) :
  for_enumerate regids
    (fun _ cntry st => direct_step self hazard exposure ys sel cntry st) (d0, [])
    = Ok (d, codes) ->
  forall i c code, regids !! i = Some c -> alpha3_of_numeric c = Some code ->
    codes !! i = Some (resolve self code) /\
    is_Some (cntry_pos self !! resolve self code).
Proof.
  intros Hrun. unfold for_enumerate in Hrun.
  pose (P := fun (k : nat) (st : Np.array2 * list string) =>
               length st.2 = k /\
               forall i c code, i < k -> regids !! i = Some c ->
                 alpha3_of_numeric c = Some code ->
                 st.2 !! i = Some (resolve self code) /\
                 is_Some (cntry_pos self !! resolve self code)).
  assert (P (0 + length regids) (d, codes)) as [_ HP].
  { apply (for_enumerate_from_partial P _ _ _ _ _ Hrun).
    - split; [done | intros; lia].
    - intros k c [d1 codes1] [d2 codes2] Hc Hstep [Hlen HP]. simpl in *.
      apply direct_step_codes in Hstep as (code & Ha & -> & Hpos).
      unfold P. simpl.
      split; [rewrite length_app; simpl; lia|].
      intros i c' code' Hi Hc' Ha'. destruct (decide (i = k)) as [->|Hne].
      + rewrite Hc in Hc'. simplify_eq. split; [|done].
        rewrite lookup_app_r by lia. by rewrite Nat.sub_diag.
      + rewrite lookup_app_l by lia. apply (HP i c'); (lia || done). }
  intros i c code Hi Ha. apply (HP i c code); [|done|done].
  simpl. by eapply lookup_lt_Some.
Qed.

Lemma foldl_booked_filter {A : Type} (b : A -> bool) (f : float -> A -> float)
    (acc : float) (l : list A) :
  foldl (fun acc x => if b x then f acc x else acc) acc l
    = foldl f acc (List.filter b l).
Proof.
  revert acc. induction l as [|x l IH]; intros acc; simpl; [done|].
  destruct (b x); simpl; apply IH.
Qed.

Lemma direct_loop_accumulated (self : SupplyChain) (hazard : list date)
    (exposure : list exposure_row) (ys : list Z) (sel : list nat) (regids : list Z)
    (r0 c0 : nat) (d : Np.array2) (codes : list string) :
  for_enumerate regids
    (fun _ cntry st => direct_step self hazard exposure ys sel cntry st)
    (Np.zeros2 Np.float64 r0 c0, []) = Ok (d, codes) ->
  r0 = length ys -> NoDup sel ->
  direct_shape ys d /\
  forall y q, y < length ys ->
    Np.get2 d y q = accumulated self hazard exposure sel regids y q.
Proof.
  intros Hloop -> Hnd. unfold for_enumerate in Hloop.
  pose (P := fun (k : nat) (st : Np.array2 * list string) =>
               direct_shape ys st.1 /\
               forall y q, y < length ys ->
                 Np.get2 st.1 y q
                   = accumulated self hazard exposure sel (take k regids) y q).
  assert (P (0 + length regids) (d, codes)) as [Hsh Hval].
  { apply (for_enumerate_from_partial P _ _ _ _ _ Hloop).
    - split; [apply direct_shape_zeros2|]. intros y q _. simpl. apply get2_zeros2.
    - intros k c [d1 codes1] [d2 codes2] Hc Hstep [Hsh Hval]. simpl in *.
      destruct (direct_step_codes _ _ _ _ _ _ _ _ _ _ Hstep) as (code & Ha & _ & _).
      destruct (direct_step_spec _ _ _ _ _ _ _ _ _ _ _ Hstep Ha Hsh Hnd)
        as (_ & Hsh2 & _ & rng & Hrng & _ & Hstepval).
      split; [done|]. intros y q Hy.
      rewrite (take_S_r _ _ _ Hc). unfold accumulated. rewrite foldl_app. simpl.
      fold (accumulated self hazard exposure sel (take k regids) y q).
      rewrite <- (Hval y q Hy). destruct (Hstepval y Hy) as [Hin Hout].
      unfold booked_at. rewrite Ha, Hrng.
      destruct (decide (q ∈ (fun s => s + start rng) <$> sel)) as [Hq|Hq].
      + rewrite bool_decide_true by done.
        apply list_elem_of_fmap in Hq as (s & -> & Hs). by apply Hin.
      + rewrite bool_decide_false by done. apply Hout.
        intros s Hs ->. apply Hq. apply list_elem_of_fmap. by exists s. }
  simpl in *. split; [done|]. intros y q Hy.
  rewrite (Hval y q Hy). by rewrite firstn_all.
Qed.

(** C7 (calc_sector_direct_impact): when the calculation returns, every
    country of the exposure whose ISO3 code is not among the countries of
    the table is booked under 'ROW', whose row range the table has; and
    the contributions are added to the direct-impact matrix: for any
    exposure, every entry is the sum, from zero and in the order of the
    exposure, of the contributions of the countries booked at its column;
    every unmapped country is booked at every selected row of 'ROW'; so
    where two countries are booked at a column, whatever other countries
    the exposure has, the entry is the contribution of the first plus the
    contribution of the second. *)
Theorem unmapped_countries_fall_back_to_ROW (hazard : list date)
    (exposure : list exposure_row) (sector_type : string)
    (selected_subsec : option (list nat)) (self self' : SupplyChain) :
  calc_sector_direct_impact hazard exposure sector_type selected_subsec self = Ok self' ->
  let regids := unique (region_id <$> exposure) in
  exists codes d,
    cntry_dir_imp self' = Some codes /\ direct_impact self' = Some d /\
    (forall i c code,
       regids !! i = Some c -> alpha3_of_numeric c = Some code ->
       code ∉ countries_iso3 self ->
       codes !! i = Some "ROW" /\ is_Some (cntry_pos self !! "ROW")) /\
    (forall sel,
       select_subsec sector_type selected_subsec = Ok sel -> NoDup sel ->
       (forall y q, y < Np.nrows d ->
          Np.get2 d y q = accumulated self hazard exposure sel regids y q) /\
       (forall r c code s,
          cntry_pos self !! "ROW" = Some r ->
          alpha3_of_numeric c = Some code -> code ∉ countries_iso3 self -> s ∈ sel ->
          booked_at self sel c (s + start r) = true) /\
       (forall c1 c2 y q, y < Np.nrows d ->
          List.filter (fun c => booked_at self sel c q) regids = [c1; c2] ->
          Np.get2 d y q
            = PrimFloat.add
                (PrimFloat.add PrimFloat.zero (contribution self hazard exposure c1 y q))
                (contribution self hazard exposure c2 y q))).
Proof.
  intros Hrun regids. unfold calc_sector_direct_impact in Hrun.
  destruct (select_subsec sector_type selected_subsec) as [sel0|]; [|done].
  simpl in Hrun. fold regids in Hrun.
  set (ys := Np.unique_sorted (year <$> hazard)) in *.
  destruct (for_enumerate regids _ _) as [[d codes]|] eqn:Hloop; [|done].
  simpl in Hrun. simplify_eq. simpl.
  exists codes, d. split; [done|]. split; [done|]. split.
  - intros i c code Hi Ha Hnot.
    destruct (direct_loop_codes _ _ _ _ _ _ _ _ _ Hloop i c code Hi Ha) as [Hc Hp].
    by rewrite (resolve_unmapped _ _ Hnot) in Hc, Hp.
  - intros sel [= <-] Hnd.
    destruct (direct_loop_accumulated _ _ _ _ _ _ _ _ _ _ Hloop eq_refl Hnd)
      as [(_ & Hnr & _) Hacc].
    split; [|split].
    + intros y q Hy. apply Hacc. by rewrite <- Hnr.
    + intros r c code s Hr Ha Hnot Hs. unfold booked_at.
      rewrite Ha, (resolve_unmapped _ _ Hnot), Hr.
      apply bool_decide_eq_true. apply list_elem_of_fmap. by exists s.
    + intros c1 c2 y q Hy Hfilter. rewrite Hacc by (by rewrite <- Hnr).
      unfold accumulated. rewrite foldl_booked_filter, Hfilter. done.
Qed.

(** ** Normalisation of the exposure *)

Lemma eqb_zero_inv (x : float) :
  PrimFloat.eqb x PrimFloat.zero = true -> exists s, Prim2SF x = S754_zero s.
Proof.
  rewrite FloatAxioms.eqb_spec. change (Prim2SF PrimFloat.zero) with (S754_zero false).
  destruct (Prim2SF x) as [s|s| |s m e]; try destruct s; cbn; try congruence;
    intros _; eauto.
Qed.

Lemma div_zero_zero_nan (x y : float) :
  PrimFloat.eqb x PrimFloat.zero = true -> PrimFloat.eqb y PrimFloat.zero = true ->
  PrimFloat.is_nan (PrimFloat.div x y) = true.
Proof.
  intros Hx Hy. apply eqb_zero_inv in Hx as [sx Hx]. apply eqb_zero_inv in Hy as [sy Hy].
  unfold PrimFloat.is_nan. rewrite FloatAxioms.eqb_spec, FloatAxioms.div_spec, Hx, Hy.
  reflexivity.
Qed.

(** C8 (calc_sector_direct_impact, the normalisation), as the code has
    it: the normalisation of a country's exposure never fails; it divides
    every value by the total, and when the total is zero the quotient of
    a zero value is NaN. *)
Theorem normalize_zero_total (rows : list exposure_row) :
  let total := pd_sum (value <$> rows) in
  PrimFloat.eqb total PrimFloat.zero = true ->
  length (normalize rows) = length rows /\
  forall i r, rows !! i = Some r ->
    exists r', normalize rows !! i = Some r' /\
      region_id r' = region_id r /\
      value r' = PrimFloat.div (value r) total /\
      (PrimFloat.eqb (value r) PrimFloat.zero = true ->
       PrimFloat.is_nan (value r') = true).
Proof.
  intros total Hz. unfold normalize. fold total. rewrite length_fmap.
  split; [done|]. intros i r Hr. eexists. rewrite list_lookup_fmap, Hr. simpl.
  split; [done|]. simpl. split; [done|]. split; [done|].
  intros Hv. by apply div_zero_zero_nan.
Qed.

(** ** An approach that is not one of the three *)

Lemma io_switch_unknown (self : SupplyChain) (io : string) :
  io <> "leontief" -> io <> "ghosh" -> io <> "eeioa" -> io_switch self !! io = None.
Proof.
  intros H1 H2 H3. unfold io_switch.
  rewrite !lookup_insert_ne by done. by rewrite lookup_singleton_ne.
Qed.

Lemma coefficients_of_other (self : SupplyChain) (io : string) :
  io <> "leontief" -> io <> "eeioa" ->
  coefficients_of io self = coefficients_of "ghosh" self.
Proof.
  intros H1 H2. unfold coefficients_of.
  rewrite !bool_decide_false;
    [done | |]; rewrite !elem_of_cons, elem_of_nil; by intros [?|[?|[]]].
Qed.

Lemma for_enumerate_from_cons {A St : Type} (i0 : nat) (x : A) (l : list A)
    (body : nat -> A -> St -> res St) (st : St) :
  for_enumerate_from i0 (x :: l) body st
    = body i0 x st ≫= for_enumerate_from (S i0) l body.
Proof. reflexivity. Qed.

Lemma indirect_step_unknown (self : SupplyChain) (io : string) (d inverse : Np.array2)
    (year_i : nat) (st : Np.array2 * Np.array3) (row : Np.vec) :
  io <> "leontief" -> io <> "ghosh" -> io <> "eeioa" ->
  Np.rows d !! year_i = Some row ->
  indirect_step self io d inverse year_i st = Raise KeyError.
Proof.
  intros H1 H2 H3 Hrow. unfold indirect_step. destruct st as [ind rs].
  unfold getitem. rewrite Hrow. simpl. unfold dict_getitem.
  by rewrite io_switch_unknown.
Qed.

Lemma get2_identity (n i j : nat) :
  i < n -> j < n ->
  Np.get2 (Np.identity n) i j = if i =? j then PrimFloat.one else PrimFloat.zero.
Proof.
  intros Hi Hj. unfold Np.get2, Np.identity. simpl.
  rewrite (list_lookup_total_correct _ i
             ((fun j => if i =? j then PrimFloat.one else PrimFloat.zero) <$> seq 0 n)).
  2:{ rewrite list_lookup_fmap, lookup_seq_lt by done. done. }
  apply list_lookup_total_correct.
  rewrite list_lookup_fmap, lookup_seq_lt by done. done.
Qed.

(** C10 (calc_indirect_impact): a string other than 'leontief' and
    'eeioa' takes the row-normalised branch, so its coefficient matrix is
    the one of 'ghosh'.  On a square table with one total production per
    row that matrix is built whatever the string: its entry (i, j) is the
    flow (i, j) divided by [total_production[i]], stored in [float32], and
    zero when that total production is not positive; the identity minus
    the coefficients is formed and handed to the inversion.  Nothing
    checks the string before the loop over the years: a failure of the
    inversion is the error raised, with no years the call returns and
    stores these coefficients, the inverse and the string, and for a
    string that is not 'ghosh' either the first pass of the loop raises
    the key-lookup error. *)
Theorem unrecognized_approach (io : string) (self : SupplyChain) :
  io <> "leontief" -> io <> "eeioa" ->
  coefficients_of io self = coefficients_of "ghosh" self /\
  (valid_mriot self ->
   exists c m,
     coefficients_of io self = Ok c /\
     (forall i j, i < Np.nrows (mriot_data self) -> j < Np.ncols (mriot_data self) ->
        let flow := Np.get2 (mriot_data self) i j in
        let production := total_prod self !!! i in
        Np.get2 c i j
          = if PrimFloat.ltb PrimFloat.zero production
            then Np.cast Np.float32 (PrimFloat.div flow production)
            else PrimFloat.zero) /\
     Np.binop2 PrimFloat.sub (Np.identity (Np.nrows (mriot_data self))) c = Ok m /\
     (forall i j, i < Np.nrows (mriot_data self) -> j < Np.ncols (mriot_data self) ->
        Np.get2 m i j
          = PrimFloat.sub (if i =? j then PrimFloat.one else PrimFloat.zero)
                          (Np.get2 c i j)) /\
     forall d ys,
       direct_impact self = Some d -> years self = Some ys ->
       (linalg_inv m = None -> calc_indirect_impact io self = Raise LinAlgError) /\
       (forall inv, linalg_inv m = Some inv ->
          (ys = [] ->
           calc_indirect_impact io self
             = Ok (set_indirect (Np.zeros_like Np.float32 d)
                     (Np.mean_axis0 (Np.zeros_like Np.float32 d))
                     (IoData c (Np.astype Np.float32 inv)
                        (Np.zeros3 Np.float32 (Np.nrows (mriot_data self))
                           (Np.ncols (mriot_data self)) 0) io) self)) /\
          (io <> "ghosh" -> ys <> [] -> 0 < Np.nrows d ->
           calc_indirect_impact io self = Raise KeyError))).
Proof.
  intros H1 H2. split; [by apply coefficients_of_other|].
  intros Hv. pose proof Hv as (_ & Hsq & _).
  assert (io ∉ ["leontief"; "eeioa"]) as Hio.
  { rewrite !elem_of_cons, elem_of_nil. by intros [?|[?|[]]]. }
  destruct (coefficients_of_rows io self Hv Hio) as (c & Hc & (_ & Hcc & Hcr & Hcw) & Hval).
  destruct (binop2_same PrimFloat.sub (Np.identity (Np.nrows (mriot_data self))) c)
    as (m & Hm & Hmdt & Hmr & Hmc & Hmval); [| | apply well_shaped_identity | done |].
  { rewrite Hcr. unfold Np.nrows at 1. simpl. by rewrite length_fmap, length_seq. }
  { simpl. lia. }
  assert (Np.nrows (Np.identity (Np.nrows (mriot_data self))) = Np.nrows (mriot_data self))
    as Hir by (unfold Np.nrows at 1; simpl; by rewrite length_fmap, length_seq).
  exists c, m. split; [done|]. split; [exact Hval|]. split; [done|]. split.
  { intros i j Hi Hj. rewrite Hmval by (rewrite ?Hir; simpl; lia).
    rewrite Hmdt. simpl. by rewrite get2_identity by lia. }
  intros d ys Hd Hys. unfold calc_indirect_impact.
  rewrite Hc. simpl. rewrite Hm. simpl. split.
  - intros ->. done.
  - intros inv ->. simpl. rewrite Hd, Hys. simpl. split.
    + intros ->. done.
    + intros H3 Hne Hrows. destruct ys as [|y ys]; [done|].
      unfold for_enumerate. rewrite for_enumerate_from_cons.
      destruct (Np.rows d !! 0) as [row|] eqn:Hr.
      * by rewrite (indirect_step_unknown _ _ _ _ _ _ row).
      * apply lookup_ge_None in Hr. unfold Np.nrows in Hrows. lia.
Qed.

(** * Further properties of the workflow *)

(** ** The EEIOA rule and the slices of the other years *)

(** X1 (_eeioa_calc): on a square table, for the year [year_i], the entry
    [risk_structure[row, c, year_i]] becomes the direct intensity of [row]
    times the entry [(row, c)] of the inverse, times the total production of
    [c], as stored in the risk structure. *)
Theorem eeioa_propagation (self : SupplyChain) (direct_intensity : Np.vec)
    (inverse : Np.array2) (risk_structure : Np.array3) (year_i : nat) :
  valid_propagation self direct_intensity inverse risk_structure year_i ->
  exists risk_structure',
    _eeioa_calc self direct_intensity inverse risk_structure year_i = Ok risk_structure' /\
    forall row c, row < Np.nrows (mriot_data self) -> c < Np.nrows (mriot_data self) ->
      Np.get3 risk_structure' row c year_i
        = Np.cast (Np.dtype3 risk_structure)
            (PrimFloat.mul
               (PrimFloat.mul (direct_intensity !!! row) (Np.get2 inverse row c))
               (total_prod self !!! c)).
Proof.
  intros Hvp.
  destruct (eeioa_calc_total self direct_intensity inverse risk_structure year_i Hvp)
    as (rs' & Hrun & _ & _ & Hval).
  exists rs'. split; [done|]. intros row c Hrow Hc.
  rewrite Hval by done. by rewrite decide_True.
Qed.

(** X2 (_leontief_calc, _ghosh_calc, _eeioa_calc): whichever rule the
    switch selects, a call that returns keeps the element type and the
    dimensions of the risk structure and leaves the slice of every year
    other than [year_i] as it was. *)
Theorem propagation_keeps_other_years (self : SupplyChain) (io : string)
    (calc : Np.vec -> Np.array2 -> Np.array3 -> nat -> res Np.array3)
    (direct_intensity : Np.vec) (inverse : Np.array2)
    (risk_structure risk_structure' : Np.array3) (year_i : nat) :
  io_switch self !! io = Some calc ->
  calc direct_intensity inverse risk_structure year_i = Ok risk_structure' ->
  Np.dtype3 risk_structure' = Np.dtype3 risk_structure /\
  Np.dim2 risk_structure' = Np.dim2 risk_structure /\
  Np.dim3 risk_structure' = Np.dim3 risk_structure /\
  length (Np.planes risk_structure') = length (Np.planes risk_structure) /\
  forall y, y <> year_i -> Np.slice3 y risk_structure' = Np.slice3 y risk_structure.
Proof.
  intros Hio Hrun.
  destruct (calc_frame _ _ _ _ _ _ _ _ Hio Hrun) as [(H1 & H2 & H3 & H4) Hfr].
  by repeat split.
Qed.

(** ** The intensity loop on a short total production *)

(** X3 (calc_indirect_impact, the intensity loop): the loop runs over the
    pairs of [zip], so the intensity vector has the length of the year's
    direct impact, and a row past the end of the total production keeps the
    intensity zero. *)
Theorem direct_intensity_past_total_prod (direct_impact_yearly total_prod : Np.vec)
    (idx : nat) :
  length total_prod <= idx -> idx < length direct_impact_yearly ->
  length (direct_intensity_of direct_impact_yearly total_prod)
    = length direct_impact_yearly /\
  direct_intensity_of direct_impact_yearly total_prod !! idx = Some PrimFloat.zero.
Proof.
  intros Hge Hlt. split; [apply length_direct_intensity_of|].
  unfold direct_intensity_of, loop_enumerate.
  pose (P := fun (k : nat) (di : Np.vec) =>
               length di = length direct_impact_yearly /\
               forall j, k <= j -> j < length direct_impact_yearly ->
                         di !! j = Some PrimFloat.zero).
  match goal with |- ?l !! _ = _ =>
    assert (P (0 + length (zip direct_impact_yearly total_prod)) l) as [_ HP] end.
  { apply loop_enumerate_from_inv.
    - split; [unfold Np.zeros; by rewrite length_replicate|].
      intros j _ Hj. unfold Np.zeros. by apply lookup_replicate_2.
    - intros k [a b] di Hk [Hlen HP]. simpl in *. split.
      + destruct (PrimFloat.ltb PrimFloat.zero b); by rewrite length_insert.
      + intros j Hj Hjl.
        destruct (PrimFloat.ltb PrimFloat.zero b);
          (rewrite list_lookup_insert_ne by lia); apply HP; lia. }
  apply HP; [|done]. simpl. rewrite length_zip. lia.
Qed.

(** ** The selection of the subsectors *)

Lemma built_in_subsec_pos_unknown (sector_type : string) :
  sector_type <> "service" -> sector_type <> "manufacturing" ->
  sector_type <> "agriculture" -> sector_type <> "mining" ->
  built_in_subsec_pos !! sector_type = None.
Proof.
  intros H1 H2 H3 H4. unfold built_in_subsec_pos.
  rewrite !lookup_insert_ne by done. by rewrite lookup_singleton_ne.
Qed.

Lemma built_in_subsec_pos_inv (sector_type : string) (r : range) :
  built_in_subsec_pos !! sector_type = Some r ->
  r = Range 26 56 \/ r = Range 4 23 \/ r = Range 0 1 \/ r = Range 3 4.
Proof.
  unfold built_in_subsec_pos. intros H.
  apply lookup_insert_Some in H as [[_ <-]|[_ H]]; [by left|].
  apply lookup_insert_Some in H as [[_ <-]|[_ H]]; [right; by left|].
  apply lookup_insert_Some in H as [[_ <-]|[_ H]]; [right; right; by left|].
  apply lookup_singleton_Some in H as [_ <-]. right; right; by right.
Qed.

(** X4 (calc_sector_direct_impact, the selection of the subsectors): an
    empty selection counts as no selection; a selection that is not empty
    makes the sector type irrelevant; without a selection a sector type
    that is none of the four presets raises the key-lookup error, whatever
    the other arguments; and every preset gives distinct positions below
    56. *)
Theorem subsector_selection (hazard : list date) (exposure : list exposure_row)
    (self : SupplyChain) :
  (forall sector_type,
     calc_sector_direct_impact hazard exposure sector_type (Some []) self
       = calc_sector_direct_impact hazard exposure sector_type None self) /\
  (forall sector_type sector_type' s l,
     calc_sector_direct_impact hazard exposure sector_type (Some (s :: l)) self
       = calc_sector_direct_impact hazard exposure sector_type' (Some (s :: l)) self) /\
  (forall sector_type,
     sector_type <> "service" -> sector_type <> "manufacturing" ->
     sector_type <> "agriculture" -> sector_type <> "mining" ->
     calc_sector_direct_impact hazard exposure sector_type None self = Raise KeyError) /\
  (forall sector_type positions,
     select_subsec sector_type None = Ok positions ->
     NoDup positions /\ Forall (fun s => s < 56) positions).
Proof.
  split; [done|]. split; [done|]. split.
  - intros st H1 H2 H3 H4. unfold calc_sector_direct_impact, select_subsec. simpl.
    unfold dict_getitem. by rewrite built_in_subsec_pos_unknown.
  - intros st positions. unfold select_subsec. simpl. unfold dict_getitem.
    destruct (built_in_subsec_pos !! st) as [r|] eqn:Hr; [|done]. simpl.
    intros [= <-]. unfold range_list. split; [apply NoDup_seq|].
    apply Forall_forall. intros s Hs. apply list_elem_of_In in Hs. apply in_seq in Hs.
    apply built_in_subsec_pos_inv in Hr as [-> | [-> | [-> | ->]]]; simpl in *; lia.
Qed.

(** ** The countries of the table and the years of the hazard *)

Lemma unique_from_complete {A : Type} `{EqDecision A} (seen l : list A) (x : A) :
  x ∈ l -> x ∈ seen \/ x ∈ unique_from seen l.
Proof.
  revert seen. induction l as [|y l IH]; intros seen Hx; [by apply elem_of_nil in Hx|].
  simpl. apply elem_of_cons in Hx as [->|Hx].
  - destruct (decide (y ∈ seen)); [by left | right; by left].
  - destruct (decide (y ∈ seen)) as [Hy|Hy]; [by apply IH|].
    destruct (IH (y :: seen) Hx) as [Hs|Hu]; [|right; by right].
    apply elem_of_cons in Hs as [->|Hs]; [right; by left | by left].
Qed.


Lemma elem_of_unique {A : Type} `{EqDecision A} (l : list A) (x : A) :
  x ∈ unique l <-> x ∈ l.
Proof.
  unfold unique. split.
  - intros Hx. by apply (unique_from_spec [] l).
  - intros Hx. destruct (unique_from_complete [] l x Hx) as [H0|H0]; [|done].
    by apply elem_of_nil in H0.
Qed.



Lemma elem_of_insert_sorted (x y : Z) (l : list Z) :
  y ∈ Np.insert_sorted x l <-> y = x \/ y ∈ l.
Proof.
  induction l as [|z l IH]; simpl.
  - rewrite list_elem_of_singleton, elem_of_nil. tauto.
  - destruct (x <? z)%Z eqn:Hlt; [by rewrite elem_of_cons|].
    destruct (x =? z)%Z eqn:Heq.
    + apply Z.eqb_eq in Heq as ->. rewrite elem_of_cons. tauto.
    + rewrite !elem_of_cons, IH. tauto.
Qed.

Lemma insert_sorted_sorted (x : Z) (l : list Z) :
  StronglySorted Z.lt l -> StronglySorted Z.lt (Np.insert_sorted x l).
Proof.
  induction 1 as [|z l Hs IH Hall]; simpl.
  - repeat constructor.
  - destruct (x <? z)%Z eqn:Hlt.
    + apply Z.ltb_lt in Hlt. constructor; [by constructor|].
      constructor; [done|]. eapply Forall_impl; [exact Hall|]. intros; simpl in *; lia.
    + destruct (x =? z)%Z eqn:Heq; [by constructor|].
      apply Z.ltb_ge in Hlt. apply Z.eqb_neq in Heq.
      constructor; [done|]. apply Forall_forall. intros y Hy.
      apply elem_of_insert_sorted in Hy as [->|Hy]; [lia|].
      by apply (proj1 (Forall_forall _ _) Hall).
Qed.

Lemma unique_sorted_spec (l : list Z) :
  StronglySorted Z.lt (Np.unique_sorted l) /\
  forall y, y ∈ Np.unique_sorted l <-> y ∈ l.
Proof.
  unfold Np.unique_sorted. induction l as [|x l [IHs IHm]]; simpl.
  - split; [constructor | done].
  - split; [by apply insert_sorted_sorted|].
    intros y. rewrite elem_of_insert_sorted, IHm, elem_of_cons. tauto.
Qed.

(** X6 (calc_sector_direct_impact, the years): when the calculation
    returns, the years it stores are strictly ascending and are exactly the
    years in which the hazard has an event. *)
Theorem years_ascending (hazard : list date) (exposure : list exposure_row)
    (sector_type : string) (selected_subsec : option (list nat))
    (self self' : SupplyChain) :
  calc_sector_direct_impact hazard exposure sector_type selected_subsec self = Ok self' ->
  exists ys, years self' = Some ys /\
    StronglySorted Z.lt ys /\
    forall y, y ∈ ys <-> exists d, d ∈ hazard /\ year d = y.
Proof.
  intros Hrun. unfold calc_sector_direct_impact in Hrun.
  destruct (select_subsec sector_type selected_subsec) as [sel|]; [|done].
  simpl in Hrun.
  destruct (for_enumerate _ _ _) as [[d codes]|]; [|done]. simpl in Hrun.
  simplify_eq. simpl. eexists. split; [done|].
  destruct (unique_sorted_spec (year <$> hazard)) as [Hs Hm]. split; [done|].
  intros y. rewrite Hm, list_elem_of_fmap. split.
  - intros (d0 & -> & Hd). by exists d0.
  - intros (d0 & Hd & <-). by exists d0.
Qed.

(** ** The countries of the exposure *)

Lemma direct_loop_resolved (self : SupplyChain) (hazard : list date)
    (exposure : list exposure_row) (ys : list Z) (sel : list nat) (regids : list Z)
    (d0 d : Np.array2) (codes : list string) :
  for_enumerate regids
    (fun _ cntry st => direct_step self hazard exposure ys sel cntry st) (d0, [])
    = Ok (d, codes) ->
  length codes = length regids /\
  forall i c, regids !! i = Some c ->
    exists code rng, alpha3_of_numeric c = Some code /\
      codes !! i = Some (resolve self code) /\
      cntry_pos self !! resolve self code = Some rng.
Proof.
  intros Hrun. unfold for_enumerate in Hrun.
  pose (P := fun (k : nat) (st : Np.array2 * list string) =>
               length st.2 = k /\
               forall i c, i < k -> regids !! i = Some c ->
                 exists code rng, alpha3_of_numeric c = Some code /\
                   st.2 !! i = Some (resolve self code) /\
                   cntry_pos self !! resolve self code = Some rng).
  assert (P (0 + length regids) (d, codes)) as [Hlen HP].
  { apply (for_enumerate_from_partial P _ _ _ _ _ Hrun).
    - split; [done | intros; lia].
    - intros k c [d1 codes1] [d2 codes2] Hc Hstep [Hlen HP]. simpl in *.
      apply direct_step_codes in Hstep as (code & Ha & -> & [rng Hpos]).
      unfold P. simpl. split; [rewrite length_app; simpl; lia|].
      intros i c' Hi Hc'. destruct (decide (i = k)) as [->|Hne].
      + rewrite Hc in Hc'. simplify_eq. exists code, rng. split; [done|].
        split; [|done]. rewrite lookup_app_r by lia. by rewrite Nat.sub_diag.
      + destruct (HP i c') as (code' & rng' & ? & ? & ?); [lia | done |].
        exists code', rng'. split; [done|]. split; [|done].
        by rewrite lookup_app_l by lia. }
  split; [done|]. intros i c Hi. apply HP; [|done]. simpl. by eapply lookup_lt_Some.
Qed.

(** X7 (calc_sector_direct_impact, the loop over the countries): when the
    calculation returns, [cntry_dir_imp] has one code for each distinct
    region id of the exposure, in the order in which the region ids first
    appear; every region id of the exposure has an ISO entry, and its code
    is the alpha-3 code of that entry when the table lists it and 'ROW'
    otherwise; the position index has the recorded code. *)
Theorem recorded_country_codes (hazard : list date) (exposure : list exposure_row)
    (sector_type : string) (selected_subsec : option (list nat))
    (self self' : SupplyChain) :
  calc_sector_direct_impact hazard exposure sector_type selected_subsec self = Ok self' ->
  let regids := unique (region_id <$> exposure) in
  exists codes,
    cntry_dir_imp self' = Some codes /\
    length codes = length regids /\
    (forall i c, regids !! i = Some c ->
       exists code, alpha3_of_numeric c = Some code /\
         codes !! i
           = Some (if bool_decide (code ∈ countries_iso3 self) then code else "ROW") /\
         forall recorded, codes !! i = Some recorded ->
                          is_Some (cntry_pos self !! recorded)) /\
    (forall r, r ∈ exposure -> is_Some (alpha3_of_numeric (region_id r))).
Proof.
  intros Hrun regids. unfold calc_sector_direct_impact in Hrun.
  destruct (select_subsec sector_type selected_subsec) as [sel|]; [|done].
  simpl in Hrun. fold regids in Hrun.
  destruct (for_enumerate regids _ _) as [[d codes]|] eqn:Hloop; [|done].
  simpl in Hrun. simplify_eq. simpl.
  destruct (direct_loop_resolved _ _ _ _ _ _ _ _ _ Hloop) as [Hlen Hres].
  exists codes. split; [done|]. split; [done|]. split.
  - intros i c Hi. destruct (Hres i c Hi) as (code & rng & Ha & Hc & Hp).
    exists code. split; [done|]. split; [done|].
    intros recorded Hrec. rewrite Hc in Hrec. simplify_eq. by eexists.
  - intros r Hr.
    assert (region_id r ∈ regids) as Hin.
    { unfold regids. apply elem_of_unique, list_elem_of_fmap. by exists r. }
    apply list_elem_of_lookup in Hin as [i Hi].
    destruct (Hres i _ Hi) as (code & _ & Ha & _). by eexists.
Qed.

Lemma unique_cons {A : Type} `{EqDecision A} (x : A) (l : list A) :
  unique (x :: l) = x :: unique_from [x] l.
Proof.
  unfold unique. simpl. destruct (decide (x ∈ [])) as [H0|_]; [|done].
  by apply elem_of_nil in H0.
Qed.

(** X8 (calc_sector_direct_impact, the first country): with the subsectors
    selected, the country of the first exposure row stops the calculation
    with [AttributeError] when its region id has no ISO entry, with
    [KeyError] when the position index has neither its code nor, for a
    country the table does not list, 'ROW', and with [IndexError] when its
    row range is empty or a selected subsector lies past the last row of
    the table. *)
Theorem first_country_errors (hazard : list date) (r : exposure_row)
    (exposure : list exposure_row) (sector_type : string)
    (selected_subsec : option (list nat)) (sel : list nat) (self : SupplyChain) :
  select_subsec sector_type selected_subsec = Ok sel ->
  let run := calc_sector_direct_impact hazard (r :: exposure) sector_type
               selected_subsec self in
  (alpha3_of_numeric (region_id r) = None -> run = Raise AttributeError) /\
  (forall code,
     alpha3_of_numeric (region_id r) = Some code ->
     let recorded := if bool_decide (code ∈ countries_iso3 self) then code else "ROW" in
     (cntry_pos self !! recorded = None -> run = Raise KeyError) /\
     (forall rng, cntry_pos self !! recorded = Some rng ->
        (stop rng <= start rng -> run = Raise IndexError) /\
        (forall s, start rng < stop rng -> s ∈ sel ->
                   Np.nrows (mriot_data self) <= s + start rng ->
                   run = Raise IndexError))).
Proof.
  intros Hsel run. subst run. unfold calc_sector_direct_impact. rewrite Hsel. simpl.
  rewrite ?fmap_cons, unique_cons. unfold for_enumerate.
  rewrite for_enumerate_from_cons.
  set (ys := Np.unique_sorted (year <$> hazard)).
  set (d0 := Np.zeros2 Np.float64 (length ys) _).
  assert (forall e, direct_step self hazard (r :: exposure) ys sel (region_id r) (d0, [])
                    = Raise e ->
                    (direct_step self hazard (r :: exposure) ys sel (region_id r) (d0, [])
                     ≫= for_enumerate_from 1 (unique_from [region_id r] (region_id <$> exposure))
                          (fun _ cntry st =>
                             direct_step self hazard (r :: exposure) ys sel cntry st))
                    ≫= (fun '(direct_impact, cntry_dir_imp) =>
                          Ok (set_direct ys cntry_dir_imp direct_impact
                                (Np.mean_axis0 direct_impact) self))
                    = Raise e) as Hraise.
  { intros e ->. done. }
  split.
  - intros Ha. apply Hraise. unfold direct_step. by rewrite Ha.
  - intros code Ha.
    set (recorded := if bool_decide (code ∈ countries_iso3 self) then code else "ROW").
    split.
    + intros Hpos. apply Hraise. unfold direct_step. rewrite Ha. simpl.
      fold recorded. unfold dict_getitem. by rewrite Hpos.
    + intros rng Hpos. split.
      * intros Hempty. apply Hraise. unfold direct_step. rewrite Ha. simpl.
        fold recorded. unfold dict_getitem. rewrite Hpos. simpl.
        unfold range_first. by rewrite (proj2 (Nat.ltb_ge _ _) Hempty).
      * intros s Hne Hs Hout. apply Hraise. unfold direct_step. rewrite Ha. simpl.
        fold recorded. unfold dict_getitem. rewrite Hpos. simpl.
        unfold range_first. rewrite (proj2 (Nat.ltb_lt _ _) Hne). simpl.
        unfold Np.take_rows. rewrite (mapM_None_2 _ _); [done|].
        apply Exists_exists. exists (s + start rng). split.
        -- apply list_elem_of_fmap. by exists s.
        -- apply lookup_ge_None. unfold Np.nrows in Hout. lia.
Qed.

(** ** The shape and the support of the direct impact *)

(** X9 (calc_sector_direct_impact, the direct-impact matrix): when the
    calculation returns for distinct subsector positions, the direct impact
    is a [float64] matrix with one row per year and one column per country
    and sector, and an entry is zero unless its column is a selected
    subsector of the row range under which some country of the exposure is
    booked. *)
Theorem direct_impact_shape_and_support (hazard : list date)
    (exposure : list exposure_row) (sector_type : string)
    (selected_subsec : option (list nat)) (sel : list nat)
    (self self' : SupplyChain) :
  calc_sector_direct_impact hazard exposure sector_type selected_subsec self = Ok self' ->
  select_subsec sector_type selected_subsec = Ok sel -> NoDup sel ->
  exists d ys,
    direct_impact self' = Some d /\ years self' = Some ys /\
    Np.dtype2 d = Np.float64 /\ Np.nrows d = length ys /\
    Np.ncols d = length (countries_iso3 self) * length (sectors self) /\
    well_shaped d /\
    forall y q, y < Np.nrows d ->
      (forall r code rng s,
         r ∈ exposure -> alpha3_of_numeric (region_id r) = Some code ->
         cntry_pos self
           !! (if bool_decide (code ∈ countries_iso3 self) then code else "ROW") = Some rng ->
         s ∈ sel -> q <> s + start rng) ->
      Np.get2 d y q = PrimFloat.zero.
Proof.
  intros Hrun Hsel Hnd. unfold calc_sector_direct_impact in Hrun.
  rewrite Hsel in Hrun. simpl in Hrun.
  set (regids := unique (region_id <$> exposure)) in *.
  set (ys := Np.unique_sorted (year <$> hazard)) in *.
  set (W := length (countries_iso3 self) * length (sectors self)) in *.
  destruct (for_enumerate regids _ _) as [[d codes]|] eqn:Hloop; [|done].
  simpl in Hrun. simplify_eq. simpl. exists d, ys. split; [done|]. split; [done|].
  pose (P := fun (k : nat) (st : Np.array2 * list string) =>
               direct_shape ys st.1 /\ Np.ncols st.1 = W /\
               forall y q, y < length ys ->
                 (forall i c code rng s,
                    i < k -> regids !! i = Some c -> alpha3_of_numeric c = Some code ->
                    cntry_pos self !! resolve self code = Some rng ->
                    s ∈ sel -> q <> s + start rng) ->
                 Np.get2 st.1 y q = PrimFloat.zero).
  assert (P (0 + length regids) (d, codes)) as ((Hdt & Hnr & Hws) & Hnc & Hzero).
  { unfold for_enumerate in Hloop.
    apply (for_enumerate_from_partial P _ _ _ _ _ Hloop).
    - split; [apply direct_shape_zeros2|]. split; [done|].
      intros y q _ _. apply get2_zeros2.
    - intros k c [d1 codes1] [d2 codes2] Hc Hstep (Hsh & Hnc & Hzero). simpl in *.
      destruct (direct_step_codes _ _ _ _ _ _ _ _ _ _ Hstep) as (code & Ha & _ & _).
      destruct (direct_step_spec _ _ _ _ _ _ _ _ _ _ _ Hstep Ha Hsh Hnd)
        as (_ & Hsh2 & Hnc2 & rng & Hrng & _ & Hval).
      unfold P. simpl. split; [done|]. split; [lia|].
      intros y q Hy Hq. destruct (Hval y Hy) as [_ Hout].
      rewrite Hout.
      + apply Hzero; [done|]. intros i c' code' rng' s Hi. apply Hq. lia.
      + intros s Hs. apply (Hq k c code rng s); (lia || done). }
  simpl in *. split; [done|]. split; [done|]. split; [done|]. split; [done|].
  intros y q Hy Hq. apply Hzero; [lia|].
  intros i c code rng s _ Hi Ha Hrng Hs.
  assert (c ∈ regids) as Hin by (by eapply list_elem_of_lookup_2).
  apply elem_of_unique, list_elem_of_fmap in Hin as (r & -> & Hr).
  by apply (Hq r code rng s).
Qed.

(** ** The order of the calls *)

Lemma bdim_cases (m n : nat) :
  ((m = n \/ m = 1 \/ n = 1) /\ exists k, Np.bdim m n = Ok k) \/
  (~ (m = n \/ m = 1 \/ n = 1) /\ Np.bdim m n = Raise ValueError).
Proof.
  unfold Np.bdim. destruct (m =? n) eqn:H1.
  { apply Nat.eqb_eq in H1. left. split; [by left | by eexists]. }
  destruct (m =? 1) eqn:H2.
  { apply Nat.eqb_eq in H2. left. split; [right; by left | by eexists]. }
  destruct (n =? 1) eqn:H3.
  { apply Nat.eqb_eq in H3. left. split; [right; by right | by eexists]. }
  apply Nat.eqb_neq in H1, H2, H3. right. split; [lia | done].
Qed.

(** X10 (calc_total_impact): the call raises [AttributeError] exactly when
    the indirect or the direct impact has not been computed; with both
    present it raises [ValueError] exactly when their shapes cannot be
    broadcast (a dimension differs and is 1 in neither), and returns
    otherwise. *)
Theorem total_impact_outcomes (self : SupplyChain) :
  (calc_total_impact self = Raise AttributeError
   <-> indirect_impact self = None \/ direct_impact self = None) /\
  (forall ind dir,
     indirect_impact self = Some ind -> direct_impact self = Some dir ->
     let fits (m n : nat) := m = n \/ m = 1 \/ n = 1 in
     let compatible := fits (Np.nrows ind) (Np.nrows dir) /\
                       fits (Np.ncols ind) (Np.ncols dir) in
     (compatible <-> exists self', calc_total_impact self = Ok self') /\
     (~ compatible <-> calc_total_impact self = Raise ValueError)).
Proof.
  unfold calc_total_impact. split.
  - destruct (indirect_impact self) as [ind|]; simpl; [|split; [by left | done]].
    destruct (direct_impact self) as [dir|]; simpl; [|split; [by right | done]].
    unfold Np.binop2.
    destruct (bdim_cases (Np.nrows ind) (Np.nrows dir)) as [[_ [r ->]]|[_ ->]]; simpl;
      [|split; [done | by intros [|]]].
    destruct (bdim_cases (Np.ncols ind) (Np.ncols dir)) as [[_ [c ->]]|[_ ->]]; simpl;
      split; (done || by intros [|]).
  - intros ind dir -> ->. simpl. unfold Np.binop2.
    destruct (bdim_cases (Np.nrows ind) (Np.nrows dir)) as [[Hr [r ->]]|[Hr ->]]; simpl.
    + destruct (bdim_cases (Np.ncols ind) (Np.ncols dir)) as [[Hc [c ->]]|[Hc ->]]; simpl.
      * split; split; try done.
        -- intros _. by eexists.
        -- intros Hn. exfalso. by apply Hn.
      * split; split; try done.
        -- by intros [_ H2].
        -- by intros [s ?].
        -- by intros _ [_ H2].
    + split; split; try done.
      * by intros [H1 _].
      * by intros [s ?].
      * by intros _ [H1 _].
Qed.


(** X12 (calc_indirect_impact): without a direct impact, or without years,
    the call never returns, whatever the approach; when the coefficients
    are built and the inversion succeeds, the error is [AttributeError]. *)
Theorem indirect_impact_needs_direct (io : string) (self : SupplyChain) :
  direct_impact self = None \/ years self = None ->
  (forall self', calc_indirect_impact io self <> Ok self') /\
  (forall c m inv,
     coefficients_of io self = Ok c ->
     Np.binop2 PrimFloat.sub (Np.identity (Np.nrows (mriot_data self))) c = Ok m ->
     linalg_inv m = Some inv ->
     calc_indirect_impact io self = Raise AttributeError).
Proof.
  intros Hmiss. unfold calc_indirect_impact. split.
  - intros self'.
    destruct (coefficients_of io self) as [c|]; [|done]. simpl.
    destruct (Np.binop2 _ _ c) as [m|]; [|done]. simpl.
    destruct (linalg_inv m) as [inv|]; [|done]. simpl.
    destruct (direct_impact self) as [d|]; [|done]. simpl.
    destruct (years self) as [ys|]; [|done]. by destruct Hmiss.
  - intros c m inv -> Hm Hinv. simpl. rewrite Hm. simpl. rewrite Hinv. simpl.
    destruct (direct_impact self) as [d|]; [|done]. simpl.
    destruct (years self) as [ys|]; [|done]. by destruct Hmiss.
Qed.

(** ** The shapes of the results *)

Lemma assign_length (dt : Np.dtype) (n : nat) (v v' : Np.vec) :
  Np.assign dt n v = Ok v' -> length v' = n.
Proof.
  unfold Np.assign. destruct (length v =? n) eqn:Hn.
  - apply Nat.eqb_eq in Hn. intros [= <-]. by rewrite length_fmap.
  - destruct (length v =? 1) eqn:H1; [|done]. intros [= <-].
    rewrite length_fmap. unfold Np.stretch. rewrite Hn.
    destruct v as [|x [|y v]]; try done. by rewrite length_replicate.
Qed.

Lemma set_row_shape (i : nat) (v : Np.vec) (a a' : Np.array2) :
  Np.set_row i v a = Ok a' ->
  Np.dtype2 a' = Np.dtype2 a /\ Np.ncols a' = Np.ncols a /\
  Np.nrows a' = Np.nrows a /\ (well_shaped a -> well_shaped a').
Proof.
  unfold Np.set_row. destruct (i <? Np.nrows a); [|done].
  destruct (Np.assign _ _ v) as [v'|] eqn:Hv; [|done]. simpl. intros [= <-].
  unfold Np.nrows. simpl. rewrite length_insert. repeat split; try done.
  intros Hw. apply well_shaped_put_row; [by eapply assign_length | by destruct a].
Qed.

Lemma set_col_shape (j : nat) (v : Np.vec) (a a' : Np.array2) :
  Np.set_col j v a = Ok a' ->
  Np.dtype2 a' = Np.dtype2 a /\ Np.ncols a' = Np.ncols a /\
  Np.nrows a' = Np.nrows a /\ (well_shaped a -> well_shaped a').
Proof.
  unfold Np.set_col. destruct (j <? Np.ncols a); [|done].
  destruct (Np.assign _ _ v) as [v'|] eqn:Hv; [|done]. simpl. intros [= <-].
  unfold Np.nrows. simpl. rewrite length_imap. repeat split; try done.
  intros Hw. apply well_shaped_put_col. by destruct a.
Qed.

Lemma coefficients_of_shape (io : string) (self : SupplyChain) (c : Np.array2) :
  coefficients_of io self = Ok c ->
  Np.dtype2 c = Np.float32 /\ Np.ncols c = Np.ncols (mriot_data self) /\
  Np.nrows c = Np.nrows (mriot_data self) /\ well_shaped c.
Proof.
  unfold coefficients_of. intros Hrun.
  pose (P := fun (_ : nat) (a : Np.array2) =>
               Np.dtype2 a = Np.float32 /\ Np.ncols a = Np.ncols (mriot_data self) /\
               Np.nrows a = Np.nrows (mriot_data self) /\ well_shaped a).
  assert (P 0 (Np.zeros_like Np.float32 (mriot_data self))) as H0
    by apply coefficients_shape_zeros.
  assert (forall (set : nat -> Np.vec -> Np.array2 -> res Np.array2),
            (forall i v a a', set i v a = Ok a' ->
               Np.dtype2 a' = Np.dtype2 a /\ Np.ncols a' = Np.ncols a /\
               Np.nrows a' = Np.nrows a /\ (well_shaped a -> well_shaped a')) ->
            forall i (x : Np.vec) s s',
              (p ← getitem (total_prod self) i;
               if PrimFloat.ltb PrimFloat.zero p
               then set i ((fun y => PrimFloat.div y p) <$> x) s
               else set i [PrimFloat.zero] s) = Ok s' ->
              P i s -> P (S i) s') as Hstep.
  { intros set Hset i x s s' Hb (H1 & H2 & H3 & H4).
    destruct (getitem (total_prod self) i) as [p|]; [|done]. simpl in Hb.
    destruct (PrimFloat.ltb PrimFloat.zero p);
      apply Hset in Hb as (? & ? & ? & Hw); (split; [congruence|]);
      (split; [congruence|]); (split; [congruence|]); by apply Hw. }
  destruct (bool_decide (io ∈ ["leontief"; "eeioa"])).
  - apply (for_enumerate_from_partial P _ _ _ _ _ Hrun H0).
    intros i x s s' _ Hb HP.
    exact (Hstep Np.set_col set_col_shape _ x s s' Hb HP).
  - apply (for_enumerate_from_partial P _ _ _ _ _ Hrun H0).
    intros i x s s' _ Hb HP.
    exact (Hstep Np.set_row set_row_shape _ x s s' Hb HP).
Qed.

Lemma indirect_loop_shape (self : SupplyChain) (io : string) (d inverse : Np.array2)
    (ys : list Z) (ind0 ind : Np.array2) (rs0 rs : Np.array3) :
  for_enumerate ys
    (fun year_i _ st => indirect_step self io d inverse year_i st) (ind0, rs0)
    = Ok (ind, rs) ->
  Np.dtype2 ind = Np.dtype2 ind0 /\ Np.ncols ind = Np.ncols ind0 /\
  Np.nrows ind = Np.nrows ind0 /\ (well_shaped ind0 -> well_shaped ind).
Proof.
  intros Hrun. unfold for_enumerate in Hrun.
  apply (for_enumerate_from_partial
           (fun _ (st : Np.array2 * Np.array3) =>
              Np.dtype2 st.1 = Np.dtype2 ind0 /\ Np.ncols st.1 = Np.ncols ind0 /\
              Np.nrows st.1 = Np.nrows ind0 /\ (well_shaped ind0 -> well_shaped st.1))
           _ _ _ _ _ Hrun); [done|].
  intros k yr [ind1 rs1] [ind2 rs2] _ Hstep (H1 & H2 & H3 & H4). simpl in *.
  unfold indirect_step in Hstep.
  destruct (getitem (Np.rows d) k); [|done]. simpl in Hstep.
  destruct (dict_getitem (io_switch self) io) as [calc|]; [|done]. simpl in Hstep.
  destruct (calc _ inverse rs1 k) as [rs'|]; [|done]. simpl in Hstep.
  destruct (Np.set_row k _ ind1) as [ind'|] eqn:Hset; [|done]. simpl in Hstep.
  simplify_eq. apply set_row_shape in Hset as (? & ? & ? & Hw).
  split; [congruence|]. split; [congruence|]. split; [congruence|].
  intros Hws. by apply Hw, H4.
Qed.

(** X13 (calc_indirect_impact, the results): when the calculation returns,
    the indirect impact is a [float32] matrix of the shape of the direct
    impact; the risk structure is a [float32] array with the rows and the
    columns of the table and one slice per year; the coefficients are a
    [float32] matrix of the shape of the table; the inverse is stored in
    [float32]; the approach is stored as given; and the table, the years
    and the direct impact are as before. *)
Theorem indirect_impact_shapes (io : string) (self self' : SupplyChain)
    (d : Np.array2) (ys : list Z) :
  calc_indirect_impact io self = Ok self' ->
  direct_impact self = Some d -> years self = Some ys ->
  exists ind iod,
    indirect_impact self' = Some ind /\ io_data self' = Some iod /\
    Np.dtype2 ind = Np.float32 /\ Np.nrows ind = Np.nrows d /\ Np.ncols ind = Np.ncols d /\
    Np.dtype3 (risk_structure iod) = Np.float32 /\
    length (Np.planes (risk_structure iod)) = Np.nrows (mriot_data self) /\
    Np.dim2 (risk_structure iod) = Np.ncols (mriot_data self) /\
    Np.dim3 (risk_structure iod) = length ys /\
    Np.dtype2 (coefficients iod) = Np.float32 /\
    Np.nrows (coefficients iod) = Np.nrows (mriot_data self) /\
    Np.ncols (coefficients iod) = Np.ncols (mriot_data self) /\
    Np.dtype2 (inverse iod) = Np.float32 /\
    io_approach iod = io /\
    mriot_data self' = mriot_data self /\ total_prod self' = total_prod self /\
    years self' = years self /\ direct_impact self' = direct_impact self.
Proof.
  intros Hrun Hd Hys. unfold calc_indirect_impact in Hrun.
  destruct (coefficients_of io self) as [c|] eqn:Hc; [|done]. simpl in Hrun.
  destruct (Np.binop2 _ _ c) as [m|]; [|done]. simpl in Hrun.
  destruct (linalg_inv m) as [inv|]; [|done]. simpl in Hrun.
  rewrite Hd, Hys in Hrun. simpl in Hrun.
  destruct (for_enumerate ys _ _) as [[ind rs]|] eqn:Hloop; [|done].
  simpl in Hrun. simplify_eq. simpl.
  destruct (indirect_loop_shape _ _ _ _ _ _ _ _ _ Hloop) as (H1 & H2 & H3 & _).
  destruct (indirect_loop_spec _ _ _ _ _ _ _ _ _ Hloop) as [(S1 & S2 & S3 & S4) _].
  apply coefficients_of_shape in Hc as (C1 & C2 & C3 & _).
  simpl in *. rewrite length_replicate in S4.
  unfold Np.nrows in H3. simpl in H3. rewrite length_replicate in H3.
  exists ind. eexists. split; [done|]. split; [done|]. simpl.
  by repeat split.
Qed.

(** ** A total production shorter than the table *)

Lemma for_enumerate_from_raise {A St : Type} (P : nat -> St -> Prop)
    (l : list A) (body : nat -> A -> St -> res St) (i0 : nat) (st : St)
    (k : nat) (e : exn) :
  k < length l ->
  P i0 st ->
  (forall i x s, i < k -> l !! i = Some x -> P (i0 + i) s ->
                 exists s', body (i0 + i) x s = Ok s' /\ P (S (i0 + i)) s') ->
  (forall x s, l !! k = Some x -> P (i0 + k) s -> body (i0 + k) x s = Raise e) ->
  for_enumerate_from i0 l body st = Raise e.
Proof.
  revert i0 st k. induction l as [|x l IH]; intros i0 st k Hk HP Hstep Hlast; simpl in *.
  - lia.
  - destruct k as [|k].
    + rewrite <- (Nat.add_0_r i0) at 1. by rewrite (Hlast x st eq_refl); [|rewrite Nat.add_0_r].
    + destruct (Hstep 0 x st) as (s' & Hb & HP'); [lia | done | by rewrite Nat.add_0_r |].
      rewrite Nat.add_0_r in Hb, HP'. rewrite Hb. simpl.
      apply (IH (S i0) s' k); [lia | done | |].
      * intros i y s Hi Hy Hs. specialize (Hstep (S i) y s).
        replace (i0 + S i) with (S i0 + i) in Hstep by lia. apply Hstep; [lia | done | done].
      * intros y s Hy Hs. specialize (Hlast y s Hy).
        replace (i0 + S k) with (S i0 + k) in Hlast by lia. by apply Hlast.
Qed.

(** X14 (calc_indirect_impact, the coefficient loops): on a table whose
    rows all have the declared number of columns, a total production with
    fewer entries than the table has columns (for [leontief] and [eeioa])
    or rows (for every other approach) makes the coefficient loop raise
    [IndexError] at the first column or row without a total production,
    and so does the whole calculation: nothing is inverted or stored. *)
Theorem short_total_prod_raises (io : string) (self : SupplyChain) :
  well_shaped (mriot_data self) ->
  length (total_prod self)
    < (if bool_decide (io ∈ ["leontief"; "eeioa"])
       then Np.ncols (mriot_data self) else Np.nrows (mriot_data self)) ->
  coefficients_of io self = Raise IndexError /\
  calc_indirect_impact io self = Raise IndexError.
Proof.
  intros Hw Hlt.
  assert (coefficients_of io self = Raise IndexError) as Hc.
  { unfold coefficients_of.
    pose (P := fun (_ : nat) (a : Np.array2) =>
                 Np.ncols a = Np.ncols (mriot_data self) /\
                 Np.nrows a = Np.nrows (mriot_data self)).
    assert (P 0 (Np.zeros_like Np.float32 (mriot_data self))) as H0.
    { destruct (coefficients_shape_zeros (mriot_data self)) as (_ & ? & ? & _). done. }
    destruct (bool_decide (io ∈ ["leontief"; "eeioa"])).
    - unfold for_enumerate.
      apply (for_enumerate_from_raise P _ _ 0 _ (length (total_prod self)));
        [by rewrite length_T_rows | done | |].
      + intros i x s Hi Hx [Hnc Hnr]. simpl.
        destruct (lookup_lt_is_Some_2 (total_prod self) i Hi) as [p Hp].
        unfold getitem. rewrite Hp. simpl.
        assert (i < Np.ncols s) as His by lia.
        rewrite T_rows_lookup in Hx by lia. injection Hx as <-.
        destruct (PrimFloat.ltb PrimFloat.zero p).
        * rewrite set_col_ok; [| done | by rewrite length_fmap, length_column, Hnr].
          eexists. split; [done|]. split; [done|].
          unfold Np.nrows. simpl. by rewrite length_imap.
        * rewrite set_col_scalar_ok by done.
          eexists. split; [done|]. split; [done|].
          unfold Np.nrows. simpl. by rewrite length_imap.
      + intros x s _ _. simpl. unfold getitem.
        by rewrite (lookup_ge_None_2 (total_prod self) (length (total_prod self))).
    - unfold for_enumerate.
      apply (for_enumerate_from_raise P _ _ 0 _ (length (total_prod self)));
        [done | done | |].
      + intros i x s Hi Hx [Hnc Hnr]. simpl.
        destruct (lookup_lt_is_Some_2 (total_prod self) i Hi) as [p Hp].
        unfold getitem. rewrite Hp. simpl.
        assert (i < Np.nrows s) as His by lia.
        assert (length x = Np.ncols s) as Hlx.
        { rewrite Hnc. apply (Forall_lookup_1 _ _ i x Hw Hx). }
        destruct (PrimFloat.ltb PrimFloat.zero p).
        * rewrite set_row_ok; [| done | by rewrite length_fmap].
          eexists. split; [done|]. split; [done|].
          unfold Np.nrows. simpl. by rewrite length_insert.
        * rewrite set_row_scalar_ok by done.
          eexists. split; [done|]. split; [done|].
          unfold Np.nrows. simpl. by rewrite length_insert.
      + intros x s _ _. simpl. unfold getitem.
        by rewrite (lookup_ge_None_2 (total_prod self) (length (total_prod self))). }
  split; [done|]. unfold calc_indirect_impact. by rewrite Hc.
Qed.

(** ** The three calculations in order *)

Lemma direct_loop_shape (self : SupplyChain) (hazard : list date)
    (exposure : list exposure_row) (ys : list Z) (sel : list nat)
    (regids : list Z) (d0 d : Np.array2) (codes0 codes : list string) :
  for_enumerate regids
    (fun _ cntry st => direct_step self hazard exposure ys sel cntry st) (d0, codes0)
    = Ok (d, codes) ->
  NoDup sel -> direct_shape ys d0 ->
  direct_shape ys d /\ Np.ncols d = Np.ncols d0.
Proof.
  intros Hloop Hnd Hsh0. unfold for_enumerate in Hloop.
  apply (for_enumerate_from_partial
           (fun _ (st : Np.array2 * list string) =>
              direct_shape ys st.1 /\ Np.ncols st.1 = Np.ncols d0)
           _ _ _ _ _ Hloop); [done|].
  intros k c [d1 codes1] [d2 codes2] _ Hstep [Hsh Hnc]. simpl in *.
  destruct (direct_step_codes _ _ _ _ _ _ _ _ _ _ Hstep) as (code & Ha & _ & _).
  destruct (direct_step_spec _ _ _ _ _ _ _ _ _ _ _ Hstep Ha Hsh Hnd)
    as (_ & Hsh2 & Hnc2 & _).
  split; [done | congruence].
Qed.

(** X15 (calc_sector_direct_impact, calc_indirect_impact, calc_total_impact
    in this order): on a square table with one total production per row and
    one column per country and sector, once the direct step has returned
    for distinct subsector positions, the indirect step returns for each of
    the three approaches whenever the inversion succeeds with a matrix of
    the shape of the table, and the total step then returns as well; the
    total impact is a [float64] matrix with one row per year of the hazard
    and one column per row of the table, and the direct and the indirect
    impact it was added from are still stored. *)
Theorem workflow_composes (hazard : list date) (exposure : list exposure_row)
    (sector_type : string) (selected_subsec : option (list nat)) (sel : list nat)
    (io : string) (self self1 : SupplyChain) :
  valid_mriot self ->
  length (countries_iso3 self) * length (sectors self) = Np.ncols (mriot_data self) ->
  calc_sector_direct_impact hazard exposure sector_type selected_subsec self = Ok self1 ->
  select_subsec sector_type selected_subsec = Ok sel -> NoDup sel ->
  io ∈ ["leontief"; "ghosh"; "eeioa"] ->
  (forall c m,
     coefficients_of io self = Ok c ->
     Np.binop2 PrimFloat.sub (Np.identity (Np.nrows (mriot_data self))) c = Ok m ->
     exists inv, linalg_inv m = Some inv /\ well_shaped inv /\
       Np.nrows inv = Np.nrows (mriot_data self) /\
       Np.ncols inv = Np.nrows (mriot_data self)) ->
  exists self2 self3 dir ind tot,
    calc_indirect_impact io self1 = Ok self2 /\
    calc_total_impact self2 = Ok self3 /\
    direct_impact self3 = Some dir /\ indirect_impact self3 = Some ind /\
    total_impact self3 = Some tot /\
    Np.dtype2 tot = Np.float64 /\
    Np.nrows tot = length (Np.unique_sorted (year <$> hazard)) /\
    Np.ncols tot = Np.nrows (mriot_data self) /\
    forall y r, y < Np.nrows tot -> r < Np.ncols tot ->
      Np.get2 tot y r = PrimFloat.add (Np.get2 ind y r) (Np.get2 dir y r).
Proof.
  intros Hv Hcols Hrun Hsel Hnd Hio Hinv. pose proof Hv as (_ & Hsq & _).
  unfold calc_sector_direct_impact in Hrun. rewrite Hsel in Hrun. simpl in Hrun.
  set (ys := Np.unique_sorted (year <$> hazard)) in *.
  destruct (for_enumerate _ _ _) as [[d codes]|] eqn:Hloop; [|done].
  simpl in Hrun. simplify_eq.
  destruct (direct_loop_shape _ _ _ _ _ _ _ _ _ _ Hloop Hnd (direct_shape_zeros2 _ _))
    as [(Hdt & Hnr & Hwd) Hnc]. simpl in Hnc.
  destruct (coefficients_of_total io self Hv) as (c & Hc & _ & Hcc & Hcr & Hcw).
  destruct (binop2_same PrimFloat.sub (Np.identity (Np.nrows (mriot_data self))) c)
    as (m & Hm & _); [| | apply well_shaped_identity | done |].
  { rewrite Hcr. unfold Np.nrows at 1. simpl. by rewrite length_fmap, length_seq. }
  { simpl. lia. }
  destruct (Hinv c m Hc Hm) as (inv & Hi & Hwi & Hir & Hic).
  set (self1 := set_direct ys codes d (Np.mean_axis0 d) self) in *.
  assert (valid_mriot self1) as Hv1 by exact Hv.
  destruct (indirect_loop_total self1 io d (Np.astype Np.float32 inv) ys Hv1 Hio Hwd Hnr)
    as (ind & rs & Hloop2);
    [simpl; lia | by apply well_shaped_astype
     | unfold Np.nrows in *; simpl; by rewrite length_fmap | done |].
  simpl in Hloop2.
  destruct (indirect_loop_shape _ _ _ _ _ _ _ _ _ Hloop2) as (Hidt & Hinc & Hinr & Hiw).
  assert (well_shaped (Np.zeros_like Np.float32 d)) as Hz.
  { destruct (coefficients_shape_zeros d) as (_ & _ & _ & ?). done. }
  specialize (Hiw Hz).
  assert (Np.nrows (Np.zeros_like Np.float32 d) = Np.nrows d) as Hzr.
  { by destruct (coefficients_shape_zeros d) as (_ & _ & ? & _). }
  assert (Np.ncols (Np.zeros_like Np.float32 d) = Np.ncols d) as Hzc.
  { by destruct (coefficients_shape_zeros d) as (_ & ? & _ & _). }
  destruct (binop2_same PrimFloat.add ind d) as (tot & Htot & Htdt & Htr & Htc & Htv);
    [congruence | congruence | done | done |].
  eexists. eexists. exists d, ind, tot.
  split.
  { unfold calc_indirect_impact.
    change (coefficients_of io self1) with (coefficients_of io self).
    rewrite Hc. simpl. rewrite Hm. simpl. rewrite Hi. simpl. rewrite Hloop2. simpl.
    reflexivity. }
  split.
  { unfold calc_total_impact. simpl. rewrite Htot. simpl. reflexivity. }
  simpl. split; [done|]. split; [done|]. split; [done|].
  assert (Np.dtype2 tot = Np.float64) as Hf.
  { rewrite Htdt, Hdt. by destruct (Np.dtype2 ind). }
  split; [done|]. split; [congruence|]. split; [lia|].
  intros y r Hy Hr. rewrite Htv by lia. by rewrite Hf.
Qed.

(** ** A year without direct impact *)

Lemma zero_or_nan_zero : zero_or_nan PrimFloat.zero.
Proof. by vm_compute. Qed.

Lemma zero_or_nan_mul_l (x y : float) : zero_or_nan x -> zero_or_nan (PrimFloat.mul x y).
Proof.
  unfold zero_or_nan. rewrite FloatAxioms.mul_spec.
  destruct (Prim2SF x), (Prim2SF y); simpl; done.
Qed.

Lemma zero_or_nan_mul_r (x y : float) : zero_or_nan y -> zero_or_nan (PrimFloat.mul x y).
Proof.
  unfold zero_or_nan. rewrite FloatAxioms.mul_spec.
  destruct (Prim2SF x), (Prim2SF y); simpl; done.
Qed.

Lemma zero_or_nan_div (x y : float) : zero_or_nan x -> zero_or_nan (PrimFloat.div x y).
Proof.
  unfold zero_or_nan. rewrite FloatAxioms.div_spec.
  destruct (Prim2SF x), (Prim2SF y); simpl; done.
Qed.

Lemma zero_or_nan_cast (dt : Np.dtype) (x : float) : zero_or_nan x -> Np.cast dt x = x.
Proof.
  destruct dt; [|done]. unfold zero_or_nan, Np.cast, Np.astype_f32. intros H.
  rewrite <- (SF2Prim_Prim2SF x) at 2.
  destruct (Prim2SF x); simpl; done.
Qed.

Lemma zero_or_nan_maximum (x : float) :
  zero_or_nan x -> zero_or_nan (Np.maximum x PrimFloat.zero).
Proof.
  intros H. unfold Np.maximum. destruct (PrimFloat.is_nan x); [done|].
  change (PrimFloat.is_nan PrimFloat.zero) with false. cbv iota.
  destruct (PrimFloat.ltb x PrimFloat.zero); [apply zero_or_nan_zero | done].
Qed.

Lemma zero_or_nan_of_nan (x : float) : PrimFloat.is_nan x = true -> zero_or_nan x.
Proof.
  unfold PrimFloat.is_nan, zero_or_nan. rewrite FloatAxioms.eqb_spec.
  destruct (Prim2SF x) as [s|s| |s m e]; try done.
  - by destruct s.
  - unfold SFeqb. by rewrite SFcompare_refl_finite.
Qed.

Lemma zero_or_nan_intensity (impact production : float) :
  zero_or_nan impact -> zero_or_nan (intensity impact production).
Proof.
  intros H. unfold intensity. destruct (PrimFloat.ltb PrimFloat.zero production).
  - by apply zero_or_nan_div.
  - apply zero_or_nan_zero.
Qed.

Lemma add_zero_nan_to_zero (x : float) :
  zero_or_nan x -> PrimFloat.add PrimFloat.zero (Np.nan_to_zero x) = PrimFloat.zero.
Proof.
  unfold zero_or_nan, Np.nan_to_zero, PrimFloat.is_nan. intros H.
  rewrite FloatAxioms.eqb_spec.
  rewrite <- (SF2Prim_Prim2SF (PrimFloat.add _ _)).
  destruct (Prim2SF x) as [s| | |] eqn:Hx; try done.
  simpl. rewrite FloatAxioms.add_spec, Hx. by destruct s.
Qed.

Lemma nansum_zero_or_nan (dt : Np.dtype) (x : Np.vec) :
  Forall zero_or_nan x -> Np.nansum dt x = PrimFloat.zero.
Proof.
  intros H. unfold Np.nansum, Np.sum.
  induction H as [|v x Hv _ IH]; [done|].
  rewrite fmap_cons. simpl. by rewrite (add_zero_nan_to_zero v Hv), cast_zero.
Qed.

Lemma get2_slice3 (rs : Np.array3) (i j y : nat) :
  i < length (Np.planes rs) -> j < length (Np.planes rs !!! i) ->
  Np.get2 (Np.slice3 y rs) i j = Np.get3 rs i j y.
Proof.
  intros Hi Hj. unfold Np.get2, Np.get3, Np.slice3. simpl.
  rewrite (list_lookup_total_fmap (fmap (M:=list) (fun cell : Np.vec => cell !!! y))) by done.
  by rewrite (list_lookup_total_fmap (fun cell : Np.vec => cell !!! y)).
Qed.

Lemma io_switch_idle (self : SupplyChain) (io : string) :
  io ∈ ["leontief"; "ghosh"; "eeioa"] ->
  exists calc, io_switch self !! io = Some calc /\
    forall di inverse rs year_i,
      valid_propagation self di inverse rs year_i ->
      exists rs', calc di inverse rs year_i = Ok rs' /\
        same_shape3 rs rs' /\ well_shaped3 rs' /\
        (forall i j y, i < Np.nrows (mriot_data self) -> y <> year_i ->
           Np.get3 rs' i j y = Np.get3 rs i j y) /\
        ((forall i, i < Np.nrows (mriot_data self) -> zero_or_nan (di !!! i)) ->
         forall i j, i < Np.nrows (mriot_data self) -> j < Np.nrows (mriot_data self) ->
           zero_or_nan (Np.get3 rs' i j year_i)).
Proof.
  rewrite !elem_of_cons, elem_of_nil. intros [-> | [-> | [-> | []]]]; eexists;
    (split; [reflexivity|]); intros di inverse rs year_i Hvp.
  - destruct (leontief_calc_total _ _ _ _ _ Hvp) as (rs' & Hrun & Hsh & Hws & Hval).
    exists rs'. split; [done|]. split; [done|]. split; [done|]. split.
    + intros i j y Hi Hy. rewrite Hval by done. destruct (decide _) as [[_ ?]|]; done.
    + intros Hdi i j Hi Hj. rewrite Hval by done.
      destruct (decide _) as [_|Hn]; [|by destruct Hn].
      rewrite zero_or_nan_cast; by apply zero_or_nan_mul_r, zero_or_nan_mul_l, Hdi.
  - destruct (ghosh_calc_total _ _ _ _ _ Hvp) as (rs' & Hrun & Hsh & Hws & Hval).
    exists rs'. split; [done|]. split; [done|]. split; [done|]. split.
    + intros i j y Hi Hy. rewrite Hval by done. destruct (decide _) as [[_ ?]|]; done.
    + intros Hdi i j Hi Hj. rewrite Hval by done.
      destruct (decide _) as [_|Hn]; [|by destruct Hn].
      destruct Hvp as ((Hwm & Hsq & Htp) & Hld & _).
      assert (length (zip_with PrimFloat.sub (total_prod self)
                        (Np.nansum_axis0 (mriot_data self)))
              = Np.nrows (mriot_data self)) as Hlva.
      { rewrite length_zip_with. unfold Np.nansum_axis0.
        rewrite length_fmap, length_T_rows. lia. }
      assert (zero_or_nan
                (zip_with Np.maximum
                   (zip_with PrimFloat.mul di
                      (zip_with PrimFloat.sub (total_prod self)
                         (Np.nansum_axis0 (mriot_data self))))
                   (Np.zeros (length (zip_with PrimFloat.sub (total_prod self)
                                        (Np.nansum_axis0 (mriot_data self))))) !!! i)) as Hz.
      { rewrite zip_with_lookup_total.
        - rewrite zip_with_lookup_total by lia. unfold Np.zeros.
          rewrite lookup_total_replicate_2 by lia.
          by apply zero_or_nan_maximum, zero_or_nan_mul_l, Hdi.
        - rewrite length_zip_with. lia.
        - unfold Np.zeros. rewrite length_replicate. lia. }
      rewrite zero_or_nan_cast; by apply zero_or_nan_mul_l.
  - destruct (eeioa_calc_total _ _ _ _ _ Hvp) as (rs' & Hrun & Hsh & Hws & Hval).
    exists rs'. split; [done|]. split; [done|]. split; [done|]. split.
    + intros i j y Hi Hy. rewrite Hval by done. destruct (decide _) as [[_ ?]|]; done.
    + intros Hdi i j Hi Hj. rewrite Hval by done.
      destruct (decide _) as [_|Hn]; [|by destruct Hn].
      rewrite zero_or_nan_cast; by apply zero_or_nan_mul_l, zero_or_nan_mul_l, Hdi.
Qed.

(** X16 (calc_indirect_impact, a year without direct impact): on a square
    table with one total production per row, for each of the three
    approaches and an inverse of the shape of the table, when the
    calculation returns, a year in which every direct impact is zero or NaN
    has an indirect impact of exactly zero in every column: a NaN direct
    impact does not show in the indirect impact of its year. *)
Theorem year_without_direct_impact (io : string) (self self' : SupplyChain)
    (d : Np.array2) (ys : list Z) (y : nat) :
  valid_mriot self -> io ∈ ["leontief"; "ghosh"; "eeioa"] ->
  direct_impact self = Some d -> years self = Some ys ->
  well_shaped d -> Np.nrows d = length ys ->
  Np.ncols d = Np.nrows (mriot_data self) ->
  (forall c m inv,
     coefficients_of io self = Ok c ->
     Np.binop2 PrimFloat.sub (Np.identity (Np.nrows (mriot_data self))) c = Ok m ->
     linalg_inv m = Some inv ->
     well_shaped inv /\ Np.nrows inv = Np.nrows (mriot_data self) /\
     Np.ncols inv = Np.nrows (mriot_data self)) ->
  calc_indirect_impact io self = Ok self' ->
  y < length ys ->
  (forall j, j < Np.ncols d ->
     Np.get2 d y j = PrimFloat.zero \/ PrimFloat.is_nan (Np.get2 d y j) = true) ->
  exists ind, indirect_impact self' = Some ind /\
    forall j, j < Np.ncols d -> Np.get2 ind y j = PrimFloat.zero.
Proof.
  intros Hv Hio Hd Hys Hwd Hnr Hnc Hinv Hrun Hy Hidle.
  pose proof Hv as (Hwm & Hsq & Htp).
  unfold calc_indirect_impact in Hrun.
  destruct (coefficients_of io self) as [c|] eqn:Hc; [|done]. simpl in Hrun.
  destruct (Np.binop2 _ _ c) as [m|] eqn:Hm; [|done]. simpl in Hrun.
  destruct (linalg_inv m) as [inv|] eqn:Hi; [|done]. simpl in Hrun.
  destruct (Hinv c m inv eq_refl Hm Hi) as (Hwi & Hir & Hic).
  rewrite Hd, Hys in Hrun. simpl in Hrun.
  destruct (for_enumerate ys _ _) as [[ind rs]|] eqn:Hloop; [|done].
  simpl in Hrun. simplify_eq. simpl. exists ind. split; [done|].
  set (n := Np.nrows (mriot_data self)) in *.
  set (inverse := Np.astype Np.float32 inv) in *.
  set (rs0 := Np.zeros3 Np.float32 n (Np.ncols (mriot_data self)) (length ys)) in *.
  destruct (io_switch_idle self io Hio) as (calc & Hcalc & Hidl).
  pose (P := fun (k : nat) (st : Np.array2 * Np.array3) =>
               same_shape3 rs0 st.2 /\ well_shaped3 st.2 /\
               (y < k -> forall i j, i < n -> j < n -> zero_or_nan (Np.get3 st.2 i j y))).
  assert (P (0 + length ys) (ind, rs)) as (Hsh & Hws & Hzero).
  { unfold for_enumerate in Hloop.
    apply (for_enumerate_from_partial P _ _ _ _ _ Hloop).
    - unfold P. simpl. split; [apply same_shape3_refl|]. split; [|lia].
      apply Forall_lookup_2. intros i p Hp. simpl in *.
      apply lookup_replicate in Hp as [-> _]. rewrite length_replicate. split; [done|].
      apply Forall_lookup_2. intros j cell Hcell.
      apply lookup_replicate in Hcell as [-> _]. unfold Np.zeros. by rewrite length_replicate.
    - intros k yr [ind1 rs1] [ind2 rs2] Hyr Hstep (Hsh1 & Hws1 & Hz1). simpl in *.
      assert (k < length ys) as Hk by (by eapply lookup_lt_Some).
      unfold indirect_step, getitem in Hstep.
      rewrite (list_lookup_lookup_total_lt (Np.rows d) k) in Hstep
        by (unfold Np.nrows in Hnr; lia).
      simpl in Hstep. unfold dict_getitem in Hstep. rewrite Hcalc in Hstep.
      simpl in Hstep.
      destruct Hsh1 as (Hs1 & Hs2 & Hs3 & Hs4). simpl in *.
      rewrite length_replicate in Hs4.
      destruct (Hidl (direct_intensity_of (Np.rows d !!! k) (total_prod self))
                  inverse rs1 k) as (rs' & Hrs' & Hsh' & Hws' & Hframe & Hval).
      { split; [done|]. rewrite length_direct_intensity_of.
        split; [rewrite well_shaped_lookup by (done || lia); lia|].
        split; [by apply well_shaped_astype|].
        split; [unfold inverse, Np.nrows in *; simpl; by rewrite length_fmap|].
        repeat split; try done; lia. }
      rewrite Hrs' in Hstep. simpl in Hstep.
      destruct (Np.set_row k _ ind1) as [ind'|]; [|done]. simpl in Hstep.
      simplify_eq. unfold P. simpl.
      split.
      { destruct Hsh' as (Ht1 & Ht2 & Ht3 & Ht4).
        repeat split; simpl; try rewrite length_replicate; congruence. }
      split; [done|].
      intros Hyk i j Hin Hjn. destruct (decide (y = k)) as [->|Hne].
      + apply Hval; [|done | done]. intros q Hq.
        assert (q < length (Np.rows d !!! k)) as Hql
          by (rewrite well_shaped_lookup by (done || lia); lia).
        rewrite (list_lookup_total_correct _ q
                   (intensity ((Np.rows d !!! k) !!! q) (total_prod self !!! q))).
        2:{ apply direct_intensity_of_lookup; apply list_lookup_lookup_total_lt; lia. }
        apply zero_or_nan_intensity.
        destruct (Hidle q) as [Hq0|Hqn]; [lia | |].
        * unfold Np.get2 in Hq0. rewrite Hq0. apply zero_or_nan_zero.
        * by apply zero_or_nan_of_nan.
      + rewrite Hframe by done. apply Hz1; [lia | done | done]. }
  destruct (indirect_loop_spec _ _ _ _ _ _ _ _ _ Hloop) as [(Hdt & Hd2 & Hd3 & Hpl) Hrow].
  simpl in *. rewrite length_replicate in Hpl.
  intros j Hj. destruct (Hrow y Hy) as (v & Hv' & Hrowy).
  rewrite assign_same in Hv'.
  2:{ unfold Np.nansum_axis0. rewrite length_fmap, length_T_rows. simpl. lia. }
  simplify_eq. unfold Np.get2. rewrite (list_lookup_total_correct _ _ _ Hrowy).
  rewrite (list_lookup_total_fmap (Np.cast Np.float32)).
  2:{ unfold Np.nansum_axis0. rewrite length_fmap, length_T_rows. simpl. lia. }
  rewrite nansum_axis0_lookup by (simpl; lia).
  rewrite nansum_zero_or_nan; [apply cast_zero|].
  apply Forall_lookup_2. intros i x Hx.
  assert (i < length (Np.planes rs)) as Hil.
  { apply lookup_lt_Some in Hx. unfold Np.column in Hx. simpl in Hx.
    by rewrite !length_fmap in Hx. }
  apply list_lookup_total_correct in Hx. rewrite <- Hx.
  rewrite column_lookup_total by (unfold Np.nrows; simpl; by rewrite length_fmap).
  assert (length (Np.planes rs !!! i) = Np.dim2 rs) as Hlp.
  { apply (Forall_lookup_1 _ _ i _ Hws). by apply list_lookup_lookup_total_lt. }
  rewrite get2_slice3 by (done || lia).
  apply Hzero; lia.
Qed.

End Properties.

(** * The properties at the sample data *)

Lemma cntry_pos_partition_witness :
  Np.nrows (wiot_data Sample.table)
    = length (wiot_sectors Sample.table) * length (unique (wiot_iso3 Sample.table)) /\
  cntry_pos Sample.sc0 !! "ROW" = Some (Range 1 2) /\
  concat (fmap (fun iso3 => default [] (range_list <$> cntry_pos Sample.sc0 !! iso3))
               (countries_iso3 Sample.sc0))
    = seq 0 (Np.nrows (mriot_data Sample.sc0)).
Proof.
  assert (Np.nrows (wiot_data Sample.table)
          = length (wiot_sectors Sample.table) * length (unique (wiot_iso3 Sample.table)))
    as H by reflexivity.
  split; [exact H|].
  destruct (cntry_pos_partition Sample.table init H) as [Hpos Hcat].
  split; [exact (Hpos 1 "ROW" eq_refl) | exact Hcat].
Defined.

Lemma direct_intensity_per_row_witness :
  PrimFloat.leb 0%float 0%float = true /\
  direct_intensity_of [100%float; 7%float] (total_prod Sample.sc0_idle) !! 1
    = Some PrimFloat.zero.
Proof.
  split; [reflexivity|].
  apply (direct_intensity_per_row Sample.sc0_idle Sample.one_year 0 1
           [100%float; 7%float] 7%float 0%float eq_refl eq_refl eq_refl).
  reflexivity.
Defined.

Lemma valid_mriot_sample : valid_mriot Sample.sc0.
Proof. repeat split; repeat constructor. Qed.

Lemma coefficients_normalized_witness :
  valid_mriot Sample.sc0 /\
  exists c, coefficients_of "leontief" Sample.sc0 = Ok c /\
            Np.get2 c 0 1 = 0.25%float.
Proof.
  split; [exact valid_mriot_sample|].
  destruct (coefficients_normalized "leontief" Sample.sc0 valid_mriot_sample)
    as (c & Hc & Hval).
  exists c. split; [exact Hc|].
  destruct (Hval 0 1) as [Hcol _]; [vm_compute; lia | vm_compute; lia |].
  destruct Hcol as [Heq _]; [apply list_elem_of_here|].
  rewrite Heq. reflexivity.
Defined.

Lemma valid_propagation_sample :
  valid_propagation Sample.sc0 [5%float; 0%float] Sample.inverse
    (Np.zeros3 Np.float32 2 2 1) 0.
Proof.
  split; [exact valid_mriot_sample|].
  repeat split; try (vm_compute; lia); repeat constructor.
Qed.

Lemma leontief_propagation_witness :
  valid_propagation Sample.sc0 [5%float; 0%float] Sample.inverse
    (Np.zeros3 Np.float32 2 2 1) 0 /\
  exists risk_structure',
    _leontief_calc Sample.sc0 [5%float; 0%float] Sample.inverse
      (Np.zeros3 Np.float32 2 2 1) 0 = Ok risk_structure' /\
    Np.get3 risk_structure' 0 1 0 = 25%float.
Proof.
  split; [exact valid_propagation_sample|].
  destruct (leontief_propagation Sample.sc0 [5%float; 0%float] Sample.inverse
              (Np.zeros3 Np.float32 2 2 1) 0 valid_propagation_sample)
    as (demand & degr & rs' & Hd & Hdd & Hrun & Hval).
  exists rs'. split; [exact Hrun|].
  destruct (Hval 0) as (Hdem & _ & Hdegr & Hrs); [vm_compute; lia|].
  rewrite Hrs by (vm_compute; lia). rewrite Hdegr, Hdem. reflexivity.
Defined.

(** C2, as claimed, fails where a flow is NaN: the code counts it as zero in
    the row sum, the plain row sum is NaN. *)
Lemma leontief_demand_counterexample :
  leontief_demand Sample.sc0_nan <> spec_leontief_demand Sample.sc0_nan.
Proof.
  intros H.
  apply (f_equal (fun r => match r with
                           | Ok (x :: _) => PrimFloat.is_nan x
                           | _ => false
                           end)) in H.
  vm_compute in H. discriminate H.
Qed.

Lemma ghosh_propagation_witness :
  valid_propagation Sample.sc0 [5%float; 0%float] Sample.inverse
    (Np.zeros3 Np.float32 2 2 1) 0 /\
  exists risk_structure',
    _ghosh_calc Sample.sc0 [5%float; 0%float] Sample.inverse
      (Np.zeros3 Np.float32 2 2 1) 0 = Ok risk_structure' /\
    Np.get3 risk_structure' 0 1 0 = 25%float.
Proof.
  split; [exact valid_propagation_sample|].
  destruct (ghosh_propagation Sample.sc0 [5%float; 0%float] Sample.inverse
              (Np.zeros3 Np.float32 2 2 1) 0 valid_propagation_sample)
    as (va & degr & rs' & Hva & Hdv & Hrun & Hval).
  exists rs'. split; [exact Hrun|].
  destruct (Hval 0) as (Hv & _ & Hdegr & _ & _ & _ & Hrs); [vm_compute; lia|].
  rewrite Hrs by (vm_compute; lia). rewrite Hdegr, Hv. reflexivity.
Defined.

(** C3, as claimed, fails where a flow is NaN: the code counts it as zero in
    the column sum, the plain column sum is NaN. *)
Lemma ghosh_value_added_counterexample :
  ghosh_value_added Sample.sc0_nan <> spec_ghosh_value_added Sample.sc0_nan.
Proof.
  intros H.
  apply (f_equal (fun r => match r with
                           | Ok (x :: _) => PrimFloat.is_nan x
                           | _ => false
                           end)) in H.
  vm_compute in H. discriminate H.
Qed.

Lemma direct_step_sample :
  calc_sector_direct_impact Sample.alpha3 Sample.year_set Sample.hazard Sample.exposure
    "agriculture" None Sample.sc0 = Ok Sample.sc1.
Proof. vm_compute. reflexivity. Qed.

Lemma indirect_step_sample :
  calc_indirect_impact Sample.inv2 "leontief" Sample.sc1 = Ok Sample.sc2.
Proof. vm_compute. reflexivity. Qed.

Lemma indirect_impact_is_nansum_witness :
  calc_indirect_impact Sample.inv2 "leontief" Sample.sc1 = Ok Sample.sc2 /\
  (exists self', calc_indirect_impact Sample.inv2 "leontief" Sample.sc1 = Ok self') /\
  exists ind iod,
    indirect_impact Sample.sc2 = Some ind /\ io_data Sample.sc2 = Some iod /\
    Np.get2 ind 0 1
      = Np.cast Np.float32
          (Np.sum Np.float32
             (Np.nan_to_zero <$> Np.column (Np.slice3 0 (risk_structure iod)) 1)).
Proof.
  split; [exact indirect_step_sample|].
  destruct (indirect_impact_is_nansum Sample.inv2 "leontief" Sample.sc1
              (default (Np.zeros2 Np.float64 0 0) (direct_impact Sample.sc1))
              (default [] (years Sample.sc1))
              eq_refl eq_refl eq_refl)
    as [Hvalues Hreturns].
  split.
  - apply Hreturns.
    + repeat split; repeat constructor.
    + apply list_elem_of_here.
    + repeat constructor.
    + reflexivity.
    + intros c m Hc Hm. vm_compute in Hc. injection Hc as <-.
      vm_compute in Hm. injection Hm as <-.
      eexists. split; [vm_compute; reflexivity|].
      repeat split; repeat constructor.
  - destruct (Hvalues Sample.sc2 indirect_step_sample) as (ind & iod & Hi & Hio & Hval).
    exists ind, iod. split; [exact Hi|]. split; [exact Hio|].
    apply (Hval 0 1); vm_compute; lia.
Defined.

Lemma total_impact_and_averages_witness :
  exists self' tot,
    calc_total_impact Sample.sc2 = Ok self' /\
    total_impact self' = Some tot /\
    total_aai_agg self' = Some (Np.mean_axis0 tot) /\
    Np.get2 tot 0 1
      = PrimFloat.add
          (Np.get2 (default (Np.zeros2 Np.float32 0 0) (indirect_impact Sample.sc2)) 0 1)
          (Np.get2 (default (Np.zeros2 Np.float64 0 0) (direct_impact Sample.sc2)) 0 1).
Proof.
  destruct (total_impact_and_averages Sample.alpha3 Sample.year_set Sample.inv2)
    as (Htotal & _ & _ & _).
  destruct (Htotal Sample.sc2
              (default (Np.zeros2 Np.float32 0 0) (indirect_impact Sample.sc2))
              (default (Np.zeros2 Np.float64 0 0) (direct_impact Sample.sc2))
              eq_refl eq_refl eq_refl eq_refl
              ltac:(repeat constructor) ltac:(repeat constructor))
    as (self' & tot & Hrun & Htot & _ & _ & Hval & Hdt & Hmean & _).
  exists self', tot. split; [exact Hrun|]. split; [exact Htot|].
  split; [exact Hmean|].
  rewrite Hval by (vm_compute; lia). rewrite Hdt by reflexivity. reflexivity.
Defined.

Lemma direct_step_mixed_sample :
  calc_sector_direct_impact Sample.alpha3 Sample.year_set Sample.hazard
    Sample.exposure_mixed "agriculture" None Sample.sc0 = Ok Sample.sc1_mixed.
Proof. vm_compute. reflexivity. Qed.

Lemma unmapped_countries_fall_back_to_ROW_witness :
  calc_sector_direct_impact Sample.alpha3 Sample.year_set Sample.hazard
    Sample.exposure_mixed "agriculture" None Sample.sc0 = Ok Sample.sc1_mixed /\
  cntry_dir_imp Sample.sc1_mixed = Some ["CHE"; "ROW"; "ROW"] /\
  exists d, direct_impact Sample.sc1_mixed = Some d /\
    Np.get2 d 0 1
      = PrimFloat.add
          (PrimFloat.add PrimFloat.zero
             (contribution Sample.year_set Sample.sc0 Sample.hazard
                Sample.exposure_mixed 104 0 1))
          (contribution Sample.year_set Sample.sc0 Sample.hazard
             Sample.exposure_mixed 116 0 1) /\
    Np.get2 d 0 1 = 30%float.
Proof.
  split; [exact direct_step_mixed_sample|]. split; [reflexivity|].
  destruct (unmapped_countries_fall_back_to_ROW Sample.alpha3 Sample.year_set
              Sample.hazard Sample.exposure_mixed "agriculture" None Sample.sc0
              Sample.sc1_mixed direct_step_mixed_sample)
    as (codes & d & Hcodes & Hd & _ & Hsum).
  exists d. split; [exact Hd|].
  destruct (Hsum [0] eq_refl (NoDup_singleton 0)) as (_ & _ & Htwo).
  assert (direct_impact Sample.sc1_mixed = Some d) as Hd' by exact Hd.
  vm_compute in Hd'. injection Hd' as <-.
  split; [|reflexivity].
  apply (Htwo 104%Z 116%Z 0 1); [vm_compute; lia | reflexivity].
Defined.

Lemma normalize_zero_total_witness :
  PrimFloat.eqb (pd_sum (value <$> Sample.exposure_zero)) PrimFloat.zero = true /\
  exists r', normalize Sample.exposure_zero !! 0 = Some r' /\
             PrimFloat.is_nan (value r') = true.
Proof.
  split; [reflexivity|].
  destruct (normalize_zero_total Sample.exposure_zero eq_refl) as [_ Hval].
  destruct (Hval 0 (ExposureRow 104 0%float) eq_refl) as (r' & Hr & _ & _ & Hnan).
  exists r'. split; [exact Hr | exact (Hnan eq_refl)].
Defined.

(** C8, as claimed, fails on an exposure of total value zero: the claimed
    normalisation raises, the code returns NaN values and the calculation
    of the direct impact completes. *)
Lemma normalize_counterexample :
  spec_normalize Sample.exposure_zero = Raise ZeroDivisionError /\
  Ok (normalize Sample.exposure_zero) <> spec_normalize Sample.exposure_zero /\
  exists self',
    calc_sector_direct_impact Sample.alpha3 Sample.year_set Sample.hazard
      Sample.exposure_zero "agriculture" None Sample.sc0 = Ok self'.
Proof.
  split; [reflexivity|]. split.
  - change (spec_normalize Sample.exposure_zero) with (@Raise (list exposure_row) ZeroDivisionError).
    discriminate.
  - eexists. vm_compute. reflexivity.
Qed.

Lemma unrecognized_approach_witness :
  "foo" <> "leontief" /\ "foo" <> "eeioa" /\
  coefficients_of "foo" Sample.sc1 = coefficients_of "ghosh" Sample.sc1 /\
  (exists c, coefficients_of "foo" Sample.sc1 = Ok c /\ Np.get2 c 0 1 = 0.25%float) /\
  calc_indirect_impact Sample.inv2 "foo" Sample.sc1 = Raise KeyError /\
  exists self', calc_indirect_impact Sample.inv2 "foo" Sample.sc1_no_years = Ok self'.
Proof.
  assert ("foo" <> "leontief") as H1 by discriminate.
  assert ("foo" <> "eeioa") as H2 by discriminate.
  assert ("foo" <> "ghosh") as H3 by discriminate.
  assert (valid_mriot Sample.sc1) as Hv1 by (repeat split; repeat constructor).
  assert (valid_mriot Sample.sc1_no_years) as Hv0 by (repeat split; repeat constructor).
  split; [exact H1|]. split; [exact H2|].
  destruct (unrecognized_approach Sample.inv2 "foo" Sample.sc1 H1 H2) as [Hc Hrest].
  split; [exact Hc|].
  destruct (Hrest Hv1) as (c & m & Hcoef & Hval & Hm & _ & Hrun).
  split.
  - exists c. split; [exact Hcoef|].
    rewrite (Hval 0 1) by (vm_compute; lia). reflexivity.
  - split.
    + destruct (Hrun (default (Np.zeros2 Np.float64 0 0) (direct_impact Sample.sc1))
                  (default [] (years Sample.sc1)) eq_refl eq_refl) as [_ Hinv].
      vm_compute in Hcoef. injection Hcoef as <-.
      vm_compute in Hm. injection Hm as <-.
      destruct (Hinv _ eq_refl) as [_ Hkey].
      apply Hkey; [exact H3 | discriminate | vm_compute; lia].
    + destruct (unrecognized_approach Sample.inv2 "foo" Sample.sc1_no_years H1 H2)
        as [_ Hrest0].
      destruct (Hrest0 Hv0) as (c0 & m0 & Hcoef0 & _ & Hm0 & _ & Hrun0).
      destruct (Hrun0 (default (Np.zeros2 Np.float64 0 0)
                         (direct_impact Sample.sc1_no_years))
                  (default [] (years Sample.sc1_no_years)) eq_refl eq_refl) as [_ Hinv0].
      vm_compute in Hcoef0. injection Hcoef0 as <-.
      vm_compute in Hm0. injection Hm0 as <-.
      destruct (Hinv0 _ eq_refl) as [Hok _].
      eexists. apply Hok. reflexivity.
Defined.

(** * The further properties at the sample data *)

Lemma eeioa_propagation_witness :
  valid_propagation Sample.sc0 [5%float; 0%float] Sample.inverse
    (Np.zeros3 Np.float32 2 2 1) 0 /\
  exists risk_structure',
    _eeioa_calc Sample.sc0 [5%float; 0%float] Sample.inverse
      (Np.zeros3 Np.float32 2 2 1) 0 = Ok risk_structure' /\
    Np.get3 risk_structure' 0 1 0 = 100%float.
Proof.
  split; [exact valid_propagation_sample|].
  destruct (eeioa_propagation Sample.sc0 [5%float; 0%float] Sample.inverse
              (Np.zeros3 Np.float32 2 2 1) 0 valid_propagation_sample)
    as (rs' & Hrun & Hval).
  exists rs'. split; [exact Hrun|].
  rewrite Hval by (vm_compute; lia). reflexivity.
Defined.

Lemma propagation_keeps_other_years_witness :
  exists risk_structure',
    _leontief_calc Sample.sc0 [5%float; 0%float] Sample.inverse
      (Np.zeros3 Np.float32 2 2 2) 1 = Ok risk_structure' /\
    Np.slice3 0 risk_structure' = Np.slice3 0 (Np.zeros3 Np.float32 2 2 2).
Proof.
  destruct (_leontief_calc Sample.sc0 [5%float; 0%float] Sample.inverse
              (Np.zeros3 Np.float32 2 2 2) 1) as [rs'|e] eqn:Hrun.
  - exists rs'. split; [reflexivity|].
    apply (propagation_keeps_other_years Sample.sc0 "leontief"
             (_leontief_calc Sample.sc0) [5%float; 0%float] Sample.inverse
             (Np.zeros3 Np.float32 2 2 2) rs' 1 eq_refl Hrun).
    lia.
  - vm_compute in Hrun. discriminate Hrun.
Defined.

Lemma direct_intensity_past_total_prod_witness :
  length [20%float; 20%float] <= 2 /\
  direct_intensity_of [100%float; 7%float; 3%float] [20%float; 20%float] !! 2
    = Some PrimFloat.zero.
Proof.
  split; [simpl; lia|].
  apply (direct_intensity_past_total_prod [100%float; 7%float; 3%float]
           [20%float; 20%float] 2); simpl; lia.
Defined.

Lemma years_ascending_witness :
  exists ys, years Sample.sc1 = Some ys /\ StronglySorted Z.lt ys /\ 2019%Z ∈ ys.
Proof.
  destruct (years_ascending Sample.alpha3 Sample.year_set Sample.hazard Sample.exposure
              "agriculture" None Sample.sc0 Sample.sc1 direct_step_sample)
    as (ys & Hys & Hsorted & Hmem).
  exists ys. split; [exact Hys|]. split; [exact Hsorted|].
  apply Hmem. exists (Date 2019 5 5). split; [|reflexivity].
  apply list_elem_of_further, list_elem_of_here.
Defined.

Lemma recorded_country_codes_witness :
  exists codes, cntry_dir_imp Sample.sc1 = Some codes /\ codes !! 0 = Some "ROW".
Proof.
  destruct (recorded_country_codes Sample.alpha3 Sample.year_set Sample.hazard
              Sample.exposure "agriculture" None Sample.sc0 Sample.sc1 direct_step_sample)
    as (codes & Hcodes & _ & Hcode & _).
  exists codes. split; [exact Hcodes|].
  destruct (Hcode 0 104%Z eq_refl) as (code & Ha & Hrec & _).
  assert (code = "MMR") as -> by (vm_compute in Ha; congruence).
  exact Hrec.
Defined.

Lemma first_country_errors_witness :
  select_subsec "agriculture" None = Ok [0] /\
  calc_sector_direct_impact Sample.alpha3 Sample.year_set Sample.hazard
    (ExposureRow 999 1%float :: Sample.exposure) "agriculture" None Sample.sc0
    = Raise AttributeError /\
  calc_sector_direct_impact Sample.alpha3 Sample.year_set Sample.hazard
    (ExposureRow 104 1%float :: Sample.exposure) "agriculture" None init
    = Raise KeyError.
Proof.
  assert (select_subsec "agriculture" None = Ok [0]) as Hsel by reflexivity.
  split; [exact Hsel|]. split.
  - destruct (first_country_errors Sample.alpha3 Sample.year_set Sample.hazard
                (ExposureRow 999 1%float) Sample.exposure "agriculture" None [0]
                Sample.sc0 Hsel) as [Hattr _].
    apply Hattr. reflexivity.
  - destruct (first_country_errors Sample.alpha3 Sample.year_set Sample.hazard
                (ExposureRow 104 1%float) Sample.exposure "agriculture" None [0]
                init Hsel) as [_ Hcode].
    destruct (Hcode "MMR" eq_refl) as [Hkey _].
    apply Hkey. reflexivity.
Defined.

Lemma direct_impact_shape_and_support_witness :
  exists d, direct_impact Sample.sc1 = Some d /\
    Np.dtype2 d = Np.float64 /\ Np.nrows d = 2 /\ Np.ncols d = 2 /\
    Np.get2 d 0 0 = PrimFloat.zero.
Proof.
  destruct (direct_impact_shape_and_support Sample.alpha3 Sample.year_set Sample.hazard
              Sample.exposure "agriculture" None [0] Sample.sc0 Sample.sc1
              direct_step_sample eq_refl (NoDup_singleton 0))
    as (d & ys & Hd & Hys & Hdt & Hnr & Hnc & _ & Hzero).
  assert (ys = [2019%Z; 2020%Z]) as -> by (vm_compute in Hys; congruence).
  exists d. split; [exact Hd|]. split; [exact Hdt|].
  split; [exact Hnr|]. split; [exact Hnc|].
  apply Hzero; [rewrite Hnr; simpl; lia|].
  intros r code rng s Hr Ha Hrng Hs. apply list_elem_of_singleton in Hs as ->.
  assert (rng = Range 1 2) as ->; [|simpl; lia].
  unfold Sample.exposure in Hr. rewrite !elem_of_cons, elem_of_nil in Hr.
  destruct Hr as [-> | [-> | [-> | []]]];
    vm_compute in Ha; injection Ha as <-; vm_compute in Hrng; congruence.
Defined.


Lemma indirect_impact_needs_direct_witness :
  direct_impact Sample.sc0 = None /\
  calc_indirect_impact Sample.inv2 "leontief" Sample.sc0 = Raise AttributeError.
Proof.
  split; [reflexivity|].
  destruct (indirect_impact_needs_direct Sample.inv2 "leontief" Sample.sc0
              (or_introl eq_refl)) as [_ Hraise].
  eapply Hraise; vm_compute; reflexivity.
Defined.

Lemma indirect_impact_shapes_witness :
  exists ind iod,
    indirect_impact Sample.sc2 = Some ind /\ io_data Sample.sc2 = Some iod /\
    Np.dtype2 ind = Np.float32 /\ Np.nrows ind = 2 /\ Np.ncols ind = 2 /\
    Np.dim3 (risk_structure iod) = 2 /\ io_approach iod = "leontief".
Proof.
  destruct (indirect_impact_shapes Sample.inv2 "leontief" Sample.sc1 Sample.sc2
              (default (Np.zeros2 Np.float64 0 0) (direct_impact Sample.sc1))
              (default [] (years Sample.sc1))
              indirect_step_sample eq_refl eq_refl)
    as (ind & iod & Hind & Hiod & Hdt & Hnr & Hnc & _ & _ & _ & Hd3 & _ & _ & _ & _ &
        Hio & _).
  exists ind, iod. split; [exact Hind|]. split; [exact Hiod|].
  split; [exact Hdt|]. split; [exact Hnr|]. split; [exact Hnc|].
  split; [exact Hd3 | exact Hio].
Defined.

Lemma short_total_prod_raises_witness :
  length (total_prod Sample.sc0_short) < Np.ncols (mriot_data Sample.sc0_short) /\
  calc_indirect_impact Sample.inv2 "leontief" Sample.sc0_short = Raise IndexError.
Proof.
  split; [vm_compute; lia|].
  apply (short_total_prod_raises Sample.inv2 "leontief" Sample.sc0_short).
  - repeat constructor.
  - vm_compute. lia.
Defined.

Lemma workflow_composes_witness :
  exists self2 self3 tot,
    calc_indirect_impact Sample.inv2 "leontief" Sample.sc1 = Ok self2 /\
    calc_total_impact self2 = Ok self3 /\
    total_impact self3 = Some tot /\ Np.dtype2 tot = Np.float64 /\
    Np.nrows tot = 2 /\ Np.ncols tot = 2.
Proof.
  destruct (workflow_composes Sample.alpha3 Sample.year_set Sample.inv2 Sample.hazard
              Sample.exposure "agriculture" None [0] "leontief" Sample.sc0 Sample.sc1
              valid_mriot_sample eq_refl direct_step_sample eq_refl (NoDup_singleton 0)
              (list_elem_of_here _ _))
    as (self2 & self3 & dir & ind & tot & H2 & H3 & _ & _ & Htot & Hdt & Hnr & Hnc & _).
  - intros c m Hc Hm. vm_compute in Hc. injection Hc as <-.
    vm_compute in Hm. injection Hm as <-.
    eexists. split; [vm_compute; reflexivity|].
    repeat split; repeat constructor.
  - exists self2, self3, tot. split; [exact H2|]. split; [exact H3|].
    split; [exact Htot|]. split; [exact Hdt|]. split; [exact Hnr | exact Hnc].
Defined.

Lemma year_without_direct_impact_witness :
  calc_indirect_impact Sample.inv2 "leontief" Sample.sc1_idle = Ok Sample.sc2_idle /\
  PrimFloat.is_nan (Np.get2 Sample.idle_year 0 1) = true /\
  exists ind, indirect_impact Sample.sc2_idle = Some ind /\
    Np.get2 ind 0 0 = PrimFloat.zero /\ Np.get2 ind 0 1 = PrimFloat.zero.
Proof.
  assert (calc_indirect_impact Sample.inv2 "leontief" Sample.sc1_idle
          = Ok Sample.sc2_idle) as Hrun by (vm_compute; reflexivity).
  split; [exact Hrun|]. split; [reflexivity|].
  destruct (year_without_direct_impact Sample.inv2 "leontief" Sample.sc1_idle
              Sample.sc2_idle Sample.idle_year [2019%Z; 2020%Z] 0)
    as (ind & Hind & Hzero).
  - repeat split; repeat constructor.
  - apply list_elem_of_here.
  - reflexivity.
  - reflexivity.
  - repeat constructor.
  - reflexivity.
  - reflexivity.
  - intros c m inv Hc Hm Hi. vm_compute in Hc. injection Hc as <-.
    vm_compute in Hm. injection Hm as <-.
    vm_compute in Hi. injection Hi as <-.
    repeat split; repeat constructor.
  - exact Hrun.
  - simpl. lia.
  - intros j Hj. destruct j as [|[|j]]; [left; reflexivity | right; reflexivity |].
    simpl in Hj. lia.
  - exists ind. split; [exact Hind|]. split; apply Hzero; simpl; lia.
Defined.
